(** * ScenicView: flight geometry and solar visibility

    A shallow embedding of the backend services of the seat recommender
    (flightPathService, sunPositionService, seatRecommendationService,
    enhancedSunAnalysisService and routeHandler) and of the distance and
    seat helpers of the frontend's result page (App.tsx), together with the
    properties of its specification.

    Numbers.  A JavaScript [number] is modelled by an exact real: rounding,
    signed zeros and overflow are left out, [Math.sin], [Math.cos],
    [Math.asin], [Math.acos] and [Math.sqrt] are the functions of the real
    analysis library.  Where the services divide by a value that can be
    zero the quotient is [None], which stands for the NaN that JavaScript
    produces there; a [num] is a number that may be NaN, and infinities are
    not modelled.

    Dates.  A valid [Date] is its time value, an integer count of
    milliseconds; an ISO-8601 string produced by [toISOString] is identified
    with the time value it denotes. *)

From Stdlib Require Import Reals Lra Lia ZArith List String Ascii Bool.
From Stdlib Require Import Zfloor.
Import ListNotations.

Open Scope R_scope.

(* ================================================================== *)
(** ** JavaScript numbers *)

Module JsNumber.

(** Comparisons of finite numbers as booleans. *)
Definition Rltb (x y : R) : bool := if Rlt_dec x y then true else false.
Definition Rleb (x y : R) : bool := if Rle_dec x y then true else false.

(** A number that may be NaN. *)
Definition num : Type := option R.

Definition NaN : num := None.

(** [a < b], [a <= b], [a > b], [a >= b]: false as soon as one side is NaN. *)
Definition lt (a b : num) : bool :=
  match a, b with Some x, Some y => Rltb x y | _, _ => false end.
Definition le (a b : num) : bool :=
  match a, b with Some x, Some y => Rleb x y | _, _ => false end.
Definition gt (a b : num) : bool := lt b a.
Definition ge (a b : num) : bool := le b a.

(** Arithmetic propagates NaN. *)
Definition lift1 (f : R -> R) (a : num) : num :=
  match a with Some x => Some (f x) | None => None end.
Definition lift2 (f : R -> R -> R) (a b : num) : num :=
  match a, b with Some x, Some y => Some (f x y) | _, _ => None end.

Definition add : num -> num -> num := lift2 Rplus.
Definition sub : num -> num -> num := lift2 Rminus.
Definition mul : num -> num -> num := lift2 Rmult.

(** [a / b] where [b] may be zero.  JavaScript gives NaN for 0/0 and an
    infinity for x/0; the services only feed the quotient into a weighted
    sum and [atan2], and both cases are represented by [None]. *)
Definition div0 (a b : R) : num :=
  if Req_dec_T b 0 then None else Some (a / b).

(** [ToIntegerOrInfinity]: truncation towards zero. *)
Definition trunc (x : R) : Z :=
  if Rle_dec 0 x then Zfloor x else Zceil x.

(** The remainder operator [x % y]: the result has the sign of [x]. *)
Definition rem (x y : R) : R := x - y * IZR (trunc (x / y)).

(** [Math.round]: the nearest integer, ties towards plus infinity. *)
Definition round (x : R) : R := IZR (Zfloor (x + / 2)).

(** [Math.atan2(y, x)]: the angle of the point (x, y), in (-PI, PI]. *)
Definition atan2 (y x : R) : R :=
  if Rlt_dec 0 x then atan (y / x)
  else if Rlt_dec x 0 then
    (if Rle_dec 0 y then atan (y / x) + PI else atan (y / x) - PI)
  else if Rlt_dec 0 y then PI / 2
  else if Rlt_dec y 0 then - (PI / 2)
  else 0.

End JsNumber.

(* ================================================================== *)
(** ** Dates and thrown errors *)

Module Js.

(** What a service can throw. *)
Inductive Error : Type :=
| AirportNotFound (fromAirport toAirport : string)
    (* Error(`Airport not found: ${from} or ${to}`) *)
| InvalidTimeValue
    (* the RangeError of toISOString on an invalid Date *)
| TypeError.
    (* reading a property of null or undefined *)

Inductive result (A : Type) : Type :=
| Ok (a : A)
| Throw (e : Error).
Arguments Ok {A} a.
Arguments Throw {A} e.

Definition bind {A B : Type} (m : result A) (k : A -> result B) : result B :=
  match m with Ok a => k a | Throw e => Throw e end.

Fixpoint mapM {A B : Type} (f : A -> result B) (l : list A) : result (list B) :=
  match l with
  | [] => Ok []
  | a :: l' =>
      bind (f a) (fun b => bind (mapM f l') (fun bs => Ok (b :: bs)))
  end.

(** The largest time value of a Date, 8.64e15 ms. *)
Definition maxTime : Z := 8640000000000000%Z.

(** [new Date(tv)] followed by a use that needs a valid Date: TimeClip
    keeps the integer part of a time value within range, the Date is
    invalid otherwise. *)
Definition mkDate (tv : R) : option Z :=
  if Rle_dec (Rabs tv) (IZR maxTime) then Some (JsNumber.trunc tv) else None.

(** [String.prototype.toUpperCase] on ASCII letters. *)
Definition upper (c : ascii) : ascii :=
  let n := nat_of_ascii c in
  if ((97 <=? n) && (n <=? 122))%nat then ascii_of_nat (n - 32) else c.

Fixpoint toUpperCase (s : string) : string :=
  match s with
  | EmptyString => EmptyString
  | String c s' => String (upper c) (toUpperCase s')
  end.

End Js.

Notation "x <- m ;; k" := (Js.bind m (fun x => k))
  (at level 61, m at next level, right associativity).

(* ================================================================== *)
(** ** flightPathService.ts *)

Module FlightPath.
Import JsNumber Js.

Definition Coords : Type := (R * R)%type.

(** Airport coordinates (latitude, longitude). *)
Definition AIRPORTS : list (string * Coords) :=
  [ ("DEL"%string, (28.5562, 77.1000));
    ("JAI"%string, (26.8282, 75.8056));
    ("BLR"%string, (12.9716, 77.5946));
    ("BOM"%string, (19.0896, 72.8656));
    ("BHO"%string, (23.2875, 77.3374));
    ("LKO"%string, (26.7606, 80.8893));
    ("JFK"%string, (40.6413, -73.7781));
    ("LHR"%string, (51.4700, -0.4543));
    ("NRT"%string, (35.7720, 140.3929));
    ("LAX"%string, (33.9425, -118.4081));
    ("DXB"%string, (25.2532, 55.3657));
    ("SIN"%string, (1.3644, 103.9915));
    ("SYD"%string, (-33.9399, 151.1753));
    ("CDG"%string, (49.0097, 2.5479));
    ("FRA"%string, (50.0379, 8.5622));
    ("HKG"%string, (22.3080, 113.9185));
    ("ICN"%string, (37.4602, 126.4407));
    ("BKK"%string, (13.6900, 100.7501));
    ("DOH"%string, (25.2731, 51.6080));
    ("IST"%string, (41.2753, 28.7519));
    ("MAD"%string, (40.4839, -3.5680)) ].

(** [AIRPORTS[code]]: the entry of the table, [None] for [undefined].  The
    properties that the table object inherits ([constructor], [toString],
    ...) are left out: they are not codes in upper case, and the handler
    only reaches the table with codes whose upper case is in it. *)
Fixpoint lookupIn (tbl : list (string * Coords)) (code : string) : option Coords :=
  match tbl with
  | [] => None
  | (k, v) :: tbl' => if String.eqb k code then Some v else lookupIn tbl' code
  end.

Definition lookup (code : string) : option Coords := lookupIn AIRPORTS code.

Record Waypoint : Type := mkWaypoint {
  lat : num;
  lon : num;
  time : Z
}.

(** The central angle between two points (haversine form), in radians. *)
Definition centralAngle (lat1 lon1 lat2 lon2 : R) : R :=
  2 * asin (sqrt (sin ((lat2 - lat1) / 2) ^ 2 +
                  cos lat1 * cos lat2 * sin ((lon2 - lon1) / 2) ^ 2)).

(** The blend of the two unit vectors with weights [A] and [B], back in
    degrees. *)
Definition blend (lat1 lon1 lat2 lon2 A B : R) : Coords :=
  let x := A * cos lat1 * cos lon1 + B * cos lat2 * cos lon2 in
  let y := A * cos lat1 * sin lon1 + B * cos lat2 * sin lon2 in
  let z := A * sin lat1 + B * sin lat2 in
  let lat := atan2 z (sqrt (x * x + y * y)) in
  let lon := atan2 y x in
  (lat * 180 / PI, lon * 180 / PI).

(** Simple great circle calculation.  [None]: the weights are NaN (or
    infinite) because [sin d] is zero, and so are both coordinates. *)
Definition calculateGreatCircle (from to : Coords) (fraction : R) : option Coords :=
  let lat1 := fst from * PI / 180 in
  let lon1 := snd from * PI / 180 in
  let lat2 := fst to * PI / 180 in
  let lon2 := snd to * PI / 180 in
  let d := centralAngle lat1 lon1 lat2 lon2 in
  match div0 (sin ((1 - fraction) * d)) (sin d),
        div0 (sin (fraction * d)) (sin d) with
  | Some A, Some B => Some (blend lat1 lon1 lat2 lon2 A B)
  | _, _ => None
  end.

(** The distance in km (spherical law of cosines, Earth radius 6371 km). *)
Definition distanceKm (fromCoords toCoords : Coords) : R :=
  let lat1 := fst fromCoords * PI / 180 in
  let lon1 := snd fromCoords * PI / 180 in
  let lat2 := fst toCoords * PI / 180 in
  let lon2 := snd toCoords * PI / 180 in
  6371 * acos (sin lat1 * sin lat2 + cos lat1 * cos lat2 * cos (lon2 - lon1)).

(** [Math.max(5, Math.floor(distance / 50))]. *)
Definition numWaypoints (distance : R) : Z := Z.max 5 (Zfloor (distance / 50)).

(** The progress fraction of the loop index [i]. *)
Definition fractionAt (n : Z) (i : nat) : R := INR i / IZR n.

(** The time value of the waypoint at [fraction], before TimeClip. *)
Definition timeValueAt (departureTime : Z) (distance fraction : R) : R :=
  let flightDuration := distance / 800 in
  IZR departureTime + fraction * flightDuration * 60 * 60 * 1000.

(** One iteration of the loop of [calculateFlightPath]. *)
Definition waypointAt (fromCoords toCoords : Coords) (departureTime : Z)
    (distance : R) (n : Z) (i : nat) : result Waypoint :=
  let fraction := fractionAt n i in
  let pos := calculateGreatCircle fromCoords toCoords fraction in
  match mkDate (timeValueAt departureTime distance fraction) with
  | Some t => Ok (mkWaypoint (option_map fst pos) (option_map snd pos) t)
  | None => Throw InvalidTimeValue
  end.

Definition calculateFlightPath (fromAirport toAirport : string)
    (departureTime : Z) : result (list Waypoint) :=
  match lookup (toUpperCase fromAirport), lookup (toUpperCase toAirport) with
  | Some fromCoords, Some toCoords =>
      let distance := distanceKm fromCoords toCoords in
      let n := numWaypoints distance in
      mapM (waypointAt fromCoords toCoords departureTime distance n)
           (seq 0 (S (Z.to_nat n)))
  | _, _ => Throw (AirportNotFound fromAirport toAirport)
  end.

End FlightPath.

(* ================================================================== *)
(** ** The host: SunCalc and the formatting and parsing of the runtime *)

Module Host.
Import JsNumber.

Class Env : Type := {
  (** [SunCalc.getPosition(date, lat, lon)]: azimuth and altitude in
      radians; the azimuth is measured from South, positive towards West. *)
  getPosition : Z -> R -> R -> R * R;
  (** [date.toLocaleTimeString([], {...})]; [None] is an invalid Date. *)
  toLocaleTimeString : option Z -> string;
  (** [x.toFixed(2)]. *)
  toFixed2 : num -> string;
  (** [new Date(s)]: [None] when the Date is invalid. *)
  parseDate : string -> option Z;
  (** [parseFloat(s)]; [None] stands for NaN and for an infinity, which the
      handler treats alike (see [enhancedAnalysisOf]). *)
  parseFloat : string -> num;
  (** [date.toISOString()] of a valid Date. *)
  toISOString : Z -> string
}.

(** SunCalc on a Date and coordinates that may be invalid or NaN: the
    library is plain arithmetic, NaN in gives NaN out. *)
Definition sunAt `{Env} (t : option Z) (lat lon : num) : num * num :=
  match t, lat, lon with
  | Some t', Some la, Some lo =>
      let (az, alt) := getPosition t' la lo in (Some az, Some alt)
  | _, _, _ => (NaN, NaN)
  end.

End Host.

(* ================================================================== *)
(** ** sunPositionService.ts *)

Module SunPositionService.
Import JsNumber Js Host.

Record SunPosition : Type := mkSunPosition {
  lat : num;
  lon : num;
  time : Z;
  azimuth : num;
  elevation : num
}.

Definition sunPositionAt `{Env} (waypoint : FlightPath.Waypoint) : SunPosition :=
  let timeAtWaypoint := Some (FlightPath.time waypoint) in
  let sunPosition :=
    sunAt timeAtWaypoint (FlightPath.lat waypoint) (FlightPath.lon waypoint) in
  let azimuthDegrees := lift1 (fun a => a * (180 / PI)) (fst sunPosition) in
  let elevationDegrees := lift1 (fun a => a * (180 / PI)) (snd sunPosition) in
  mkSunPosition (FlightPath.lat waypoint) (FlightPath.lon waypoint)
                (FlightPath.time waypoint) azimuthDegrees elevationDegrees.

Definition calculateSunPositions `{Env} (waypoints : list FlightPath.Waypoint)
    (departureTime : Z) : list SunPosition :=
  map sunPositionAt waypoints.

End SunPositionService.

(* ================================================================== *)
(** ** seatRecommendationService.ts *)

Module SeatRecommendation.
Import JsNumber Js.
Import SunPositionService.

(** Calculate bearing between two points. *)
Definition calculateBearing (lat1 lon1 lat2 lon2 : R) : R :=
  let dLon := (lon2 - lon1) * PI / 180 in
  let lat1Rad := lat1 * PI / 180 in
  let lat2Rad := lat2 * PI / 180 in
  let y := sin dLon * cos lat2Rad in
  let x := cos lat1Rad * sin lat2Rad - sin lat1Rad * cos lat2Rad * cos dLon in
  let bearing := atan2 y x * 180 / PI in
  rem (bearing + 360) 360.

(** The same on coordinates that may be NaN. *)
Definition calculateBearingNum (lat1 lon1 lat2 lon2 : num) : num :=
  match lat1, lon1, lat2, lon2 with
  | Some a, Some b, Some c, Some d => Some (calculateBearing a b c d)
  | _, _, _, _ => NaN
  end.

(** The strings [getSeatRecommendation] returns. *)
Inductive Recommendation : Type :=
| NoOptimalWindowSeat   (* 'No optimal window seat - sun will not be visible during flight' *)
| UnableToDetermine     (* 'Unable to determine flight direction' *)
| RecLeft               (* 'left' *)
| RecRight.             (* 'right' *)

Definition isVisible (pos : SunPosition) : bool :=
  gt (elevation pos) (Some 0) && lt (elevation pos) (Some 80).

(** [((a % 360) + 360) % 360]. *)
Definition normalize360 (a : R) : R := rem (rem a 360 + 360) 360.

(** The two corrections applied to the difference of the bearings. *)
Definition wrapRelative (r : num) : num :=
  let r1 := if lt r (Some 0) then add r (Some 360) else r in
  if gt r1 (Some 360) then sub r1 (Some 360) else r1.

(** The final test on the relative sun position. *)
Definition sideOfRelative (relativeSunPosition : num) : Recommendation :=
  if ge relativeSunPosition (Some 0) && le relativeSunPosition (Some 180)
  then RecLeft else RecRight.

Definition averageAzimuth (visibleSunPositions : list SunPosition) : num :=
  lift1 (fun s => s / INR (List.length visibleSunPositions))
        (fold_left (fun sum pos => add sum (azimuth pos))
                   visibleSunPositions (Some 0)).

Definition getSeatRecommendation (sunPositions : list SunPosition)
    (flightPath : list FlightPath.Waypoint) : Recommendation :=
  let visibleSunPositions := filter isVisible sunPositions in
  if (List.length visibleSunPositions =? 0)%nat then NoOptimalWindowSeat
  else
    match flightPath with
    | [] | [_] => UnableToDetermine
    | startPoint :: rest =>
        let endPoint := last rest startPoint in
        let flightBearing :=
          calculateBearingNum (FlightPath.lat startPoint) (FlightPath.lon startPoint)
                              (FlightPath.lat endPoint) (FlightPath.lon endPoint) in
        let avgAzimuth := averageAzimuth visibleSunPositions in
        let normalizedSunAzimuth := lift1 normalize360 avgAzimuth in
        let relativeSunPosition :=
          wrapRelative (sub normalizedSunAzimuth flightBearing) in
        sideOfRelative relativeSunPosition
    end.

End SeatRecommendation.

(* ================================================================== *)
(** ** enhancedSunAnalysisService.ts *)

Module EnhancedSunAnalysis.
Import JsNumber Js Host.

Inductive Condition : Type := NIGHT | TWILIGHT | GOLDEN_HOUR | DAYLIGHT.

Inductive Side : Type := SideLeft | SideRight | SideEither.

(** A point of the 15-minute sampling; [time] is a Date, [None] when it is
    invalid. *)
Module SamplingPoint.
Record t : Type := mk {
  time : option Z;
  lat : num;
  lon : num;
  progressPercent : num
}.
End SamplingPoint.

Module SunCondition.
Record t : Type := mk {
  time : option Z;
  timeString : string;
  lat : num;
  lon : num;
  sunElevation : num;
  sunAzimuth : num;
  condition : Condition;
  progressPercent : num
}.
End SunCondition.

Module SunEvent.
Record t : Type := mk {
  time : option Z;
  timeString : string;
  location : string;
  lat : num;
  lon : num;
  progressPercent : num
}.
End SunEvent.

(** The lines pushed on [report.summary], with the values spliced in. *)
Inductive SummaryLine : Type :=
| BothSunriseAndSunset
| SunriseAt (timeString : string)
| SunsetAt (timeString : string)
| AlsoNightHours (nightHours : num)
| WillSeeSunrise (timeString : string)
| WillSeeSunset (timeString : string)
| NightHours (nightHours : num)
| GoldenHours (goldenHours : num)
| BrightDaylight
| RequiresDuration.

(** The lines pushed on [report.recommendations]. *)
Inductive RecommendationLine : Type :=
| RareTreat
| ChooseSunriseSide (rightSide : bool)
| ChooseSunsetSide (rightSide : bool)
| NightPhotography
| ScenicLandscape
| BringCamera
| EarlierCheckIn.

Module FlightSunAnalysis.
Record t : Type := mk {
  willSeeSunrise : bool;
  willSeeSunset : bool;
  willSeeNight : bool;
  willSeeGoldenHour : bool;
  sunrise : option SunEvent.t;
  sunset : option SunEvent.t;
  summary : list SummaryLine;
  recommendations : list RecommendationLine;
  seatSuggestion : Side;
  timeline : list SunCondition.t;
  nightDuration : option num;
  dayDuration : option num
}.
End FlightSunAnalysis.

(** The [events] object built by [detectSunEvents]. *)
Module Events.
Record t : Type := mk {
  sunrise : option SunEvent.t;
  sunset : option SunEvent.t;
  willSeeNight : bool;
  willSeeSunrise : bool;
  willSeeSunset : bool;
  willSeeGoldenHour : bool;
  nightMinutes : num;
  dayMinutes : num;
  goldenHourMinutes : num
}.
End Events.

(** Calculate great circle interpolation between two points.  [None]: both
    coordinates are NaN. *)
Definition interpolateGreatCircle (from to : FlightPath.Coords) (fraction : num)
  : option FlightPath.Coords :=
  if le fraction (Some 0) then Some from
  else if ge fraction (Some 1) then Some to
  else
    match fraction with
    | None => None
    | Some f =>
        let lat1 := fst from * PI / 180 in
        let lon1 := snd from * PI / 180 in
        let lat2 := fst to * PI / 180 in
        let lon2 := snd to * PI / 180 in
        let d := 2 * asin (sqrt (sin ((lat1 - lat2) / 2) ^ 2 +
                     cos lat1 * cos lat2 * sin ((lon1 - lon2) / 2) ^ 2)) in
        match div0 (sin ((1 - f) * d)) (sin d), div0 (sin (f * d)) (sin d) with
        | Some a, Some b => Some (FlightPath.blend lat1 lon1 lat2 lon2 a b)
        | _, _ => None
        end
    end.

(** The sampling point at [minutes] after the start. *)
Definition samplingPointAt (fromCoords toCoords : FlightPath.Coords)
    (startTime : option Z) (totalMinutes minutes : R) : SamplingPoint.t :=
  let fraction := div0 minutes totalMinutes in
  let currentTime :=
    match startTime with
    | Some st => mkDate (IZR st + minutes * 60 * 1000)
    | None => None
    end in
  let position := interpolateGreatCircle fromCoords toCoords fraction in
  SamplingPoint.mk currentTime (option_map fst position) (option_map snd position)
                   (lift1 (fun f => f * 100) fraction).

(** Generate sampling points along the flight path every 15 minutes: the
    loop runs for minutes = 0, 15, 30, ... while [minutes <= totalMinutes],
    that is for the indices below [floor (totalMinutes / 15) + 1]. *)
Definition generateFlightSamplingPoints (fromCoords toCoords : FlightPath.Coords)
    (startTime : option Z) (duration : R) : list SamplingPoint.t :=
  let totalMinutes := duration * 60 in
  let intervalMinutes := 15 in
  map (fun k => samplingPointAt fromCoords toCoords startTime totalMinutes
                                (INR k * intervalMinutes))
      (seq 0 (Z.to_nat (Zfloor (totalMinutes / intervalMinutes) + 1))).

(** Classify sun condition based on elevation angle. *)
Definition classifySunCondition (elevation : num) : Condition :=
  if lt elevation (Some 0) then NIGHT
  else if lt elevation (Some 6) then TWILIGHT
  else if lt elevation (Some 10) then GOLDEN_HOUR
  else DAYLIGHT.

Definition sunConditionAt `{Env} (point : SamplingPoint.t) : SunCondition.t :=
  let sunPos := sunAt (SamplingPoint.time point) (SamplingPoint.lat point)
                      (SamplingPoint.lon point) in
  let elevation := lift1 (fun a => a * (180 / PI)) (snd sunPos) in
  let azimuth := lift1 (fun a => a * (180 / PI)) (fst sunPos) in
  SunCondition.mk (SamplingPoint.time point)
                  (toLocaleTimeString (SamplingPoint.time point))
                  (SamplingPoint.lat point) (SamplingPoint.lon point)
                  elevation azimuth (classifySunCondition elevation)
                  (SamplingPoint.progressPercent point).

(** Analyze sun conditions for each sampling point. *)
Definition analyzeSunConditions `{Env} (samplingPoints : list SamplingPoint.t)
  : list SunCondition.t :=
  map sunConditionAt samplingPoints.

Definition initialEvents : Events.t :=
  Events.mk None None false false false false (Some 0) (Some 0) (Some 0).

Definition intervalMinutes : num := Some 15.

(** Updates of the fields of [events]. *)
Definition markNight (events : Events.t) : Events.t :=
  Events.mk (Events.sunrise events) (Events.sunset events) true
    (Events.willSeeSunrise events) (Events.willSeeSunset events)
    (Events.willSeeGoldenHour events)
    (add (Events.nightMinutes events) intervalMinutes)
    (Events.dayMinutes events) (Events.goldenHourMinutes events).

Definition markDay (events : Events.t) : Events.t :=
  Events.mk (Events.sunrise events) (Events.sunset events)
    (Events.willSeeNight events)
    (Events.willSeeSunrise events) (Events.willSeeSunset events)
    (Events.willSeeGoldenHour events)
    (Events.nightMinutes events)
    (add (Events.dayMinutes events) intervalMinutes)
    (Events.goldenHourMinutes events).

Definition markGoldenHour (events : Events.t) : Events.t :=
  Events.mk (Events.sunrise events) (Events.sunset events)
    (Events.willSeeNight events)
    (Events.willSeeSunrise events) (Events.willSeeSunset events)
    true
    (Events.nightMinutes events) (Events.dayMinutes events)
    (add (Events.goldenHourMinutes events) intervalMinutes).

Definition setSunrise (events : Events.t) (e : SunEvent.t) : Events.t :=
  Events.mk (Some e) (Events.sunset events) (Events.willSeeNight events)
    true (Events.willSeeSunset events) (Events.willSeeGoldenHour events)
    (Events.nightMinutes events) (Events.dayMinutes events)
    (Events.goldenHourMinutes events).

Definition setSunset (events : Events.t) (e : SunEvent.t) : Events.t :=
  Events.mk (Events.sunrise events) (Some e) (Events.willSeeNight events)
    (Events.willSeeSunrise events) true (Events.willSeeGoldenHour events)
    (Events.nightMinutes events) (Events.dayMinutes events)
    (Events.goldenHourMinutes events).

(** [events.willSeeNight = true; events.nightMinutes = m]. *)
Definition forceNight (events : Events.t) (m : num) : Events.t :=
  Events.mk (Events.sunrise events) (Events.sunset events) true
    (Events.willSeeSunrise events) (Events.willSeeSunset events)
    (Events.willSeeGoldenHour events)
    m (Events.dayMinutes events) (Events.goldenHourMinutes events).

(** Count duration of each condition; twilight periods also count as night
    for viewing purposes. *)
Definition countCondition (events : Events.t) (current : SunCondition.t) : Events.t :=
  match SunCondition.condition current with
  | NIGHT => markNight events
  | DAYLIGHT => markDay events
  | GOLDEN_HOUR => markGoldenHour events
  | TWILIGHT => markNight events
  end.

(** The two characters of the degree sign in UTF-8. *)
Definition degreeSign : string :=
  String (ascii_of_nat 194) (String (ascii_of_nat 176) EmptyString).

(** The event recorded at the sample [current]. *)
Definition eventAt `{Env} (current : SunCondition.t) : SunEvent.t :=
  SunEvent.mk (SunCondition.time current) (SunCondition.timeString current)
    (toFixed2 (SunCondition.lat current) ++ degreeSign ++ ", " ++
     toFixed2 (SunCondition.lon current) ++ degreeSign)%string
    (SunCondition.lat current) (SunCondition.lon current)
    (SunCondition.progressPercent current).

Definition isSunriseCrossing (prev current : SunCondition.t) : bool :=
  le (SunCondition.sunElevation prev) (Some 0) &&
  gt (SunCondition.sunElevation current) (Some 0).

Definition isSunsetCrossing (prev current : SunCondition.t) : bool :=
  gt (SunCondition.sunElevation prev) (Some 0) &&
  le (SunCondition.sunElevation current) (Some 0).

(** Detect transitions (events) between [prev] and [current]. *)
Definition detectTransitions `{Env} (events : Events.t)
    (prev current : SunCondition.t) : Events.t :=
  let events1 :=
    if isSunriseCrossing prev current
    then setSunrise events (eventAt current) else events in
  if isSunsetCrossing prev current
  then setSunset events1 (eventAt current) else events1.

(** The loop of [detectSunEvents]; [prev] is [sunAnalysis[i-1]], absent at
    [i = 0]. *)
Fixpoint detectLoop `{Env} (events : Events.t) (prev : option SunCondition.t)
    (rest : list SunCondition.t) : Events.t :=
  match rest with
  | [] => events
  | current :: rest' =>
      let events1 := countCondition events current in
      let events2 :=
        match prev with
        | Some p => detectTransitions events1 p current
        | None => events1
        end in
      detectLoop events2 (Some current) rest'
  end.

(** Detect sunrise/sunset events during the flight. *)
Definition detectSunEvents `{Env} (sunAnalysis : list SunCondition.t) : Events.t :=
  detectLoop initialEvents None sunAnalysis.


(** The flight bearing computed by the two event-based seat functions. *)
Definition generalFlightBearing (fromCoords toCoords : FlightPath.Coords) : R :=
  let dLon := snd toCoords - snd fromCoords in
  let lat1 := fst fromCoords * PI / 180 in
  let lat2 := fst toCoords * PI / 180 in
  let dLonRad := dLon * PI / 180 in
  let y := sin dLonRad * cos lat2 in
  let x := cos lat1 * sin lat2 - sin lat1 * cos lat2 * cos dLonRad in
  let bearing := atan2 y x * 180 / PI in
  rem (bearing + 360) 360.

(** The ladder of tests of [determineSeatSideForSunrise]. *)
Definition sunriseSideOfBearing (bearing : R) : Side :=
  if Rleb 315 bearing || Rltb bearing 45 then SideRight
  else if Rleb 45 bearing && Rltb bearing 135 then SideRight
  else if Rleb 135 bearing && Rltb bearing 225 then SideLeft
  else if Rleb 225 bearing && Rltb bearing 315 then SideLeft
  else SideEither.

(** The ladder of tests of [determineSeatSideForSunset]. *)
Definition sunsetSideOfBearing (bearing : R) : Side :=
  if Rleb 315 bearing || Rltb bearing 45 then SideLeft
  else if Rleb 45 bearing && Rltb bearing 135 then SideLeft
  else if Rleb 135 bearing && Rltb bearing 225 then SideRight
  else if Rleb 225 bearing && Rltb bearing 315 then SideRight
  else SideEither.

(** Determine best seat side for sunrise viewing based on flight direction.
    The table is indexed with the codes as given; indexing [undefined]
    throws. *)
Definition determineSeatSideForSunrise (fromAirport toAirport : string)
  : result Side :=
  match FlightPath.lookup fromAirport, FlightPath.lookup toAirport with
  | Some fromCoords, Some toCoords =>
      Ok (sunriseSideOfBearing (generalFlightBearing fromCoords toCoords))
  | _, _ => Throw TypeError
  end.

(** Determine best seat side for sunset viewing based on flight direction. *)
Definition determineSeatSideForSunset (fromAirport toAirport : string)
  : result Side :=
  match FlightPath.lookup fromAirport, FlightPath.lookup toAirport with
  | Some fromCoords, Some toCoords =>
      Ok (sunsetSideOfBearing (generalFlightBearing fromCoords toCoords))
  | _, _ => Throw TypeError
  end.

(** [Math.round(minutes / 60 * 10) / 10]. *)
Definition hoursOf (minutes : num) : num :=
  lift1 (fun m => round (m / 60 * 10) / 10) minutes.

(** [e.timeString] of an event that may be null. *)
Definition timeStringOf (e : option SunEvent.t) : result string :=
  match e with
  | Some ev => Ok (SunEvent.timeString ev)
  | None => Throw TypeError
  end.

(** [new Date(d).getTime()]: NaN for an invalid Date. *)
Definition getTime (d : option Z) : num := option_map IZR d.

(** The night duration estimated when both events occur and no sample
    counted as night: the time between sunset and sunrise, or 25% of a
    default flight time of 6 hours. *)
Definition estimateNightMinutes (events : Events.t) : num :=
  match Events.sunset events, Events.sunrise events with
  | Some sunset, Some sunrise =>
      let nightDurationMs :=
        sub (getTime (SunEvent.time sunrise)) (getTime (SunEvent.time sunset)) in
      lift1 (fun ms => Rmax 0 (ms / (1000 * 60))) nightDurationMs
  | _, _ =>
      let estimatedFlightDuration := 6 in
      Some (round (estimatedFlightDuration * 60 * 0.25))
  end.

(** What the branches on sunrise and sunset leave behind: the lines
    pushed so far, the seat suggestion and the [events] object, which the
    first branch may have updated. *)
Module Draft.
Record t : Type := mk {
  summary : list SummaryLine;
  recommendations : list RecommendationLine;
  seatSuggestion : Side;
  events : Events.t
}.
End Draft.

Definition isRight (s : Side) : bool :=
  match s with SideRight => true | _ => false end.

(** The branch taken when both a sunrise and a sunset occur. *)
Definition bothBranch (events : Events.t) : result Draft.t :=
  sunriseString <- timeStringOf (Events.sunrise events) ;;
  sunsetString <- timeStringOf (Events.sunset events) ;;
  (* CRITICAL FIX: if both sunrise and sunset occur, there MUST be night
     periods; force willSeeNight to true and calculate night duration *)
  let events1 :=
    if negb (Events.willSeeNight events)
    then forceNight events (estimateNightMinutes events)
    else events in
  let nightLine :=
    if Events.willSeeNight events1
    then [AlsoNightHours (hoursOf (Events.nightMinutes events1))]
    else [] in
  Ok (Draft.mk
        ([BothSunriseAndSunset; SunriseAt sunriseString; SunsetAt sunsetString]
           ++ nightLine)
        [RareTreat] SideEither events1).

Definition sunriseBranch (events : Events.t) (fromAirport toAirport : string)
  : result Draft.t :=
  sunriseString <- timeStringOf (Events.sunrise events) ;;
  side <- determineSeatSideForSunrise fromAirport toAirport ;;
  Ok (Draft.mk [WillSeeSunrise sunriseString] [ChooseSunriseSide (isRight side)]
               side events).

Definition sunsetBranch (events : Events.t) (fromAirport toAirport : string)
  : result Draft.t :=
  sunsetString <- timeStringOf (Events.sunset events) ;;
  side <- determineSeatSideForSunset fromAirport toAirport ;;
  Ok (Draft.mk [WillSeeSunset sunsetString] [ChooseSunsetSide (isRight side)]
               side events).

(** Generate user-friendly flight sun report.  The flags and durations of
    the report are copied from [events] when the report object is created;
    the branches run afterwards. *)
Definition generateFlightSunReport (events : Events.t)
    (sunAnalysis : list SunCondition.t) (fromAirport toAirport : string)
  : result FlightSunAnalysis.t :=
  let willSeeSunrise := Events.willSeeSunrise events in
  let willSeeSunset := Events.willSeeSunset events in
  let reportWillSeeNight := Events.willSeeNight events in
  let reportNightDuration := Events.nightMinutes events in
  draft <-
    (if willSeeSunrise && willSeeSunset then bothBranch events
     else if willSeeSunrise then sunriseBranch events fromAirport toAirport
     else if willSeeSunset then sunsetBranch events fromAirport toAirport
     else Ok (Draft.mk [] [] SideEither events)) ;;
  let events1 := Draft.events draft in
  let night := Events.willSeeNight events1 in
  let summary1 :=
    Draft.summary draft ++
    (if night then [NightHours (hoursOf (Events.nightMinutes events1))] else []) in
  let recommendations1 :=
    Draft.recommendations draft ++ (if night then [NightPhotography] else []) in
  let summary2 :=
    summary1 ++
    (if Events.willSeeGoldenHour events1
     then [GoldenHours (hoursOf (Events.goldenHourMinutes events1))] else []) in
  let bright := negb willSeeSunrise && negb willSeeSunset && negb night in
  let summary3 := summary2 ++ (if bright then [BrightDaylight] else []) in
  let recommendations2 :=
    recommendations1 ++ (if bright then [ScenicLandscape] else []) in
  let recommendations3 :=
    recommendations2 ++
    (if willSeeSunrise || willSeeSunset then [BringCamera; EarlierCheckIn] else []) in
  Ok (FlightSunAnalysis.mk willSeeSunrise willSeeSunset reportWillSeeNight
        (Events.willSeeGoldenHour events)
        (Events.sunrise events) (Events.sunset events)
        summary3 recommendations3 (Draft.seatSuggestion draft) sunAnalysis
        (Some reportNightDuration) (Some (Events.dayMinutes events))).

(** [date.toISOString()]: the RangeError on an invalid Date. *)
Definition isoStringOf `{Env} (date : option Z) : result string :=
  match date with
  | Some t => Ok (toISOString t)
  | None => Throw InvalidTimeValue
  end.

(** Enhanced flight sun analysis that determines what sun conditions the
    user will experience during their flight.  [flightDuration] is in
    hours.  The departure and the arrival are logged with [toISOString]
    before the sampling: an invalid start or end Date throws there. *)
Definition analyzeFlightSunConditions `{Env} (fromAirport toAirport : string)
    (departureDate departureTime : string) (flightDuration : R)
  : result FlightSunAnalysis.t :=
  match FlightPath.lookup fromAirport, FlightPath.lookup toAirport with
  | Some fromCoords, Some toCoords =>
      let startTime :=
        parseDate (departureDate ++ "T" ++ departureTime ++ ":00Z")%string in
      let endTime :=
        match startTime with
        | Some st => mkDate (IZR st + flightDuration * 60 * 60 * 1000)
        | None => None
        end in
      departure <- isoStringOf startTime ;;
      arrival <- isoStringOf endTime ;;
      let samplingPoints :=
        generateFlightSamplingPoints fromCoords toCoords startTime flightDuration in
      let sunAnalysis := analyzeSunConditions samplingPoints in
      let events := detectSunEvents sunAnalysis in
      generateFlightSunReport events sunAnalysis fromAirport toAirport
  | _, _ => Throw (AirportNotFound fromAirport toAirport)
  end.

End EnhancedSunAnalysis.

(* ================================================================== *)
(** ** routeHandler.ts *)

Module RouteHandler.
Import JsNumber Js Host.

(** The query of a request: each parameter is absent or a string (a
    parameter given several times, which the framework turns into an array,
    is left out). *)
Record Query : Type := mkQuery {
  from : option string;
  to : option string;
  depart : option string;
  duration : option string
}.

Record Body : Type := mkBody {
  path : list FlightPath.Waypoint;
  sunPositions : list SunPositionService.SunPosition;
  recommendation : SeatRecommendation.Recommendation;
  enhancedAnalysis : EnhancedSunAnalysis.FlightSunAnalysis.t
}.

Inductive Response : Type :=
| MissingParameters          (* 400, 'Missing required parameters: from, to, depart' *)
| InvalidDepartureTime       (* 400, 'Invalid departure time format. ...' *)
| Json (body : Body)         (* 200 *)
| InternalServerError (e : Error).   (* 500, with the message of the error *)

(** A query parameter is truthy when it is present and not empty. *)
Definition truthy (p : option string) : option string :=
  match p with
  | Some EmptyString => None
  | other => other
  end.

(** The part of [s] before the first ['T'], and what follows it. *)
Fixpoint splitT (s : string) : string * string :=
  match s with
  | EmptyString => (EmptyString, EmptyString)
  | String c s' =>
      if Ascii.eqb c "T"%char then (EmptyString, s')
      else let (a, b) := splitT s' in (String c a, b)
  end.

(** The payload returned when no enhanced analysis is available. *)
Definition fallbackAnalysis : EnhancedSunAnalysis.FlightSunAnalysis.t :=
  EnhancedSunAnalysis.FlightSunAnalysis.mk false false false false None None
    [EnhancedSunAnalysis.RequiresDuration] [] EnhancedSunAnalysis.SideEither []
    None None.

(** The enhanced analysis of the handler: run when the duration is a
    number other than 0 and NaN; an analysis that throws is logged and
    dropped.  An infinite duration is truthy, but the arrival is then an
    invalid Date and the analysis throws: the outcome is the one of NaN. *)
Definition enhancedAnalysisOf `{Env} (fromAirport toAirport : string)
    (departureTime : Z) (durationParam : option string)
  : option EnhancedSunAnalysis.FlightSunAnalysis.t :=
  let flightDuration :=
    match truthy durationParam with
    | Some s => parseFloat s
    | None => NaN
    end in
  match flightDuration with
  | Some d =>
      if Req_dec_T d 0 then None
      else
        let iso := toISOString departureTime in
        let departureDate := fst (splitT iso) in
        let departureTimeStr := substring 0 5 (fst (splitT (snd (splitT iso)))) in
        match EnhancedSunAnalysis.analyzeFlightSunConditions
                fromAirport toAirport departureDate departureTimeStr d with
        | Ok analysis => Some analysis
        | Throw _ => None
        end
  | None => None
  end.

Definition routeHandler `{Env} (query : Query) : Response :=
  match truthy (from query), truthy (to query), truthy (depart query) with
  | Some fromAirport, Some toAirport, Some departString =>
      match parseDate departString with
      | None => InvalidDepartureTime
      | Some departureTime =>
          match FlightPath.calculateFlightPath fromAirport toAirport departureTime with
          | Throw e => InternalServerError e
          | Ok flightPath =>
              let sunPositions :=
                SunPositionService.calculateSunPositions flightPath departureTime in
              let recommendation :=
                SeatRecommendation.getSeatRecommendation sunPositions flightPath in
              let enhanced :=
                enhancedAnalysisOf fromAirport toAirport departureTime
                                   (duration query) in
              Json (mkBody flightPath sunPositions recommendation
                      (match enhanced with
                       | Some analysis => analysis
                       | None => fallbackAnalysis
                       end))
          end
      end
  | _, _, _ => MissingParameters
  end.

End RouteHandler.

(* ================================================================== *)
(** ** App.tsx: the distance and the seat helpers of the result page *)

Module App.
Import JsNumber.
Import EnhancedSunAnalysis.

(** Airport coordinates database of the frontend. *)
Definition AIRPORTS : list (string * FlightPath.Coords) :=
  [ ("DEL"%string, (28.5562, 77.1000));
    ("BOM"%string, (19.0896, 72.8656));
    ("BLR"%string, (12.9716, 77.5946));
    ("MAA"%string, (12.9941, 80.1709));
    ("CCU"%string, (22.6547, 88.4467));
    ("HYD"%string, (17.2403, 78.4294));
    ("COK"%string, (9.9312, 76.2673));
    ("GOI"%string, (15.3808, 73.8314));
    ("AMD"%string, (23.0725, 72.6347));
    ("PNQ"%string, (18.5679, 73.9143));
    ("BHO"%string, (23.2599, 77.4126));
    ("JAI"%string, (26.9124, 75.7873));
    ("LKO"%string, (26.7606, 80.8843));
    ("JFK"%string, (40.6413, -73.7781));
    ("LHR"%string, (51.4700, -0.4543));
    ("NRT"%string, (35.7720, 140.3929));
    ("LAX"%string, (33.9425, -118.4081));
    ("DXB"%string, (25.2532, 55.3657));
    ("SIN"%string, (1.3644, 103.9915));
    ("SYD"%string, (-33.9461, 151.1772));
    ("CDG"%string, (49.0097, 2.5479));
    ("FRA"%string, (50.0379, 8.5622));
    ("HKG"%string, (22.3080, 113.9185));
    ("ICN"%string, (37.4602, 126.4407));
    ("BKK"%string, (13.6900, 100.7501));
    ("DOH"%string, (25.2731, 51.6080));
    ("IST"%string, (41.2619, 28.7414));
    ("MAD"%string, (40.4719, -3.5626)) ].

Definition lookup (code : string) : option FlightPath.Coords :=
  FlightPath.lookupIn AIRPORTS code.

(** Distance calculation function (great circle distance).  The square
    roots are NaN when [a] leaves [0, 1]. *)
Definition calculateDistance (lat1 lon1 lat2 lon2 : R) : num :=
  let earthRadius := 6371 in
  let dLat := (lat2 - lat1) * PI / 180 in
  let dLon := (lon2 - lon1) * PI / 180 in
  let a :=
    sin (dLat / 2) * sin (dLat / 2) +
    cos (lat1 * PI / 180) * cos (lat2 * PI / 180) *
    sin (dLon / 2) * sin (dLon / 2) in
  if Rle_dec 0 a then
    if Rle_dec a 1 then
      let c := 2 * atan2 (sqrt a) (sqrt (1 - a)) in
      Some (earthRadius * c)
    else NaN
  else NaN.

(** The flight bearing that [determineSeatSuggestion] and
    [getSideSpecificViews] compute from the two table entries. *)
Definition flightBearingOf (fromCoords toCoords : FlightPath.Coords) : R :=
  let lat1Rad := fst fromCoords * PI / 180 in
  let lat2Rad := fst toCoords * PI / 180 in
  let dLon := (snd toCoords - snd fromCoords) * PI / 180 in
  let y := sin dLon * cos lat2Rad in
  let x := cos lat1Rad * sin lat2Rad - sin lat1Rad * cos lat2Rad * cos dLon in
  let flightBearing := atan2 y x * 180 / PI in
  rem (flightBearing + 360) 360.

(** The position of the sun relative to the flight direction: the sun is
    at [sunBearing], 90 for a sunrise and 270 for a sunset. *)
Definition relativeSunPosition (sunBearing flightBearing : R) : R :=
  rem (sunBearing - flightBearing + 360) 360.

(** Determine seat suggestion based on proper bearing calculation. *)
Definition determineSeatSuggestion (fromAirport toAirport : string)
    (willSeeSunrise willSeeSunset : bool) : Side :=
  match lookup fromAirport, lookup toAirport with
  | Some fromCoords, Some toCoords =>
      let flightBearing := flightBearingOf fromCoords toCoords in
      if willSeeSunrise then
        let relative := relativeSunPosition 90 flightBearing in
        if Rleb 270 relative || Rleb relative 90 then SideLeft else SideRight
      else if willSeeSunset then
        let relative := relativeSunPosition 270 flightBearing in
        if Rleb 270 relative || Rleb relative 90 then SideLeft else SideRight
      else SideEither
  | _, _ => SideEither
  end.

(** The side of a seat card. *)
Inductive CardSide : Type := CardLeft | CardRight.

(** The flags of the analysis that the seat cards read. *)
Record Flags : Type := mkFlags {
  willSeeSunrise : bool;
  willSeeSunset : bool;
  willSeeNight : bool
}.

Record Views : Type := mkViews {
  sunrise : bool;
  sunset : bool;
  night : bool
}.

(** Whether the sun at [relative] is visible from the seats of [side]. *)
Definition visibleFrom (side : CardSide) (relative : R) : bool :=
  match side with
  | CardLeft => Rleb 270 relative || Rleb relative 90
  | CardRight => Rltb 90 relative && Rltb relative 270
  end.

(** Determine side-specific views for seat cards; [None] is a missing
    analysis. *)
Definition getSideSpecificViews (fromAirport toAirport : string)
    (side : CardSide) (enhancedAnalysis : option Flags) : Views :=
  match enhancedAnalysis with
  | None => mkViews false false false
  | Some analysis =>
      match lookup fromAirport, lookup toAirport with
      | Some fromCoords, Some toCoords =>
          let flightBearing := flightBearingOf fromCoords toCoords in
          let sunriseVisible :=
            if willSeeSunrise analysis
            then visibleFrom side (relativeSunPosition 90 flightBearing)
            else false in
          let sunsetVisible :=
            if willSeeSunset analysis
            then visibleFrom side (relativeSunPosition 270 flightBearing)
            else false in
          (* CRITICAL FIX: if both sunrise and sunset are detected, there
             MUST be night periods *)
          let nightVisible :=
            if willSeeSunrise analysis && willSeeSunset analysis
               && negb (willSeeNight analysis)
            then true else willSeeNight analysis in
          mkViews sunriseVisible sunsetVisible nightVisible
      | _, _ =>
          mkViews (willSeeSunrise analysis) (willSeeSunset analysis)
                  (willSeeNight analysis)
      end
  end.

End App.

(* ================================================================== *)
(** * Properties of the services *)

(** ** Comparisons *)

Module NumFacts.
Import JsNumber.

Lemma Rltb_true (x y : R) : Rltb x y = true <-> x < y.
Proof. unfold Rltb; destruct (Rlt_dec x y); split; intros; try discriminate; tauto. Qed.

Lemma Rltb_false (x y : R) : Rltb x y = false <-> y <= x.
Proof. unfold Rltb; destruct (Rlt_dec x y); split; intros; try discriminate; lra. Qed.

Lemma Rleb_true (x y : R) : Rleb x y = true <-> x <= y.
Proof. unfold Rleb; destruct (Rle_dec x y); split; intros; try discriminate; tauto. Qed.

Lemma Rleb_false (x y : R) : Rleb x y = false <-> y < x.
Proof. unfold Rleb; destruct (Rle_dec x y); split; intros; try discriminate; lra. Qed.

Lemma le_Some_inv (a : num) (y : R) : le a (Some y) = true -> exists x, a = Some x /\ x <= y.
Proof.
  destruct a as [x|]; simpl; intros Hle; [|discriminate].
  exists x; split; [reflexivity | now apply Rleb_true].
Qed.

End NumFacts.

(** Decides the comparisons of real constants that occur in a goal. *)
Ltac rdec :=
  repeat match goal with
  | |- context [Rlt_dec ?a ?b] => destruct (Rlt_dec a b); try lra
  | |- context [Rle_dec ?a ?b] => destruct (Rle_dec a b); try lra
  | |- context [Req_dec_T ?a ?b] => destruct (Req_dec_T a b); try lra
  end.

(* ------------------------------------------------------------------ *)
(** ** The elevation classifier *)

Module ClassifierFacts.
Import JsNumber EnhancedSunAnalysis.

(** C8. The classifier is a total function of the elevation that splits the
    real line, and so [-90, 90], into four contiguous ranges: NIGHT exactly
    below 0, TWILIGHT exactly on [0, 6), GOLDEN_HOUR exactly on [6, 10) and
    DAYLIGHT exactly from 10 on; the condition changes at 0, 6 and 10 only. *)
Theorem classifySunCondition_partition (e : R) :
  (classifySunCondition (Some e) = NIGHT <-> e < 0) /\
  (classifySunCondition (Some e) = TWILIGHT <-> 0 <= e < 6) /\
  (classifySunCondition (Some e) = GOLDEN_HOUR <-> 6 <= e < 10) /\
  (classifySunCondition (Some e) = DAYLIGHT <-> 10 <= e).
Proof.
  unfold classifySunCondition, lt, Rltb.
  destruct (Rlt_dec e 0); [|destruct (Rlt_dec e 6); [|destruct (Rlt_dec e 10)]];
    repeat split; intros; try discriminate; try lra.
Qed.

(** An elevation that is NaN fails every test and is classified DAYLIGHT. *)
Lemma classifySunCondition_NaN : classifySunCondition NaN = DAYLIGHT.
Proof. reflexivity. Qed.

(** A sample at or below the horizon is NIGHT or TWILIGHT. *)
Lemma below_horizon_is_night (elevation : num) :
  le elevation (Some 0) = true ->
  classifySunCondition elevation = NIGHT \/ classifySunCondition elevation = TWILIGHT.
Proof.
  intros Hle. apply NumFacts.le_Some_inv in Hle as (e & -> & He).
  unfold classifySunCondition, lt, Rltb.
  destruct (Rlt_dec e 0); [now left|].
  destruct (Rlt_dec e 6); [now right | lra].
Qed.

End ClassifierFacts.

(* ------------------------------------------------------------------ *)
(** ** Event detection *)

Module EventFacts.
Import JsNumber Host EnhancedSunAnalysis.

(** No adjacent pair of [prev :: rest] is a crossing. *)
Fixpoint noCrossing (cross : SunCondition.t -> SunCondition.t -> bool)
    (prev : SunCondition.t) (rest : list SunCondition.t) : bool :=
  match rest with
  | [] => true
  | current :: rest' => negb (cross prev current) && noCrossing cross current rest'
  end.

(** The number of adjacent pairs of [prev :: rest] that are crossings. *)
Fixpoint countCrossings (cross : SunCondition.t -> SunCondition.t -> bool)
    (prev : SunCondition.t) (rest : list SunCondition.t) : nat :=
  match rest with
  | [] => 0
  | current :: rest' =>
      (if cross prev current then 1 else 0) + countCrossings cross current rest'
  end.

(** A sample of the timeline with the given elevation and progress. *)
Definition sampleAt (elevation progress : R) : SunCondition.t :=
  SunCondition.mk None EmptyString NaN NaN (Some elevation) NaN
                  (classifySunCondition (Some elevation)) (Some progress).

(** A timeline on which the sun rises three times: after the first, the
    third and the fifth sample. *)
Definition threeSunrises : list SunCondition.t :=
  [ sampleAt (-1) 0; sampleAt 1 20; sampleAt (-1) 40;
    sampleAt 1 60; sampleAt (-1) 80; sampleAt 1 100 ].

Section WithHost.
Context `{Env}.

Lemma countCondition_sunrise (events : Events.t) (current : SunCondition.t) :
  Events.sunrise (countCondition events current) = Events.sunrise events /\
  Events.willSeeSunrise (countCondition events current) = Events.willSeeSunrise events /\
  Events.sunset (countCondition events current) = Events.sunset events /\
  Events.willSeeSunset (countCondition events current) = Events.willSeeSunset events.
Proof.
  unfold countCondition; destruct (SunCondition.condition current); simpl; auto.
Qed.

Lemma detectTransitions_sunrise (events : Events.t) (prev current : SunCondition.t) :
  Events.sunrise (detectTransitions events prev current) =
    (if isSunriseCrossing prev current then Some (eventAt current)
     else Events.sunrise events) /\
  Events.willSeeSunrise (detectTransitions events prev current) =
    (isSunriseCrossing prev current || Events.willSeeSunrise events).
Proof.
  unfold detectTransitions.
  destruct (isSunriseCrossing prev current), (isSunsetCrossing prev current);
    simpl; auto.
Qed.

Lemma detectTransitions_sunset (events : Events.t) (prev current : SunCondition.t) :
  Events.sunset (detectTransitions events prev current) =
    (if isSunsetCrossing prev current then Some (eventAt current)
     else Events.sunset events) /\
  Events.willSeeSunset (detectTransitions events prev current) =
    (isSunsetCrossing prev current || Events.willSeeSunset events).
Proof.
  unfold detectTransitions.
  destruct (isSunriseCrossing prev current), (isSunsetCrossing prev current);
    simpl; auto.
Qed.

(** One iteration of the loop at [i > 0], seen from the sunrise slot. *)
Lemma step_sunrise (events : Events.t) (prev current : SunCondition.t) :
  let events' := detectTransitions (countCondition events current) prev current in
  Events.sunrise events' =
    (if isSunriseCrossing prev current then Some (eventAt current)
     else Events.sunrise events) /\
  Events.willSeeSunrise events' =
    (isSunriseCrossing prev current || Events.willSeeSunrise events).
Proof.
  cbv zeta.
  destruct (detectTransitions_sunrise (countCondition events current) prev current)
    as [-> ->].
  destruct (countCondition_sunrise events current) as (-> & -> & _).
  auto.
Qed.

Lemma step_sunset (events : Events.t) (prev current : SunCondition.t) :
  let events' := detectTransitions (countCondition events current) prev current in
  Events.sunset events' =
    (if isSunsetCrossing prev current then Some (eventAt current)
     else Events.sunset events) /\
  Events.willSeeSunset events' =
    (isSunsetCrossing prev current || Events.willSeeSunset events).
Proof.
  cbv zeta.
  destruct (detectTransitions_sunset (countCondition events current) prev current)
    as [-> ->].
  destruct (countCondition_sunrise events current) as (_ & _ & -> & ->).
  auto.
Qed.

(** Without a crossing the loop leaves the recorded events alone. *)
Lemma detectLoop_noCrossing_sunrise (rest : list SunCondition.t) :
  forall (events : Events.t) (prev : SunCondition.t),
    noCrossing isSunriseCrossing prev rest = true ->
    Events.sunrise (detectLoop events (Some prev) rest) = Events.sunrise events /\
    Events.willSeeSunrise (detectLoop events (Some prev) rest)
      = Events.willSeeSunrise events.
Proof.
  induction rest as [|current rest IH]; intros events prev Hno; simpl in *.
  - auto.
  - apply andb_prop in Hno as [Hc Hrest]. apply negb_true_iff in Hc.
    destruct (IH (detectTransitions (countCondition events current) prev current)
                 current Hrest) as [-> ->].
    destruct (step_sunrise events prev current) as [-> ->].
    now rewrite Hc.
Qed.

Lemma detectLoop_noCrossing_sunset (rest : list SunCondition.t) :
  forall (events : Events.t) (prev : SunCondition.t),
    noCrossing isSunsetCrossing prev rest = true ->
    Events.sunset (detectLoop events (Some prev) rest) = Events.sunset events /\
    Events.willSeeSunset (detectLoop events (Some prev) rest)
      = Events.willSeeSunset events.
Proof.
  induction rest as [|current rest IH]; intros events prev Hno; simpl in *.
  - auto.
  - apply andb_prop in Hno as [Hc Hrest]. apply negb_true_iff in Hc.
    destruct (IH (detectTransitions (countCondition events current) prev current)
                 current Hrest) as [-> ->].
    destruct (step_sunset events prev current) as [-> ->].
    now rewrite Hc.
Qed.

(** The loop started anywhere: the last crossing of the list wins. *)
Lemma detectLoop_last_sunrise (before after : list SunCondition.t)
    (prev current : SunCondition.t) :
  forall (events : Events.t) (first : option SunCondition.t),
    isSunriseCrossing prev current = true ->
    noCrossing isSunriseCrossing current after = true ->
    Events.sunrise (detectLoop events first (before ++ prev :: current :: after))
      = Some (eventAt current) /\
    Events.willSeeSunrise (detectLoop events first (before ++ prev :: current :: after))
      = true.
Proof.
  induction before as [|a before IH]; intros events first Hc Hno.
  - cbn [app detectLoop].
    match goal with
    | |- Events.sunrise (detectLoop ?e _ _) = _ /\ _ =>
        destruct (detectLoop_noCrossing_sunrise after e current Hno) as [-> ->]
    end.
    match goal with
    | |- Events.sunrise (detectTransitions (countCondition ?e _) _ _) = _ /\ _ =>
        destruct (step_sunrise e prev current) as [-> ->]
    end.
    now rewrite Hc.
  - cbn [app detectLoop]. now apply IH.
Qed.

Lemma detectLoop_last_sunset (before after : list SunCondition.t)
    (prev current : SunCondition.t) :
  forall (events : Events.t) (first : option SunCondition.t),
    isSunsetCrossing prev current = true ->
    noCrossing isSunsetCrossing current after = true ->
    Events.sunset (detectLoop events first (before ++ prev :: current :: after))
      = Some (eventAt current) /\
    Events.willSeeSunset (detectLoop events first (before ++ prev :: current :: after))
      = true.
Proof.
  induction before as [|a before IH]; intros events first Hc Hno.
  - cbn [app detectLoop].
    match goal with
    | |- Events.sunset (detectLoop ?e _ _) = _ /\ _ =>
        destruct (detectLoop_noCrossing_sunset after e current Hno) as [-> ->]
    end.
    match goal with
    | |- Events.sunset (detectTransitions (countCondition ?e _) _ _) = _ /\ _ =>
        destruct (step_sunset e prev current) as [-> ->]
    end.
    now rewrite Hc.
  - cbn [app detectLoop]. now apply IH.
Qed.

(** A timeline without a sunrise crossing records no sunrise. *)
Lemma detectSunEvents_no_sunrise (first : SunCondition.t)
    (rest : list SunCondition.t) :
  noCrossing isSunriseCrossing first rest = true ->
  Events.sunrise (detectSunEvents (first :: rest)) = None /\
  Events.willSeeSunrise (detectSunEvents (first :: rest)) = false.
Proof.
  intros Hno. unfold detectSunEvents. cbn [detectLoop].
  destruct (detectLoop_noCrossing_sunrise rest (countCondition initialEvents first)
              first Hno) as [-> ->].
  destruct (countCondition_sunrise initialEvents first) as (-> & -> & _).
  auto.
Qed.

(** X1.  [detectSunEvents] keeps one slot for the sunrise and one for the
    sunset, so at most one event of each kind is returned; the slot is
    overwritten at every crossing, so the event returned is the one of the
    LAST index where the elevation crosses from [<= 0] to [> 0] (for the
    sunset: from [> 0] to [<= 0]), earlier crossings are the ones that are
    dropped. *)
Theorem detectSunEvents_keeps_last_crossing
    (before after : list SunCondition.t) (prev current : SunCondition.t)
    (sunAnalysis : list SunCondition.t) :
  sunAnalysis = before ++ prev :: current :: after ->
  (isSunriseCrossing prev current = true ->
   noCrossing isSunriseCrossing current after = true ->
   Events.sunrise (detectSunEvents sunAnalysis) = Some (eventAt current) /\
   Events.willSeeSunrise (detectSunEvents sunAnalysis) = true) /\
  (isSunsetCrossing prev current = true ->
   noCrossing isSunsetCrossing current after = true ->
   Events.sunset (detectSunEvents sunAnalysis) = Some (eventAt current) /\
   Events.willSeeSunset (detectSunEvents sunAnalysis) = true).
Proof.
  intros ->; unfold detectSunEvents; split; intros Hc Hno.
  - now apply detectLoop_last_sunrise.
  - now apply detectLoop_last_sunset.
Qed.

End WithHost.

(** A host that formats nothing and knows no date; the date and number
    formats play no part in the detection of events. *)
Definition silentHost : Env :=
  {| getPosition := fun _ _ _ => (0, 0);
     toLocaleTimeString := fun _ => EmptyString;
     toFixed2 := fun _ => EmptyString;
     parseDate := fun _ => None;
     parseFloat := fun _ => None;
     toISOString := fun _ => EmptyString |}.

Lemma threeSunrises_crossings :
  countCrossings isSunriseCrossing (sampleAt (-1) 0) (tl threeSunrises) = 3%nat.
Proof.
  unfold threeSunrises, countCrossings, isSunriseCrossing, tl, sampleAt; simpl.
  unfold gt, le, lt, Rleb, Rltb. rdec. reflexivity.
Qed.

Lemma sunrise_crossing_example (p q : R) :
  isSunriseCrossing (sampleAt (-1) p) (sampleAt 1 q) = true.
Proof.
  unfold isSunriseCrossing, sampleAt; simpl. unfold gt, le, lt, Rleb, Rltb.
  rdec; reflexivity.
Qed.

(** C3, at the failing input.  On a timeline with three sunrise crossings,
    the first at index 1 (progress 20) and the last at index 5 (progress
    100), one sunrise is returned, and it is the one of index 5, not the
    first: the slot is assigned without a test for an earlier event. *)
Lemma detectSunEvents_three_sunrises_returns_last :
  countCrossings isSunriseCrossing (sampleAt (-1) 0) (tl threeSunrises) = 3%nat /\
  isSunriseCrossing (sampleAt (-1) 0) (sampleAt 1 20) = true /\
  Events.sunrise (@detectSunEvents silentHost threeSunrises)
    = Some (@eventAt silentHost (sampleAt 1 100)) /\
  Events.sunrise (@detectSunEvents silentHost threeSunrises)
    <> Some (@eventAt silentHost (sampleAt 1 20)).
Proof.
  assert (Hlast : Events.sunrise (@detectSunEvents silentHost threeSunrises)
                  = Some (@eventAt silentHost (sampleAt 1 100))).
  { apply (@detectLoop_last_sunrise silentHost
             [sampleAt (-1) 0; sampleAt 1 20; sampleAt (-1) 40; sampleAt 1 60]
             [] (sampleAt (-1) 80) (sampleAt 1 100)).
    - apply sunrise_crossing_example.
    - reflexivity. }
  repeat split.
  - apply threeSunrises_crossings.
  - apply sunrise_crossing_example.
  - exact Hlast.
  - rewrite Hlast. unfold eventAt, sampleAt; simpl. intros Heq.
    injection Heq as Heq. lra.
Qed.

(** The last crossing of the timeline with three sunrises. *)
Lemma detectSunEvents_keeps_last_crossing_witness :
  Events.sunrise (@detectSunEvents silentHost threeSunrises)
    = Some (@eventAt silentHost (sampleAt 1 100)) /\
  Events.willSeeSunrise (@detectSunEvents silentHost threeSunrises) = true.
Proof.
  apply (proj1 (@detectSunEvents_keeps_last_crossing silentHost
                  [sampleAt (-1) 0; sampleAt 1 20; sampleAt (-1) 40; sampleAt 1 60]
                  [] (sampleAt (-1) 80) (sampleAt 1 100) threeSunrises eq_refl)).
  - apply sunrise_crossing_example.
  - reflexivity.
Defined.

End EventFacts.

(* ------------------------------------------------------------------ *)
(** ** The report builder *)

Module ReportFacts.
Import JsNumber Js Host EnhancedSunAnalysis.

(** Whatever branch runs, the report carries the flags that [events] had
    when the report object was created. *)
Lemma generateFlightSunReport_flags (events : Events.t)
    (sunAnalysis : list SunCondition.t) (fromAirport toAirport : string)
    (report : FlightSunAnalysis.t) :
  generateFlightSunReport events sunAnalysis fromAirport toAirport = Ok report ->
  FlightSunAnalysis.willSeeSunrise report = Events.willSeeSunrise events /\
  FlightSunAnalysis.willSeeSunset report = Events.willSeeSunset events /\
  FlightSunAnalysis.willSeeNight report = Events.willSeeNight events /\
  FlightSunAnalysis.nightDuration report = Some (Events.nightMinutes events).
Proof.
  unfold generateFlightSunReport.
  match goal with
  | |- bind ?m _ = _ -> _ => destruct m as [draft|e]
  end; simpl; [|discriminate].
  intros Heq; injection Heq as <-; simpl; auto.
Qed.

(** An event at the given instant. *)
Definition eventAtTime (t : Z) : SunEvent.t :=
  SunEvent.mk (Some t) EmptyString EmptyString NaN NaN NaN.

(** Events with a sunset after 15 minutes and a sunrise after 30 minutes,
    three samples counted as day and none as night. *)
Definition sunsetThenSunrise : Events.t :=
  Events.mk (Some (eventAtTime 1800000)) (Some (eventAtTime 900000))
            false true true false (Some 0) (Some 45) (Some 0).

(** The repair of the report builder does not reach the report.  Given
    events with a sunrise and a sunset and no sample counted as night, the
    night is forced on [events] after the flag of the report was copied:
    the summary announces 0.3 hours of night flying twice and the report
    still says [willSeeNight = false].  The timeline of an analysis never
    yields such events ([detectSunEvents_sunrise_implies_night] below), so
    the repair does not run there. *)
Lemma generateFlightSunReport_both_events_no_night :
  exists report,
    generateFlightSunReport sunsetThenSunrise [] "DEL" "JAI" = Ok report /\
    FlightSunAnalysis.willSeeSunrise report = true /\
    FlightSunAnalysis.willSeeSunset report = true /\
    FlightSunAnalysis.willSeeNight report = false /\
    FlightSunAnalysis.summary report =
      [ BothSunriseAndSunset; SunriseAt EmptyString; SunsetAt EmptyString;
        AlsoNightHours (hoursOf (Some (Rmax 0 ((1800000 - 900000) / (1000 * 60)))));
        NightHours (hoursOf (Some (Rmax 0 ((1800000 - 900000) / (1000 * 60))))) ].
Proof.
  eexists; repeat split.
Qed.

Section WithHost.
Context `{Env}.

Lemma countCondition_night (events : Events.t) (current : SunCondition.t) :
  Events.willSeeNight (countCondition events current) =
    (match SunCondition.condition current with
     | NIGHT | TWILIGHT => true
     | _ => Events.willSeeNight events
     end).
Proof. unfold countCondition; destruct (SunCondition.condition current); reflexivity. Qed.

Lemma detectTransitions_night (events : Events.t) (prev current : SunCondition.t) :
  Events.willSeeNight (detectTransitions events prev current)
    = Events.willSeeNight events.
Proof.
  unfold detectTransitions.
  destruct (isSunriseCrossing prev current), (isSunsetCrossing prev current);
    reflexivity.
Qed.

(** Every sample carries the classification of its own elevation. *)
Definition classified (sample : SunCondition.t) : Prop :=
  SunCondition.condition sample = classifySunCondition (SunCondition.sunElevation sample).

Lemma analyzeSunConditions_classified (samplingPoints : list SamplingPoint.t) :
  Forall classified (analyzeSunConditions samplingPoints).
Proof.
  unfold analyzeSunConditions. apply Forall_forall. intros sample Hin.
  apply in_map_iff in Hin as (point & <- & _). reflexivity.
Qed.

(** The invariant of the loop on classified samples: a sunrise was seen
    only if a night sample was counted, and so was the previous sample
    when it is at or below the horizon. *)
Lemma detectLoop_sunrise_needs_night (rest : list SunCondition.t) :
  forall (events : Events.t) (prev : option SunCondition.t),
    Forall classified rest ->
    (Events.willSeeSunrise events = true -> Events.willSeeNight events = true) ->
    (forall p, prev = Some p -> le (SunCondition.sunElevation p) (Some 0) = true ->
               Events.willSeeNight events = true) ->
    Events.willSeeSunrise (detectLoop events prev rest) = true ->
    Events.willSeeNight (detectLoop events prev rest) = true.
Proof.
  induction rest as [|current rest IH]; intros events prev Hcl Hinv Hprev; simpl.
  - exact Hinv.
  - inversion Hcl as [|? ? Hc Hrest]; subst.
    apply IH; [exact Hrest | |].
    + destruct prev as [p|].
      * rewrite detectTransitions_night, countCondition_night.
        destruct (EventFacts.step_sunrise events p current) as [_ ->].
        intros Hw.
        assert (Hn : Events.willSeeNight events = true).
        { apply orb_prop in Hw as [Hx|Hw]; [|exact (Hinv Hw)].
          apply (Hprev p eq_refl).
          unfold isSunriseCrossing in Hx. now apply andb_prop in Hx as [Hx _]. }
        rewrite Hn. now destruct (SunCondition.condition current).
      * rewrite countCondition_night.
        destruct (EventFacts.countCondition_sunrise events current) as (_ & -> & _).
        intros Hw. rewrite (Hinv Hw).
        now destruct (SunCondition.condition current).
    + intros p [= <-] Hle.
      assert (Hn : Events.willSeeNight (countCondition events current) = true).
      { rewrite countCondition_night. red in Hc. rewrite Hc.
        destruct (ClassifierFacts.below_horizon_is_night _ Hle) as [-> | ->];
          reflexivity. }
      destruct prev as [q|]; [rewrite detectTransitions_night|]; exact Hn.
Qed.

(** On the timeline that [analyzeSunConditions] builds, a sunrise is only
    detected after a sample that counted as night: the case that the
    report builder means to repair does not arise there. *)
Lemma detectSunEvents_sunrise_implies_night (samplingPoints : list SamplingPoint.t) :
  Events.willSeeSunrise (detectSunEvents (analyzeSunConditions samplingPoints)) = true ->
  Events.willSeeNight (detectSunEvents (analyzeSunConditions samplingPoints)) = true.
Proof.
  unfold detectSunEvents. apply detectLoop_sunrise_needs_night.
  - apply analyzeSunConditions_classified.
  - simpl; discriminate.
  - intros p Hp; discriminate.
Qed.

(** The timeline that the analysis classifies: the 15-minute sampling of
    the route from the start. *)
Definition timelineOf (fromCoords toCoords : FlightPath.Coords) (startTime : Z)
    (flightDuration : R) : list SunCondition.t :=
  analyzeSunConditions
    (generateFlightSamplingPoints fromCoords toCoords (Some startTime) flightDuration).

(** The arrival is a Date: the start plus the duration stays within the
    range of the time values. *)
Definition arrivalInRange (startTime : Z) (flightDuration : R) : Prop :=
  Rabs (IZR startTime + flightDuration * 60 * 60 * 1000) <= IZR maxTime.

(** For two airports of the table, a start that is a date and an arrival
    within the range, the analysis is the report built from the events of
    the timeline. *)
Lemma analyzeFlightSunConditions_runs
    (fromAirport toAirport departureDate departureTime : string)
    (flightDuration : R) (fromCoords toCoords : FlightPath.Coords) (startTime : Z) :
  FlightPath.lookup fromAirport = Some fromCoords ->
  FlightPath.lookup toAirport = Some toCoords ->
  parseDate (departureDate ++ "T" ++ departureTime ++ ":00Z")%string = Some startTime ->
  arrivalInRange startTime flightDuration ->
  analyzeFlightSunConditions fromAirport toAirport departureDate departureTime
                             flightDuration
  = generateFlightSunReport
      (detectSunEvents (timelineOf fromCoords toCoords startTime flightDuration))
      (timelineOf fromCoords toCoords startTime flightDuration)
      fromAirport toAirport.
Proof.
  intros Hfrom Hto Hstart Hend.
  unfold analyzeFlightSunConditions. rewrite Hfrom, Hto, Hstart.
  unfold mkDate. destruct (Rle_dec _ _) as [_|Hout]; [reflexivity|].
  now elim Hout.
Qed.

(** An invalid start or an arrival out of the range makes the analysis
    throw the RangeError of [toISOString]. *)
Lemma analyzeFlightSunConditions_invalid_date
    (fromAirport toAirport departureDate departureTime : string)
    (flightDuration : R) (fromCoords toCoords : FlightPath.Coords) :
  FlightPath.lookup fromAirport = Some fromCoords ->
  FlightPath.lookup toAirport = Some toCoords ->
  parseDate (departureDate ++ "T" ++ departureTime ++ ":00Z")%string = None \/
  (exists startTime,
     parseDate (departureDate ++ "T" ++ departureTime ++ ":00Z")%string = Some startTime /\
     ~ arrivalInRange startTime flightDuration) ->
  analyzeFlightSunConditions fromAirport toAirport departureDate departureTime
                             flightDuration = Throw InvalidTimeValue.
Proof.
  intros Hfrom Hto Hdate.
  unfold analyzeFlightSunConditions. rewrite Hfrom, Hto.
  destruct Hdate as [-> | (startTime & -> & Hout)]; [reflexivity|].
  unfold mkDate. destruct (Rle_dec _ _) as [Hin|_]; [now elim Hout | reflexivity].
Qed.

(** A report comes from two airports of the table, a start that is a date
    and an arrival within the range. *)
Lemma analyzeFlightSunConditions_inv
    (fromAirport toAirport departureDate departureTime : string)
    (flightDuration : R) (report : FlightSunAnalysis.t) :
  analyzeFlightSunConditions fromAirport toAirport departureDate departureTime
                             flightDuration = Ok report ->
  exists fromCoords toCoords startTime,
    FlightPath.lookup fromAirport = Some fromCoords /\
    FlightPath.lookup toAirport = Some toCoords /\
    parseDate (departureDate ++ "T" ++ departureTime ++ ":00Z")%string = Some startTime /\
    arrivalInRange startTime flightDuration /\
    generateFlightSunReport
      (detectSunEvents (timelineOf fromCoords toCoords startTime flightDuration))
      (timelineOf fromCoords toCoords startTime flightDuration)
      fromAirport toAirport = Ok report.
Proof.
  intros Hreport.
  destruct (FlightPath.lookup fromAirport) as [fromCoords|] eqn:Hfrom;
    [|unfold analyzeFlightSunConditions in Hreport; now rewrite Hfrom in Hreport].
  destruct (FlightPath.lookup toAirport) as [toCoords|] eqn:Hto;
    [|unfold analyzeFlightSunConditions in Hreport; now rewrite Hfrom, Hto in Hreport].
  destruct (parseDate (departureDate ++ "T" ++ departureTime ++ ":00Z")%string)
    as [startTime|] eqn:Hstart.
  - destruct (Rle_dec (Rabs (IZR startTime + flightDuration * 60 * 60 * 1000))
                      (IZR maxTime)) as [Hin|Hout].
    + exists fromCoords, toCoords, startTime.
      rewrite <- (analyzeFlightSunConditions_runs _ _ departureDate departureTime
                    _ _ _ _ Hfrom Hto Hstart Hin).
      repeat split; assumption.
    + rewrite (analyzeFlightSunConditions_invalid_date _ _ _ _ _ _ _ Hfrom Hto) in Hreport;
        [discriminate|].
      right. now exists startTime.
  - rewrite (analyzeFlightSunConditions_invalid_date _ _ _ _ _ _ _ Hfrom Hto) in Hreport;
      [discriminate | now left].
Qed.

Lemma analyzeFlightSunConditions_sunrise_implies_night
    (fromAirport toAirport departureDate departureTime : string)
    (flightDuration : R) (report : FlightSunAnalysis.t) :
  analyzeFlightSunConditions fromAirport toAirport departureDate departureTime
                             flightDuration = Ok report ->
  FlightSunAnalysis.willSeeSunrise report = true ->
  FlightSunAnalysis.willSeeNight report = true.
Proof.
  intros Hrep Hsunrise.
  apply analyzeFlightSunConditions_inv in Hrep
    as (fromCoords & toCoords & startTime & _ & _ & _ & _ & Hrep).
  apply generateFlightSunReport_flags in Hrep as (Hs & _ & Hn & _).
  unfold timelineOf in Hs, Hn.
  rewrite Hn. apply detectSunEvents_sunrise_implies_night. now rewrite <- Hs.
Qed.

End WithHost.

End ReportFacts.

(* ------------------------------------------------------------------ *)
(** ** The flight path *)

Module FlightPathFacts.
Import JsNumber Js FlightPath.

(** *** The loop *)

Lemma mapM_map {A B : Type} (f : A -> result B) (g : A -> B) (l : list A) :
  (forall a, In a l -> f a = Ok (g a)) -> mapM f l = Ok (map g l).
Proof.
  induction l as [|a l IH]; intros Hf; simpl.
  - reflexivity.
  - rewrite (Hf a (or_introl eq_refl)); simpl.
    rewrite IH by (intros b Hb; apply Hf; now right). reflexivity.
Qed.

(** *** Truncation *)

Lemma trunc_bounds (x : R) : x - 1 < IZR (trunc x) < x + 1.
Proof.
  unfold trunc. destruct (Rle_dec 0 x).
  - pose proof (Zfloor_bound x). lra.
  - pose proof (Zceil_bound x). lra.
Qed.

Lemma trunc_IZR (z : Z) : trunc (IZR z) = z.
Proof.
  unfold trunc. destruct (Rle_dec 0 (IZR z)).
  - apply ZfloorZ.
  - apply Zceil_eq. lra.
Qed.

(** Two time values at least 2 ms apart are clipped to different instants,
    in the same order. *)
Lemma trunc_lt (x y : R) : x + 2 <= y -> (trunc x < trunc y)%Z.
Proof.
  intros Hxy. apply lt_IZR.
  pose proof (trunc_bounds x). pose proof (trunc_bounds y). lra.
Qed.

(** *** Distance and number of waypoints *)

Lemma distanceKm_bounds (a b : Coords) : 0 <= distanceKm a b <= 25484.
Proof.
  unfold distanceKm.
  match goal with |- context [acos ?c] => pose proof (acos_bound c) as Hb end.
  pose proof PI_4. cbv zeta. lra.
Qed.

Lemma distanceKm_same (a : Coords) : distanceKm a a = 0.
Proof.
  unfold distanceKm; cbv zeta.
  rewrite Rminus_diag, cos_0, Rmult_1_r.
  replace (sin (fst a * PI / 180) * sin (fst a * PI / 180) +
           cos (fst a * PI / 180) * cos (fst a * PI / 180))
    with (Rsqr (sin (fst a * PI / 180)) + Rsqr (cos (fst a * PI / 180)))
    by (unfold Rsqr; ring).
  rewrite sin2_cos2, acos_1. ring.
Qed.

Lemma numWaypoints_ge_5 (d : R) : (5 <= numWaypoints d)%Z.
Proof. unfold numWaypoints. lia. Qed.

Lemma numWaypoints_0 : numWaypoints 0 = 5%Z.
Proof.
  unfold numWaypoints. replace (0 / 50) with (IZR 0) by (simpl; lra).
  rewrite ZfloorZ. reflexivity.
Qed.

(** The number of waypoints is at most a twentieth of the distance in km,
    and 5 for the short hops. *)
Lemma numWaypoints_le (d : R) : IZR (numWaypoints d) <= Rmax 5 (d / 50).
Proof.
  unfold numWaypoints.
  destruct (Z.max_spec 5 (Zfloor (d / 50))) as [[_ ->] | [_ ->]].
  - pose proof (Zfloor_bound (d / 50)). pose proof (Rmax_r 5 (d / 50)). lra.
  - apply Rmax_l.
Qed.

(** *** Progress fractions *)

Lemma INR_le_IZR (n : Z) (i : nat) : (i <= Z.to_nat n)%nat -> (0 <= n)%Z -> INR i <= IZR n.
Proof.
  intros Hi Hn. rewrite INR_IZR_INZ. apply IZR_le. lia.
Qed.

Lemma fractionAt_range (n : Z) (i : nat) :
  (5 <= n)%Z -> (i <= Z.to_nat n)%nat -> 0 <= fractionAt n i <= 1.
Proof.
  intros Hn Hi. unfold fractionAt.
  assert (Hn' : 5 <= IZR n) by (now apply IZR_le).
  pose proof (INR_le_IZR n i Hi ltac:(lia)) as Hin.
  pose proof (pos_INR i).
  assert (Hinv : 0 < / IZR n) by (apply Rinv_0_lt_compat; lra).
  assert (Hone : IZR n * / IZR n = 1) by (apply Rinv_r; lra).
  unfold Rdiv. split; nra.
Qed.

Lemma fractionAt_0 (n : Z) : fractionAt n 0 = 0.
Proof. unfold fractionAt; simpl. lra. Qed.

Lemma fractionAt_last (n : Z) : (5 <= n)%Z -> fractionAt n (Z.to_nat n) = 1.
Proof.
  intros Hn. unfold fractionAt. rewrite INR_IZR_INZ, Z2Nat.id by lia.
  assert (5 <= IZR n) by (now apply IZR_le). field. lra.
Qed.

Lemma fractionAt_step (n : Z) (i j : nat) :
  (5 <= n)%Z -> (i < j)%nat ->
  fractionAt n i + / IZR n <= fractionAt n j.
Proof.
  intros Hn Hij. unfold fractionAt.
  assert (Hn' : 5 <= IZR n) by (now apply IZR_le).
  assert (Hs : INR i + 1 <= INR j).
  { rewrite <- S_INR. apply le_INR. lia. }
  assert (Hinv : 0 < / IZR n) by (apply Rinv_0_lt_compat; lra).
  unfold Rdiv. nra.
Qed.

Lemma fractionAt_increasing (n : Z) (i j : nat) :
  (5 <= n)%Z -> (i < j)%nat -> fractionAt n i < fractionAt n j.
Proof.
  intros Hn Hij. pose proof (fractionAt_step n i j Hn Hij).
  assert (5 <= IZR n) by (now apply IZR_le).
  assert (0 < / IZR n) by (apply Rinv_0_lt_compat; lra). lra.
Qed.

(** *** Time values *)

(** The margin kept below the largest Date: the flight time over the
    longest distance, 25484 km at 800 km/h, in ms. *)
Definition flightTimeMargin : Z := 114678000%Z.

Lemma mkDate_timeValueAt (departureTime : Z) (d f : R) :
  (Z.abs departureTime <= maxTime - flightTimeMargin)%Z ->
  0 <= d <= 25484 -> 0 <= f <= 1 ->
  mkDate (timeValueAt departureTime d f)
    = Some (trunc (timeValueAt departureTime d f)).
Proof.
  intros Hdep Hd Hf. unfold mkDate.
  destruct (Rle_dec _ _) as [|Hout]; [reflexivity|]. exfalso; apply Hout.
  apply IZR_le in Hdep. rewrite abs_IZR, minus_IZR in Hdep.
  unfold maxTime, flightTimeMargin in *. unfold timeValueAt.
  assert (0 <= f * d <= 25484) by nra.
  replace (f * (d / 800) * 60 * 60 * 1000) with (f * d * 4500) by field.
  revert Hdep. unfold Rabs. repeat destruct (Rcase_abs _); lra.
Qed.

(** The waypoint that the loop pushes at index [i]. *)
Definition waypointOf (fromCoords toCoords : Coords) (departureTime : Z)
    (distance : R) (n : Z) (i : nat) : Waypoint :=
  let pos := calculateGreatCircle fromCoords toCoords (fractionAt n i) in
  mkWaypoint (option_map fst pos) (option_map snd pos)
             (trunc (timeValueAt departureTime distance (fractionAt n i))).

(** For known airports and a departure that leaves room for the flight
    time before the end of the Date range, the path is returned and is the
    sequence of the waypoints of the indices 0 to [numWaypoints]. *)
Lemma calculateFlightPath_returns (fromAirport toAirport : string)
    (departureTime : Z) (fromCoords toCoords : Coords) :
  lookup (toUpperCase fromAirport) = Some fromCoords ->
  lookup (toUpperCase toAirport) = Some toCoords ->
  (Z.abs departureTime <= maxTime - flightTimeMargin)%Z ->
  calculateFlightPath fromAirport toAirport departureTime =
    Ok (map (waypointOf fromCoords toCoords departureTime
                        (distanceKm fromCoords toCoords)
                        (numWaypoints (distanceKm fromCoords toCoords)))
            (seq 0 (S (Z.to_nat (numWaypoints (distanceKm fromCoords toCoords)))))).
Proof.
  intros Hfrom Hto Hdep. unfold calculateFlightPath. rewrite Hfrom, Hto.
  apply mapM_map. intros i Hi. apply in_seq in Hi.
  unfold waypointAt, waypointOf.
  rewrite mkDate_timeValueAt; [reflexivity | exact Hdep | apply distanceKm_bounds |].
  apply fractionAt_range; [apply numWaypoints_ge_5 | lia].
Qed.

Lemma nth_error_map_seq {A : Type} (g : nat -> A) (len i : nat) :
  (i < len)%nat -> nth_error (map g (seq 0 len)) i = Some (g i).
Proof.
  intros Hi. rewrite nth_error_map, nth_error_seq.
  destruct (Nat.ltb_spec i len); [reflexivity | lia].
Qed.

(** *** The number of waypoints *)

(** The coordinates of Delhi and Jaipur in the table. *)
Definition DEL : Coords := (28.5562, 77.1000).
Definition JAI : Coords := (26.8282, 75.8056).

Lemma lookup_DEL : lookup (toUpperCase "DEL") = Some DEL.
Proof. reflexivity. Qed.

Lemma lookup_JAI : lookup (toUpperCase "JAI") = Some JAI.
Proof. reflexivity. Qed.

Lemma epoch_in_range : (Z.abs 0 <= maxTime - flightTimeMargin)%Z.
Proof. unfold maxTime, flightTimeMargin. lia. Qed.

Lemma length_path (fromCoords toCoords : Coords) (departureTime : Z) (d : R) (n : Z) :
  Z.of_nat (List.length (map (waypointOf fromCoords toCoords departureTime d n)
                             (seq 0 (S (Z.to_nat n)))))
  = (Z.max 0 n + 1)%Z.
Proof. rewrite length_map, length_seq. lia. Qed.

(** C6 (as amended).  For every pair of known airports and every departure
    time that leaves room for the flight before the end of the Date range,
    [calculateFlightPath] returns a path, and the number of its waypoints
    is [max(5, floor(distance_km / 50)) + 1]: the loop runs from 0 to
    [numWaypoints] inclusive. *)
Theorem calculateFlightPath_waypoint_count (fromAirport toAirport : string)
    (departureTime : Z) (fromCoords toCoords : Coords) :
  lookup (toUpperCase fromAirport) = Some fromCoords ->
  lookup (toUpperCase toAirport) = Some toCoords ->
  (Z.abs departureTime <= maxTime - flightTimeMargin)%Z ->
  exists path,
    calculateFlightPath fromAirport toAirport departureTime = Ok path /\
    Z.of_nat (List.length path)
      = (Z.max 5 (Zfloor (distanceKm fromCoords toCoords / 50)) + 1)%Z.
Proof.
  intros Hfrom Hto Hdep. eexists; split.
  - exact (calculateFlightPath_returns _ _ _ fromCoords toCoords Hfrom Hto Hdep).
  - rewrite length_path. unfold numWaypoints. lia.
Qed.

(** The amended statement on the route from Delhi to Jaipur. *)
Lemma calculateFlightPath_waypoint_count_witness :
  exists path,
    calculateFlightPath "DEL" "JAI" 0 = Ok path /\
    Z.of_nat (List.length path) = (Z.max 5 (Zfloor (distanceKm DEL JAI / 50)) + 1)%Z.
Proof.
  exact (calculateFlightPath_waypoint_count "DEL" "JAI" 0 DEL JAI
           lookup_DEL lookup_JAI epoch_in_range).
Defined.

(** C6, the claim as stated fails: from Delhi to Jaipur the path does not
    have [max(5, floor(distance_km / 50))] waypoints. *)
Lemma calculateFlightPath_DEL_JAI_count :
  exists path,
    calculateFlightPath "DEL" "JAI" 0 = Ok path /\
    Z.of_nat (List.length path) <> Z.max 5 (Zfloor (distanceKm DEL JAI / 50)).
Proof.
  eexists; split.
  - apply (calculateFlightPath_returns "DEL" "JAI" 0 DEL JAI
             lookup_DEL lookup_JAI epoch_in_range).
  - rewrite length_path. unfold numWaypoints. lia.
Qed.

(** *** A route from an airport to itself *)

Lemma centralAngle_same (lat1 lon1 : R) : centralAngle lat1 lon1 lat1 lon1 = 0.
Proof.
  unfold centralAngle. rewrite !Rminus_diag.
  replace (0 / 2) with 0 by lra. rewrite sin_0.
  replace (0 ^ 2 + cos lat1 * cos lat1 * 0 ^ 2) with 0 by ring.
  rewrite sqrt_0, asin_0. ring.
Qed.

(** Identical endpoints: the weights are 0/0, whatever the fraction. *)
Lemma calculateGreatCircle_same (a : Coords) (fraction : R) :
  calculateGreatCircle a a fraction = None.
Proof.
  unfold calculateGreatCircle; cbv zeta. rewrite centralAngle_same, sin_0.
  unfold div0. destruct (Req_dec_T 0 0) as [_|Hne]; [reflexivity | now elim Hne].
Qed.

Lemma mkDate_IZR (t : Z) : (Z.abs t <= maxTime)%Z -> mkDate (IZR t) = Some t.
Proof.
  intros Ht. unfold mkDate. rewrite trunc_IZR.
  destruct (Rle_dec _ _) as [|Hout]; [reflexivity|].
  exfalso; apply Hout. rewrite <- abs_IZR. now apply IZR_le.
Qed.

Lemma timeValueAt_0 (departureTime : Z) (fraction : R) :
  timeValueAt departureTime 0 fraction = IZR departureTime.
Proof. unfold timeValueAt. field. Qed.

Lemma waypointAt_same (a : Coords) (departureTime : Z) (n : Z) (i : nat) :
  (Z.abs departureTime <= maxTime)%Z ->
  waypointAt a a departureTime 0 n i = Ok (mkWaypoint NaN NaN departureTime).
Proof.
  intros Hdep. unfold waypointAt.
  rewrite timeValueAt_0, mkDate_IZR by exact Hdep.
  now rewrite calculateGreatCircle_same.
Qed.

(** From an airport to itself the distance is 0: six waypoints, all at the
    departure time, all with NaN coordinates. *)
Lemma calculateFlightPath_same (code : string) (departureTime : Z) (a : Coords) :
  lookup (toUpperCase code) = Some a ->
  (Z.abs departureTime <= maxTime)%Z ->
  calculateFlightPath code code departureTime
    = Ok (repeat (mkWaypoint NaN NaN departureTime) 6).
Proof.
  intros Hcode Hdep. unfold calculateFlightPath. rewrite Hcode.
  rewrite distanceKm_same, numWaypoints_0.
  change (Z.to_nat 5) with 5%nat. cbn [seq mapM].
  rewrite !waypointAt_same by exact Hdep. reflexivity.
Qed.

(** The timestamps of a path increase strictly. *)
Definition increasingTimes (path : list Waypoint) : Prop :=
  forall (i j : nat) (wi wj : Waypoint),
    (i < j)%nat -> nth_error path i = Some wi -> nth_error path j = Some wj ->
    (time wi < time wj)%Z.

(** *** The airports of the table *)

Lemma lookupIn_In (tbl : list (string * Coords)) (code : string) (a : Coords) :
  lookupIn tbl code = Some a -> In (code, a) tbl.
Proof.
  induction tbl as [|[k v] tbl IH]; simpl; [discriminate|].
  destruct (String.eqb_spec k code) as [-> | Hne].
  - intros [= ->]. now left.
  - intros Hl. right. now apply IH.
Qed.

(** Takes the table apart: one goal for every airport that [H] allows. *)
Ltac airport_cases H :=
  apply lookupIn_In in H; unfold AIRPORTS in H; simpl in H;
  repeat (destruct H as [H|H]; [injection H as <- <-|]); [..|contradiction H].

(** Every airport lies strictly between the poles and east of the
    antimeridian. *)
Lemma airports_valid (code : string) (a : Coords) :
  lookup code = Some a -> -90 < fst a < 90 /\ -180 < snd a <= 180.
Proof.
  unfold lookup; intros Ha. airport_cases Ha; simpl; lra.
Qed.

(** No two airports share a latitude: the closest are Dubai and Doha,
    0.0199 degrees apart. *)
Lemma airports_latitudes (code1 code2 : string) (a b : Coords) :
  lookup code1 = Some a -> lookup code2 = Some b -> code1 <> code2 ->
  0.0199 <= Rabs (fst a - fst b).
Proof.
  unfold lookup; intros Ha Hb Hne.
  airport_cases Ha; airport_cases Hb; try (now elim Hne); simpl;
    unfold Rabs; destruct (Rcase_abs _); lra.
Qed.

(** *** A lower bound of the distance *)

Lemma radians_quarter_turn (phi : R) :
  -90 <= phi <= 90 -> - (PI / 2) <= phi * PI / 180 <= PI / 2.
Proof. intros Hphi. pose proof PI_RGT_0. split; nra. Qed.

(** The central angle is at least the difference of the latitudes. *)
Lemma distanceKm_lower (a b : Coords) :
  -90 <= fst a <= 90 -> -90 <= fst b <= 90 ->
  6371 * (Rabs (fst a - fst b) * PI / 180) <= distanceKm a b.
Proof.
  intros Ha Hb. unfold distanceKm; cbv zeta.
  apply radians_quarter_turn in Ha, Hb.
  set (l1 := fst a * PI / 180) in *. set (l2 := fst b * PI / 180) in *.
  set (dl := snd b * PI / 180 - snd a * PI / 180).
  set (c := sin l1 * sin l2 + cos l1 * cos l2 * cos dl).
  assert (Hdelta : Rabs (fst a - fst b) * PI / 180 = Rabs (l1 - l2)).
  { subst l1 l2. pose proof PI_RGT_0.
    replace (fst a * PI / 180 - fst b * PI / 180)
      with ((fst a - fst b) * (PI / 180)) by field.
    rewrite Rabs_mult, (Rabs_pos_eq (PI / 180)) by lra. field. }
  rewrite Hdelta.
  assert (Hc1 : 0 <= cos l1) by (apply cos_ge_0; lra).
  assert (Hc2 : 0 <= cos l2) by (apply cos_ge_0; lra).
  pose proof (COS_bound dl) as [_ Hdl].
  pose proof (COS_bound (l1 + l2)) as [_ Hsum].
  pose proof (COS_bound (l1 - l2)) as [_ Hdiff].
  rewrite cos_plus in Hsum. 
  assert (Hprod : 0 <= cos l1 * cos l2) by (now apply Rmult_le_pos).
  assert (Hle : c <= cos (l1 - l2)) by (rewrite cos_minus; subst c; nra).
  assert (Hrange : -1 <= c <= 1).
  { split; [|lra]. pose proof (COS_bound dl) as [Hlo _]. subst c. nra. }
  assert (Hcos : cos (Rabs (l1 - l2)) = cos (l1 - l2)).
  { unfold Rabs; destruct (Rcase_abs _); [apply cos_neg | reflexivity]. }
  assert (Hd : 0 <= Rabs (l1 - l2) <= PI).
  { split; [apply Rabs_pos|]. unfold Rabs; destruct (Rcase_abs _); lra. }
  pose proof (acos_bound c) as [Hlo Hhi].
  assert (Rabs (l1 - l2) <= acos c).
  { apply cos_decr_0; try lra. rewrite cos_acos, Hcos by exact Hrange. exact Hle. }
  lra.
Qed.

(** Two different airports are more than 2 km apart. *)
Lemma airports_apart (code1 code2 : string) (a b : Coords) :
  lookup code1 = Some a -> lookup code2 = Some b -> code1 <> code2 ->
  2 <= distanceKm a b.
Proof.
  intros Ha Hb Hne.
  pose proof (airports_latitudes _ _ _ _ Ha Hb Hne) as Hlat.
  pose proof (airports_valid _ _ Ha) as [Hva _].
  pose proof (airports_valid _ _ Hb) as [Hvb _].
  pose proof (distanceKm_lower a b ltac:(lra) ltac:(lra)) as Hlow.
  pose proof PI2_3_2. nra.
Qed.

(** *** Monotonicity *)

(** Between two waypoints the time value grows by at least 2 ms as soon as
    the airports are 2 km apart. *)
Lemma timeValueAt_step (departureTime : Z) (d : R) (i j : nat) :
  2 <= d -> (i < j)%nat ->
  timeValueAt departureTime d (fractionAt (numWaypoints d) i) + 2
    <= timeValueAt departureTime d (fractionAt (numWaypoints d) j).
Proof.
  intros Hd Hij. unfold timeValueAt.
  pose proof (numWaypoints_ge_5 d) as Hn.
  pose proof (fractionAt_step _ i j Hn Hij) as Hstep.
  pose proof (numWaypoints_le d) as Hmax.
  set (n := numWaypoints d) in *.
  assert (Hn' : 5 <= IZR n) by (now apply IZR_le).
  assert (Hinv : 0 < / IZR n) by (apply Rinv_0_lt_compat; lra).
  assert (Hone : IZR n * / IZR n = 1) by (apply Rinv_r; lra).
  assert (Hbig : 2 * IZR n <= 4500 * d).
  { unfold Rmax in Hmax. destruct (Rle_dec 5 (d / 50)); lra. }
  assert (Hunit : 2 <= / IZR n * (4500 * d)).
  { replace 2 with (/ IZR n * (2 * IZR n)) by (field; lra).
    apply Rmult_le_compat_l; lra. }
  set (fi := fractionAt n i) in *. set (fj := fractionAt n j) in *.
  replace (fi * (d / 800) * 60 * 60 * 1000) with (fi * (4500 * d)) by field.
  replace (fj * (d / 800) * 60 * 60 * 1000) with (fj * (4500 * d)) by field.
  assert (0 <= 4500 * d) by lra.
  assert ((fi + / IZR n) * (4500 * d) <= fj * (4500 * d))
    by (apply Rmult_le_compat_r; lra).
  lra.
Qed.

Lemma increasingTimes_path (fromCoords toCoords : Coords) (departureTime : Z) (d : R) :
  2 <= d ->
  increasingTimes (map (waypointOf fromCoords toCoords departureTime d (numWaypoints d))
                       (seq 0 (S (Z.to_nat (numWaypoints d))))).
Proof.
  intros Hd i j wi wj Hij Hi Hj.
  assert (Hlen : (j < S (Z.to_nat (numWaypoints d)))%nat).
  { assert (Hsome : nth_error
              (map (waypointOf fromCoords toCoords departureTime d (numWaypoints d))
                   (seq 0 (S (Z.to_nat (numWaypoints d))))) j <> None)
      by (rewrite Hj; discriminate).
    apply nth_error_Some in Hsome. now rewrite length_map, length_seq in Hsome. }
  rewrite nth_error_map_seq in Hi, Hj by lia.
  injection Hi as <-. injection Hj as <-. unfold waypointOf; simpl.
  apply trunc_lt. now apply timeValueAt_step.
Qed.

Lemma DEL_JAI_differ : toUpperCase "DEL" <> toUpperCase "JAI".
Proof. discriminate. Qed.

Lemma epoch_is_a_date : (Z.abs 0 <= maxTime)%Z.
Proof. unfold maxTime. lia. Qed.

(** The input that the handler should not let through: from Delhi to Delhi
    the six waypoints all carry the departure time, so the timestamps do
    not increase. *)
Lemma calculateFlightPath_DEL_DEL_times :
  calculateFlightPath "DEL" "DEL" 0 = Ok (repeat (mkWaypoint NaN NaN 0) 6) /\
  ~ increasingTimes (repeat (mkWaypoint NaN NaN 0) 6).
Proof.
  split.
  - exact (calculateFlightPath_same "DEL" 0 DEL lookup_DEL epoch_is_a_date).
  - intros Hinc.
    specialize (Hinc 0%nat 1%nat (mkWaypoint NaN NaN 0) (mkWaypoint NaN NaN 0)
                     ltac:(lia) eq_refl eq_refl).
    simpl in Hinc. lia.
Qed.

End FlightPathFacts.

(* ------------------------------------------------------------------ *)
(** ** The route handler *)

Module RouteHandlerFacts.
Import JsNumber Js Host FlightPath RouteHandler.

Section WithHost.
Context `{Env}.

(** X2.  A request whose from and to codes are identical is not rejected:
    when the code is a known airport and the departure time parses to a
    valid Date, the handler runs [calculateFlightPath], which returns six
    waypoints at the departure time, and answers 200 with that path. *)
Theorem routeHandler_accepts_identical_codes (query : Query)
    (code departString : string) (departureTime : Z) (a : Coords) :
  truthy (from query) = Some code ->
  truthy (to query) = Some code ->
  truthy (depart query) = Some departString ->
  parseDate departString = Some departureTime ->
  (Z.abs departureTime <= maxTime)%Z ->
  lookup (toUpperCase code) = Some a ->
  exists body,
    routeHandler query = Json body /\
    calculateFlightPath code code departureTime = Ok (path body) /\
    path body = repeat (mkWaypoint NaN NaN departureTime) 6.
Proof.
  intros Hfrom Hto Hdepart Hparse Hrange Hcode.
  pose proof (FlightPathFacts.calculateFlightPath_same code departureTime a Hcode Hrange)
    as Hpath.
  unfold routeHandler. rewrite Hfrom, Hto, Hdepart, Hparse, Hpath.
  eexists; split; [reflexivity|]. simpl. split; reflexivity.
Qed.

End WithHost.

(** A host whose date parser knows one departure time, 2025-08-01 18:00
    UTC. *)
Definition augustHost : Env :=
  {| getPosition := fun _ _ _ => (0, 0);
     toLocaleTimeString := fun _ => EmptyString;
     toFixed2 := fun _ => EmptyString;
     parseDate := fun s =>
       if String.eqb s "2025-08-01T18:00:00.000Z" then Some 1754071200000%Z else None;
     parseFloat := fun _ => None;
     toISOString := fun _ => "2025-08-01T18:00:00.000Z"%string |}.

(** The request from Delhi to Delhi. *)
Definition delhiToDelhi : Query :=
  mkQuery (Some "DEL"%string) (Some "DEL"%string)
          (Some "2025-08-01T18:00:00.000Z"%string) None.

Lemma august_is_a_date : (Z.abs 1754071200000 <= maxTime)%Z.
Proof. unfold maxTime. lia. Qed.

(** C9, at the failing input.  The request from Delhi to Delhi is not
    rejected: the path is computed and the answer is 200 with six waypoints
    whose coordinates are NaN. *)
Lemma routeHandler_DEL_DEL_is_answered :
  exists body,
    @routeHandler augustHost delhiToDelhi = Json body /\
    path body = repeat (mkWaypoint NaN NaN 1754071200000) 6.
Proof.
  pose proof (FlightPathFacts.calculateFlightPath_same "DEL" 1754071200000
                FlightPathFacts.DEL FlightPathFacts.lookup_DEL august_is_a_date)
    as Hpath.
  unfold routeHandler, delhiToDelhi; simpl. rewrite Hpath.
  eexists; split; reflexivity.
Qed.

(** The request from Delhi to Delhi. *)
Lemma routeHandler_accepts_identical_codes_witness :
  exists body,
    @routeHandler augustHost delhiToDelhi = Json body /\
    calculateFlightPath "DEL" "DEL" 1754071200000 = Ok (path body) /\
    path body = repeat (mkWaypoint NaN NaN 1754071200000) 6.
Proof.
  exact (@routeHandler_accepts_identical_codes augustHost delhiToDelhi
           "DEL" "2025-08-01T18:00:00.000Z" 1754071200000 FlightPathFacts.DEL
           eq_refl eq_refl eq_refl eq_refl august_is_a_date
           FlightPathFacts.lookup_DEL).
Defined.

End RouteHandlerFacts.

(* ------------------------------------------------------------------ *)
(** ** Angles: atan2, the remainder and the bearing *)

Module AngleFacts.
Import JsNumber.

(** *** Truncation and remainder on small quotients *)

Lemma trunc_unit (x : R) : -1 < x < 1 -> trunc x = 0%Z.
Proof.
  intros Hx. unfold trunc. destruct (Rle_dec 0 x).
  - apply Zfloor_eq. simpl. lra.
  - apply Zceil_eq. simpl. lra.
Qed.

Lemma trunc_one (x : R) : 1 <= x < 2 -> trunc x = 1%Z.
Proof.
  intros Hx. unfold trunc. destruct (Rle_dec 0 x); [|lra].
  apply Zfloor_eq. simpl. lra.
Qed.

Lemma rem_small (x : R) : -360 < x < 360 -> rem x 360 = x.
Proof.
  intros Hx. unfold rem. rewrite trunc_unit by lra. simpl. lra.
Qed.

Lemma rem_once (x : R) : 360 <= x < 720 -> rem x 360 = x - 360.
Proof.
  intros Hx. unfold rem. rewrite trunc_one by lra. simpl. lra.
Qed.

(** [((a % 360) + 360) % 360] on the differences of two bearings. *)
Lemma normalize360_nonneg (a : R) : 0 <= a < 360 -> SeatRecommendation.normalize360 a = a.
Proof.
  intros Ha. unfold SeatRecommendation.normalize360.
  rewrite (rem_small a) by lra. rewrite rem_once by lra. lra.
Qed.

Lemma normalize360_neg (a : R) : -360 < a < 0 -> SeatRecommendation.normalize360 a = a + 360.
Proof.
  intros Ha. unfold SeatRecommendation.normalize360.
  rewrite (rem_small a) by lra. now rewrite rem_small by lra.
Qed.

(** *** atan2 *)

Lemma atan_nonpos (t : R) : t <= 0 -> atan t <= 0.
Proof.
  intros [Ht | ->]; [|rewrite atan_0; lra].
  pose proof (atan_increasing _ _ Ht) as Hlt. rewrite atan_0 in Hlt. lra.
Qed.

Lemma atan_pos (t : R) : 0 < t -> 0 < atan t.
Proof.
  intros Ht. pose proof (atan_increasing _ _ Ht) as Hlt. now rewrite atan_0 in Hlt.
Qed.

Lemma atan2_pos_x (y x : R) : 0 < x -> atan2 y x = atan (y / x).
Proof. intros Hx. unfold atan2. destruct (Rlt_dec 0 x); [reflexivity | lra]. Qed.

Lemma atan2_neg_x_up (y x : R) : x < 0 -> 0 <= y -> atan2 y x = atan (y / x) + PI.
Proof.
  intros Hx Hy. unfold atan2.
  destruct (Rlt_dec 0 x); [lra|]. destruct (Rlt_dec x 0); [|lra].
  destruct (Rle_dec 0 y); [reflexivity | lra].
Qed.

Lemma atan2_neg_x_down (y x : R) : x < 0 -> y < 0 -> atan2 y x = atan (y / x) - PI.
Proof.
  intros Hx Hy. unfold atan2.
  destruct (Rlt_dec 0 x); [lra|]. destruct (Rlt_dec x 0); [|lra].
  destruct (Rle_dec 0 y); [lra | reflexivity].
Qed.

Lemma atan2_zero_x (y : R) :
  atan2 y 0 = if Rlt_dec 0 y then PI / 2 else if Rlt_dec y 0 then - (PI / 2) else 0.
Proof.
  unfold atan2. destruct (Rlt_dec 0 0); [lra | reflexivity].
Qed.

Lemma div_sign_neg (y x : R) : x < 0 -> 0 <= y -> y / x <= 0.
Proof.
  intros Hx Hy. unfold Rdiv.
  assert (/ x < 0) by (now apply Rinv_lt_0_compat). nra.
Qed.

Lemma div_sign_pos (y x : R) : x < 0 -> y < 0 -> 0 < y / x.
Proof.
  intros Hx Hy. unfold Rdiv.
  assert (/ x < 0) by (now apply Rinv_lt_0_compat). nra.
Qed.

(** The angle returned lies in (-PI, PI]. *)
Lemma atan2_range (y x : R) : - PI < atan2 y x <= PI.
Proof.
  pose proof PI_RGT_0 as Hpi.
  destruct (Rlt_dec 0 x) as [Hx|Hx].
  - rewrite atan2_pos_x by exact Hx. pose proof (atan_bound (y / x)). lra.
  - destruct (Rlt_dec x 0) as [Hx'|Hx'].
    + destruct (Rle_dec 0 y) as [Hy|Hy].
      * rewrite atan2_neg_x_up by lra.
        pose proof (atan_bound (y / x)).
        pose proof (atan_nonpos _ (div_sign_neg y x Hx' Hy)). lra.
      * rewrite atan2_neg_x_down by lra.
        pose proof (atan_bound (y / x)).
        pose proof (atan_pos _ (div_sign_pos y x Hx' ltac:(lra))). lra.
    + assert (x = 0) as -> by lra. rewrite atan2_zero_x.
      destruct (Rlt_dec 0 y); [lra|]. destruct (Rlt_dec y 0); lra.
Qed.

(** In the first quadrant the angle is strictly between 0 and PI/2. *)
Lemma atan2_first_quadrant (y x : R) : 0 < x -> 0 < y -> 0 < atan2 y x < PI / 2.
Proof.
  intros Hx Hy. rewrite atan2_pos_x by exact Hx.
  pose proof (atan_bound (y / x)).
  assert (0 < y / x) by (apply Rdiv_lt_0_compat; lra).
  pose proof (atan_pos _ H0). lra.
Qed.

(** *** Degrees *)

Lemma degrees_factor_pos : 0 < 180 / PI.
Proof. pose proof PI_RGT_0. apply Rdiv_lt_0_compat; lra. Qed.

Lemma degrees_lt (a b : R) : a < b * (PI / 180) -> a * 180 / PI < b.
Proof.
  intros Hab. pose proof degrees_factor_pos.
  replace b with (b * (PI / 180) * (180 / PI)) by (field; apply PI_neq0).
  replace (a * 180 / PI) with (a * (180 / PI)) by (field; apply PI_neq0).
  now apply Rmult_lt_compat_r.
Qed.

Lemma degrees_gt (a b : R) : b * (PI / 180) < a -> b < a * 180 / PI.
Proof.
  intros Hab. pose proof degrees_factor_pos.
  replace b with (b * (PI / 180) * (180 / PI)) by (field; apply PI_neq0).
  replace (a * 180 / PI) with (a * (180 / PI)) by (field; apply PI_neq0).
  now apply Rmult_lt_compat_r.
Qed.

Lemma degrees_le (a b : R) : a <= b * (PI / 180) -> a * 180 / PI <= b.
Proof.
  intros Hab. pose proof degrees_factor_pos.
  replace b with (b * (PI / 180) * (180 / PI)) by (field; apply PI_neq0).
  replace (a * 180 / PI) with (a * (180 / PI)) by (field; apply PI_neq0).
  apply Rmult_le_compat_r; lra.
Qed.

(** *** The bearing *)

(** The bearing is normalised into [0, 360). *)
Lemma calculateBearing_range (lat1 lon1 lat2 lon2 : R) :
  0 <= SeatRecommendation.calculateBearing lat1 lon1 lat2 lon2 < 360.
Proof.
  unfold SeatRecommendation.calculateBearing; cbv zeta.
  match goal with |- context [atan2 ?y ?x] =>
    pose proof (atan2_range y x) as [Hlo Hhi]; set (t := atan2 y x) in *
  end.
  assert (Hlo' : -180 < t * 180 / PI) by (apply degrees_gt; lra).
  assert (Hhi' : t * 180 / PI <= 180) by (apply degrees_le; lra).
  destruct (Rlt_dec (t * 180 / PI) 0).
  - rewrite rem_small by lra. lra.
  - rewrite rem_once by lra. lra.
Qed.

(** The two event-based seat functions compute the same bearing as
    [calculateBearing]. *)
Lemma generalFlightBearing_eq (a b : FlightPath.Coords) :
  EnhancedSunAnalysis.generalFlightBearing a b
    = SeatRecommendation.calculateBearing (fst a) (snd a) (fst b) (snd b).
Proof. reflexivity. Qed.

End AngleFacts.

(* ------------------------------------------------------------------ *)
(** ** The event-based seat side *)

Module SeatSideFacts.
Import JsNumber Js FlightPath EnhancedSunAnalysis.

(** The decision rule in the words of the specification (section 4.5): a
    relative sun position in [0, 180] recommends the left side, one in
    (180, 360) the right side. *)
Definition specDecisionRule (relativeSunPosition : R) : Side :=
  if Rleb 0 relativeSunPosition && Rleb relativeSunPosition 180
  then SideLeft else SideRight.

(** [recommendForEvent] in the words of the specification: the decision
    rule applied to the fixed sun bearing, 90 degrees for a sunrise and 270
    degrees for a sunset, relative to the flight bearing. *)
Definition specRecommendForEvent (fromCoords toCoords : Coords)
    (isEventSunrise : bool) : Side :=
  let sunBearing := if isEventSunrise then 90 else 270 in
  let flightBearing :=
    SeatRecommendation.calculateBearing (fst fromCoords) (snd fromCoords)
                                        (fst toCoords) (snd toCoords) in
  specDecisionRule (SeatRecommendation.normalize360 (sunBearing - flightBearing)).

(** The ladders of tests as two-way choices. *)
Lemma sunriseSideOfBearing_quadrant (bearing : R) :
  sunriseSideOfBearing bearing
    = if Rltb bearing 135 || Rleb 315 bearing then SideRight else SideLeft.
Proof.
  unfold sunriseSideOfBearing, Rltb, Rleb. rdec; reflexivity.
Qed.

Lemma sunsetSideOfBearing_quadrant (bearing : R) :
  sunsetSideOfBearing bearing
    = if Rltb bearing 135 || Rleb 315 bearing then SideLeft else SideRight.
Proof.
  unfold sunsetSideOfBearing, Rltb, Rleb. rdec; reflexivity.
Qed.

(** The rule of the specification as a function of the flight bearing. *)
Lemma specDecisionRule_sunrise (bearing : R) :
  0 <= bearing < 360 ->
  specDecisionRule (SeatRecommendation.normalize360 (90 - bearing))
    = if Rleb bearing 90 || Rleb 270 bearing then SideLeft else SideRight.
Proof.
  intros Hb. unfold specDecisionRule.
  destruct (Rle_dec bearing 90).
  - rewrite AngleFacts.normalize360_nonneg by lra.
    unfold Rleb. rdec; reflexivity.
  - rewrite AngleFacts.normalize360_neg by lra.
    unfold Rleb. rdec; reflexivity.
Qed.

Lemma specDecisionRule_sunset (bearing : R) :
  0 <= bearing < 360 ->
  specDecisionRule (SeatRecommendation.normalize360 (270 - bearing))
    = if Rleb 90 bearing && Rleb bearing 270 then SideLeft else SideRight.
Proof.
  intros Hb. unfold specDecisionRule.
  destruct (Rle_dec bearing 270).
  - rewrite AngleFacts.normalize360_nonneg by lra.
    unfold Rleb. rdec; reflexivity.
  - rewrite AngleFacts.normalize360_neg by lra.
    unfold Rleb. rdec; reflexivity.
Qed.

(** C4 (as amended).  For every pair of known airports the event-based
    recommendation is decided by the quadrant of the flight bearing [b],
    which lies in [0, 360): for a sunrise the right side when [b < 135] or
    [b >= 315] and the left side when [135 <= b < 315]; for a sunset the
    opposite side; never 'either'.  The rule of section 4.5 applied to the
    fixed sun bearing gives the left side for a sunrise when [b <= 90] or
    [b >= 270], and for a sunset when [90 <= b <= 270]: the two are
    different functions of the bearing. *)
Theorem determineSeatSide_by_quadrant (fromAirport toAirport : string)
    (fromCoords toCoords : Coords) :
  lookup fromAirport = Some fromCoords ->
  lookup toAirport = Some toCoords ->
  let b := generalFlightBearing fromCoords toCoords in
  0 <= b < 360 /\
  determineSeatSideForSunrise fromAirport toAirport
    = Ok (if Rltb b 135 || Rleb 315 b then SideRight else SideLeft) /\
  determineSeatSideForSunset fromAirport toAirport
    = Ok (if Rltb b 135 || Rleb 315 b then SideLeft else SideRight) /\
  specRecommendForEvent fromCoords toCoords true
    = (if Rleb b 90 || Rleb 270 b then SideLeft else SideRight) /\
  specRecommendForEvent fromCoords toCoords false
    = (if Rleb 90 b && Rleb b 270 then SideLeft else SideRight).
Proof.
  intros Hfrom Hto b.
  assert (Hb : 0 <= b < 360).
  { subst b. rewrite AngleFacts.generalFlightBearing_eq.
    apply AngleFacts.calculateBearing_range. }
  split; [exact Hb|].
  unfold determineSeatSideForSunrise, determineSeatSideForSunset.
  rewrite Hfrom, Hto. fold b.
  rewrite sunriseSideOfBearing_quadrant, sunsetSideOfBearing_quadrant.
  split; [reflexivity|]. split; [reflexivity|].
  unfold specRecommendForEvent; cbv zeta.
  rewrite <- AngleFacts.generalFlightBearing_eq. fold b.
  split; [now apply specDecisionRule_sunrise | now apply specDecisionRule_sunset].
Qed.

Lemma determineSeatSideForSunrise_known (fromAirport toAirport : string)
    (fromCoords toCoords : Coords) :
  lookup fromAirport = Some fromCoords ->
  lookup toAirport = Some toCoords ->
  determineSeatSideForSunrise fromAirport toAirport
    = Ok (sunriseSideOfBearing (generalFlightBearing fromCoords toCoords)).
Proof.
  intros Hfrom Hto. unfold determineSeatSideForSunrise. now rewrite Hfrom, Hto.
Qed.

(** From Jaipur to Delhi the flight heads north-east: both components of
    the direction are positive. *)
Lemma direction_JAI_DEL :
  let dLonRad := (77.1000 - 75.8056) * PI / 180 in
  let lat1 := 26.8282 * PI / 180 in
  let lat2 := 28.5562 * PI / 180 in
  0 < sin dLonRad * cos lat2 /\
  0 < cos lat1 * sin lat2 - sin lat1 * cos lat2 * cos dLonRad.
Proof.
  intros dLonRad lat1 lat2. pose proof PI_RGT_0 as Hpi.
  assert (Hd : 0 < sin dLonRad) by (apply sin_gt_0; subst dLonRad; lra).
  assert (Hc2 : 0 < cos lat2) by (apply cos_gt_0; subst lat2; lra).
  assert (Hs1 : 0 < sin lat1) by (apply sin_gt_0; subst lat1; lra).
  assert (Hdiff : 0 < sin (lat2 - lat1)) by (apply sin_gt_0; subst lat1 lat2; lra).
  rewrite sin_minus in Hdiff.
  pose proof (COS_bound dLonRad) as [_ Hcd].
  split; [now apply Rmult_lt_0_compat|].
  assert (0 < sin lat1 * cos lat2) by (now apply Rmult_lt_0_compat).
  nra.
Qed.

Lemma bearing_JAI_DEL :
  0 < generalFlightBearing FlightPathFacts.JAI FlightPathFacts.DEL < 90.
Proof.
  unfold generalFlightBearing, FlightPathFacts.JAI, FlightPathFacts.DEL; simpl fst; simpl snd.
  cbv zeta. destruct direction_JAI_DEL as [Hy Hx]. cbv zeta in Hy, Hx.
  match goal with |- context [atan2 ?y ?x] =>
    pose proof (AngleFacts.atan2_first_quadrant y x Hx Hy) as [Hlo Hhi];
    set (t := atan2 y x) in *
  end.
  assert (0 < t * 180 / PI) by (apply AngleFacts.degrees_gt; lra).
  assert (t * 180 / PI < 90) by (apply AngleFacts.degrees_lt; lra).
  rewrite AngleFacts.rem_once by lra. lra.
Qed.

(** C4, the claim as stated fails: from Jaipur to Delhi the event-based
    function recommends the right side for a sunrise, the rule of section
    4.5 with the sun bearing 90 recommends the left side. *)
Lemma determineSeatSideForSunrise_JAI_DEL :
  determineSeatSideForSunrise "JAI" "DEL" = Ok SideRight /\
  specRecommendForEvent FlightPathFacts.JAI FlightPathFacts.DEL true = SideLeft.
Proof.
  pose proof bearing_JAI_DEL as Hb. split.
  - rewrite (determineSeatSideForSunrise_known "JAI" "DEL"
               FlightPathFacts.JAI FlightPathFacts.DEL eq_refl eq_refl).
    rewrite sunriseSideOfBearing_quadrant.
    unfold Rltb. destruct (Rlt_dec _ 135); [reflexivity | lra].
  - unfold specRecommendForEvent; cbv zeta.
    rewrite <- AngleFacts.generalFlightBearing_eq.
    rewrite specDecisionRule_sunrise by lra.
    unfold Rleb. destruct (Rle_dec _ 90); [reflexivity | lra].
Qed.

(** The amended statement on the route from Jaipur to Delhi. *)
Lemma determineSeatSide_by_quadrant_witness :
  let b := generalFlightBearing FlightPathFacts.JAI FlightPathFacts.DEL in
  0 <= b < 360 /\
  determineSeatSideForSunrise "JAI" "DEL"
    = Ok (if Rltb b 135 || Rleb 315 b then SideRight else SideLeft) /\
  determineSeatSideForSunset "JAI" "DEL"
    = Ok (if Rltb b 135 || Rleb 315 b then SideLeft else SideRight) /\
  specRecommendForEvent FlightPathFacts.JAI FlightPathFacts.DEL true
    = (if Rleb b 90 || Rleb 270 b then SideLeft else SideRight) /\
  specRecommendForEvent FlightPathFacts.JAI FlightPathFacts.DEL false
    = (if Rleb 90 b && Rleb b 270 then SideLeft else SideRight).
Proof.
  exact (determineSeatSide_by_quadrant "JAI" "DEL"
           FlightPathFacts.JAI FlightPathFacts.DEL eq_refl eq_refl).
Defined.

End SeatSideFacts.

(* ------------------------------------------------------------------ *)
(** ** The bearing and its reverse *)

Module BearingFacts.
Import JsNumber SeatRecommendation.

(** The bearing of the direction with east component [y] and north
    component [x]. *)
Definition bearingOfVector (y x : R) : R := rem (atan2 y x * 180 / PI + 360) 360.

Lemma calculateBearing_vector (lat1 lon1 lat2 lon2 : R) :
  calculateBearing lat1 lon1 lat2 lon2 =
    bearingOfVector
      (sin ((lon2 - lon1) * PI / 180) * cos (lat2 * PI / 180))
      (cos (lat1 * PI / 180) * sin (lat2 * PI / 180) -
       sin (lat1 * PI / 180) * cos (lat2 * PI / 180) * cos ((lon2 - lon1) * PI / 180)).
Proof. reflexivity. Qed.

Lemma bearing_of_degrees (b : R) :
  -180 < b <= 180 -> rem (b + 360) 360 = if Rlt_dec b 0 then b + 360 else b.
Proof.
  intros Hb. destruct (Rlt_dec b 0).
  - apply AngleFacts.rem_small; lra.
  - rewrite AngleFacts.rem_once; lra.
Qed.

Lemma degrees_of_turn (t : R) :
  - PI < t <= PI -> -180 < t * 180 / PI <= 180.
Proof.
  intros [Hlo Hhi]. split.
  - apply AngleFacts.degrees_gt; lra.
  - apply AngleFacts.degrees_le; lra.
Qed.

(** Reversing a direction turns its angle by half a turn. *)
Lemma atan2_opp (y x : R) :
  x <> 0 \/ y <> 0 ->
  atan2 (- y) (- x) = atan2 y x + PI \/ atan2 (- y) (- x) = atan2 y x - PI.
Proof.
  intros Hnz.
  assert (Hq : - y / - x = y / x).
  { destruct (Req_dec x 0) as [-> | Hx].
    - unfold Rdiv. rewrite Ropp_0, Rinv_0. ring.
    - field. exact Hx. }
  destruct (Rlt_dec 0 x) as [Hx|Hx].
  - rewrite (AngleFacts.atan2_pos_x y x) by exact Hx.
    destruct (Rle_dec 0 (- y)).
    + left. rewrite AngleFacts.atan2_neg_x_up by lra. now rewrite Hq.
    + right. rewrite AngleFacts.atan2_neg_x_down by lra. now rewrite Hq.
  - destruct (Rlt_dec x 0) as [Hx'|Hx'].
    + rewrite (AngleFacts.atan2_pos_x (- y) (- x)) by lra. rewrite Hq.
      destruct (Rle_dec 0 y).
      * right. rewrite AngleFacts.atan2_neg_x_up by lra. lra.
      * left. rewrite AngleFacts.atan2_neg_x_down by lra. lra.
    + assert (x = 0) as -> by lra. rewrite Ropp_0, !AngleFacts.atan2_zero_x.
      destruct Hnz as [Hnz|Hnz]; [now elim Hnz|].
      destruct (Rlt_dec 0 y); destruct (Rlt_dec y 0);
        destruct (Rlt_dec 0 (- y)); destruct (Rlt_dec (- y) 0);
        try lra; first [left; lra | right; lra].
Qed.

(** Opposite directions have bearings 180 degrees apart. *)
Lemma bearingOfVector_opp (y x : R) :
  x <> 0 \/ y <> 0 ->
  normalize360 (bearingOfVector y x - bearingOfVector (- y) (- x)) = 180.
Proof.
  intros Hnz. unfold bearingOfVector.
  pose proof (degrees_of_turn _ (AngleFacts.atan2_range y x)) as Hb.
  pose proof (degrees_of_turn _ (AngleFacts.atan2_range (- y) (- x))) as Hb'.
  assert (Hrel : atan2 (- y) (- x) * 180 / PI = atan2 y x * 180 / PI + 180 \/
                 atan2 (- y) (- x) * 180 / PI = atan2 y x * 180 / PI - 180).
  { destruct (atan2_opp y x Hnz) as [-> | ->]; [left | right];
      field; apply PI_neq0. }
  rewrite !bearing_of_degrees by assumption.
  set (b := atan2 y x * 180 / PI) in *. set (b' := atan2 (- y) (- x) * 180 / PI) in *.
  destruct (Rlt_dec b 0); destruct (Rlt_dec b' 0); destruct Hrel as [Hrel|Hrel];
    try lra;
    first [ rewrite AngleFacts.normalize360_nonneg by lra; lra
          | rewrite AngleFacts.normalize360_neg by lra; lra ].
Qed.

Lemma sin_nonzero (t : R) : 0 < Rabs t < PI -> sin t <> 0.
Proof.
  unfold Rabs. destruct (Rcase_abs t); intros [Hlo Hhi].
  - pose proof (sin_gt_0 (- t) Hlo Hhi) as Hs. rewrite sin_neg in Hs. lra.
  - pose proof (sin_gt_0 t Hlo Hhi). lra.
Qed.

Lemma radians_abs (a : R) : Rabs (a * PI / 180) = Rabs a * PI / 180.
Proof.
  pose proof PI_RGT_0.
  replace (a * PI / 180) with (a * (PI / 180)) by field.
  rewrite Rabs_mult, (Rabs_pos_eq (PI / 180)) by lra. field.
Qed.

Lemma radians_abs_bound (a : R) :
  0 < Rabs a < 180 -> 0 < Rabs (a * PI / 180) < PI.
Proof.
  intros Ha. rewrite radians_abs. pose proof PI_RGT_0. split; nra.
Qed.

(** C7 (as amended).  The bearings from A to B and from B to A differ by
    exactly 180 degrees modulo 360 when the two points lie on one meridian
    (equal longitudes, different latitudes less than 180 degrees apart), or
    at opposite latitudes strictly between the poles with longitudes that
    differ by less than 180 degrees; then the two initial directions are
    opposite vectors.  It is not so for two distinct points in general. *)
Theorem calculateBearing_reverse (lat1 lon1 lat2 lon2 : R) :
  (lon1 = lon2 /\ lat1 <> lat2 /\ Rabs (lat2 - lat1) < 180) \/
  (lat2 = - lat1 /\ -90 < lat1 < 90 /\ 0 < Rabs (lon2 - lon1) < 180) ->
  normalize360 (calculateBearing lat1 lon1 lat2 lon2 -
                calculateBearing lat2 lon2 lat1 lon1) = 180.
Proof.
  intros Hcase. rewrite !calculateBearing_vector.
  match goal with
  | |- normalize360 (bearingOfVector ?y ?x - bearingOfVector ?y' ?x') = _ =>
      assert (Hvec : y' = - y /\ x' = - x /\ (x <> 0 \/ y <> 0))
  end.
  { destruct Hcase as [(-> & Hne & Hclose) | (-> & Hlat & Hlon)].
    - rewrite !Rminus_diag. replace (0 * PI / 180) with 0 by lra.
      rewrite sin_0, cos_0.
      split; [ring|]. split; [ring|]. left.
      replace (cos (lat1 * PI / 180) * sin (lat2 * PI / 180) -
               sin (lat1 * PI / 180) * cos (lat2 * PI / 180) * 1)
        with (sin (lat2 * PI / 180 - lat1 * PI / 180))
        by (rewrite sin_minus; ring).
      replace (lat2 * PI / 180 - lat1 * PI / 180) with ((lat2 - lat1) * PI / 180)
        by field.
      apply sin_nonzero, radians_abs_bound. split; [|exact Hclose].
      apply Rabs_pos_lt. lra.
    - replace ((lon1 - lon2) * PI / 180) with (- ((lon2 - lon1) * PI / 180)) by field.
      replace (- lat1 * PI / 180) with (- (lat1 * PI / 180)) by field.
      rewrite !sin_neg, !cos_neg.
      split; [ring|]. split; [ring|]. right.
      apply Rmult_integral_contrapositive_currified.
      + now apply sin_nonzero, radians_abs_bound.
      + pose proof PI_RGT_0.
        assert (0 < cos (lat1 * PI / 180)) by (apply cos_gt_0; nra). lra. }
  destruct Hvec as (-> & -> & Hnz). now apply bearingOfVector_opp.
Qed.

(** From the point (0, 0) to the point (45, 90) the bearing is 45 degrees. *)
Lemma calculateBearing_there : calculateBearing 0 0 45 90 = 45.
Proof.
  rewrite calculateBearing_vector.
  replace ((90 - 0) * PI / 180) with (PI / 2) by field.
  replace (0 * PI / 180) with 0 by lra.
  replace (45 * PI / 180) with (PI / 4) by field.
  rewrite sin_PI2, cos_PI2, sin_0, cos_0, sin_PI4, cos_PI4.
  assert (Hs : 0 < 1 / sqrt 2).
  { apply Rdiv_lt_0_compat; [lra | apply sqrt_lt_R0; lra]. }
  set (s := 1 / sqrt 2) in *. unfold bearingOfVector.
  rewrite AngleFacts.atan2_pos_x by lra.
  replace (1 * s / (1 * s - 0 * s * 0)) with 1 by (field; lra).
  rewrite atan_1.
  replace (PI / 4 * 180 / PI) with 45 by (field; apply PI_neq0).
  rewrite AngleFacts.rem_once by lra. lra.
Qed.

(** From (45, 90) back to (0, 0) the bearing is 270 degrees. *)
Lemma calculateBearing_back : calculateBearing 45 90 0 0 = 270.
Proof.
  rewrite calculateBearing_vector.
  replace ((0 - 90) * PI / 180) with (- (PI / 2)) by field.
  replace (0 * PI / 180) with 0 by lra.
  replace (45 * PI / 180) with (PI / 4) by field.
  rewrite sin_neg, cos_neg, sin_PI2, cos_PI2, sin_0, cos_0.
  replace (cos (PI / 4) * 0 - sin (PI / 4) * 1 * 0) with 0 by ring.
  replace (- (1) * 1) with (-1) by ring.
  unfold bearingOfVector. rewrite AngleFacts.atan2_zero_x.
  destruct (Rlt_dec 0 (-1)); [lra|]. destruct (Rlt_dec (-1) 0); [|lra].
  replace (- (PI / 2) * 180 / PI) with (-90) by (field; apply PI_neq0).
  rewrite AngleFacts.rem_small by lra. lra.
Qed.

(** C7, the claim as stated fails: between (0, 0) and (45, 90) the two
    bearings are 45 and 270 degrees; they differ by 135 degrees modulo 360,
    which is 45 degrees away from 180. *)
Lemma calculateBearing_reverse_fails :
  calculateBearing 0 0 45 90 = 45 /\
  calculateBearing 45 90 0 0 = 270 /\
  normalize360 (calculateBearing 0 0 45 90 - calculateBearing 45 90 0 0) = 135 /\
  normalize360 (calculateBearing 45 90 0 0 - calculateBearing 0 0 45 90) = 225.
Proof.
  rewrite calculateBearing_there, calculateBearing_back.
  repeat split.
  - rewrite AngleFacts.normalize360_neg by lra. lra.
  - rewrite AngleFacts.normalize360_nonneg by lra. lra.
Qed.

(** The amended statement between Delhi and the point of the same
    meridian on the equator. *)
Lemma calculateBearing_reverse_witness :
  normalize360 (calculateBearing 28.5562 77.1 0 77.1 -
                calculateBearing 0 77.1 28.5562 77.1) = 180.
Proof.
  apply calculateBearing_reverse. left.
  split; [reflexivity|]. split; [lra|].
  unfold Rabs; destruct (Rcase_abs _); lra.
Defined.

End BearingFacts.

(* ------------------------------------------------------------------ *)
(** ** The stored azimuth *)

Module SunPositionFacts.
Import JsNumber Js Host SunPositionService SeatRecommendation.

(** A host whose solar engine always puts the sun due East, 30 degrees
    above the horizon: azimuth -PI/2 from South. *)
Definition eastSunHost : Env :=
  {| getPosition := fun _ _ _ => (- (PI / 2), PI / 6);
     toLocaleTimeString := fun _ => EmptyString;
     toFixed2 := fun _ => EmptyString;
     parseDate := fun _ => None;
     parseFloat := fun _ => None;
     toISOString := fun _ => EmptyString |}.

(** A waypoint on the equator at the epoch, and one ten degrees north of it
    a second later. *)
Definition originWaypoint : FlightPath.Waypoint :=
  FlightPath.mkWaypoint (Some 0) (Some 0) 0.
Definition northWaypoint : FlightPath.Waypoint :=
  FlightPath.mkWaypoint (Some 10) (Some 0) 1000.

(** The conversion that the specification describes: 180 degrees added to
    the azimuth of a sample. *)
Definition northReferenced (sample : SunPosition) : SunPosition :=
  mkSunPosition (lat sample) (lon sample) (time sample)
                (lift1 (fun a => a + 180) (azimuth sample)) (elevation sample).

Lemma degrees_of_radians (a : R) : a * (180 / PI) * (PI / 180) = a.
Proof. field. apply PI_neq0. Qed.

Lemma degrees_range (a : R) : - PI <= a <= PI -> -180 <= a * (180 / PI) <= 180.
Proof.
  intros [Hlo Hhi]. pose proof PI_RGT_0 as Hpi.
  assert (Hinv : 0 < 180 / PI) by (apply Rdiv_lt_0_compat; lra).
  assert (Hk : PI * (180 / PI) = 180) by (field; apply PI_neq0).
  set (k := 180 / PI) in *. split; nra.
Qed.

(** Along a meridian towards the north the bearing is 0. *)
Lemma calculateBearing_north (lat1 lat2 lon : R) :
  lat1 < lat2 < lat1 + 180 -> calculateBearing lat1 lon lat2 lon = 0.
Proof.
  intros Hlat. rewrite BearingFacts.calculateBearing_vector.
  rewrite Rminus_diag. replace (0 * PI / 180) with 0 by lra.
  rewrite sin_0, cos_0.
  replace (cos (lat1 * PI / 180) * sin (lat2 * PI / 180) -
           sin (lat1 * PI / 180) * cos (lat2 * PI / 180) * 1)
    with (sin ((lat2 - lat1) * PI / 180))
    by (replace ((lat2 - lat1) * PI / 180)
          with (lat2 * PI / 180 - lat1 * PI / 180) by field;
        rewrite sin_minus; ring).
  pose proof PI_RGT_0.
  assert (Hx : 0 < sin ((lat2 - lat1) * PI / 180)) by (apply sin_gt_0; nra).
  unfold BearingFacts.bearingOfVector.
  rewrite AngleFacts.atan2_pos_x by exact Hx.
  replace (0 * cos (lat2 * PI / 180) / sin ((lat2 - lat1) * PI / 180)) with 0
    by (field; lra).
  rewrite atan_0. replace (0 * 180 / PI) with 0 by (field; apply PI_neq0).
  rewrite AngleFacts.rem_once by lra. lra.
Qed.

(** The recommendation for a single visible sample: its stored azimuth is
    reduced modulo 360 and the flight bearing is subtracted from it. *)
Lemma getSeatRecommendation_single (sample : SunPosition) (stored : R)
    (startPoint endPoint : FlightPath.Waypoint) (la1 lo1 la2 lo2 : R) :
  isVisible sample = true ->
  azimuth sample = Some stored ->
  FlightPath.lat startPoint = Some la1 -> FlightPath.lon startPoint = Some lo1 ->
  FlightPath.lat endPoint = Some la2 -> FlightPath.lon endPoint = Some lo2 ->
  getSeatRecommendation [sample] [startPoint; endPoint] =
    sideOfRelative
      (wrapRelative (Some (normalize360 stored - calculateBearing la1 lo1 la2 lo2))).
Proof.
  intros Hvis Haz Hla1 Hlo1 Hla2 Hlo2.
  unfold getSeatRecommendation. cbn [filter]. rewrite Hvis.
  cbn [List.length Nat.eqb last]. unfold calculateBearingNum.
  rewrite Hla1, Hlo1, Hla2, Hlo2.
  unfold averageAzimuth. cbn [fold_left List.length]. rewrite Haz.
  unfold add, sub, lift2, lift1.
  replace ((0 + stored) / INR 1) with stored by (simpl; field).
  reflexivity.
Qed.

Section WithHost.
Context `{Env}.

(** C1 (as amended).  The azimuth stored in the sample of a waypoint is the
    azimuth of the solar engine, measured from South, turned from radians
    into degrees and nothing else: no 180 degrees are added when the sample
    is stored, turning the stored value back into radians gives the
    engine's azimuth, and the stored value lies in [-180, 180] when the
    engine answers in [-PI, PI].  Samples and waypoints correspond index by
    index. *)
Theorem calculateSunPositions_stores_engine_azimuth
    (waypoints : list FlightPath.Waypoint) (departureTime : Z)
    (i : nat) (waypoint : FlightPath.Waypoint) (la lo : R) :
  nth_error waypoints i = Some waypoint ->
  FlightPath.lat waypoint = Some la ->
  FlightPath.lon waypoint = Some lo ->
  let engineAzimuth := fst (getPosition (FlightPath.time waypoint) la lo) in
  List.length (calculateSunPositions waypoints departureTime) = List.length waypoints /\
  exists sample stored,
    nth_error (calculateSunPositions waypoints departureTime) i = Some sample /\
    azimuth sample = Some stored /\
    stored = engineAzimuth * (180 / PI) /\
    stored * (PI / 180) = engineAzimuth /\
    (- PI <= engineAzimuth <= PI -> -180 <= stored <= 180).
Proof.
  intros Hnth Hla Hlo engineAzimuth. unfold calculateSunPositions.
  split; [apply length_map|].
  exists (sunPositionAt waypoint), (engineAzimuth * (180 / PI)).
  assert (Haz : azimuth (sunPositionAt waypoint) = Some (engineAzimuth * (180 / PI))).
  { unfold sunPositionAt, sunAt; simpl. rewrite Hla, Hlo. subst engineAzimuth.
    now destruct (getPosition (FlightPath.time waypoint) la lo). }
  split; [now apply map_nth_error|].
  split; [exact Haz|].
  split; [reflexivity|].
  split; [apply degrees_of_radians | apply degrees_range].
Qed.

End WithHost.

(** Under the eastern sun the sample of the origin: azimuth -90 degrees,
    elevation 30 degrees. *)
Lemma sunPositionAt_east :
  @sunPositionAt eastSunHost originWaypoint
    = mkSunPosition (Some 0) (Some 0) 0 (Some (-90)) (Some 30).
Proof.
  unfold sunPositionAt, sunAt, originWaypoint; simpl.
  f_equal; f_equal; field; apply PI_neq0.
Qed.

Lemma visible_at_30 (la lo az : num) (t : Z) :
  isVisible (mkSunPosition la lo t az (Some 30)) = true.
Proof.
  unfold isVisible, gt, lt, Rltb; simpl. rdec; reflexivity.
Qed.

Lemma sideOfRelative_270 : sideOfRelative (wrapRelative (Some (-90 + 360 - 0))) = RecRight.
Proof.
  unfold sideOfRelative, wrapRelative, ge, gt, le, lt, Rleb, Rltb, add, sub, lift2.
  rdec; reflexivity.
Qed.

Lemma sideOfRelative_90 : sideOfRelative (wrapRelative (Some (-90 + 180 - 0))) = RecLeft.
Proof.
  unfold sideOfRelative, wrapRelative, ge, gt, le, lt, Rleb, Rltb, add, sub, lift2.
  rdec; reflexivity.
Qed.

(** C1, the claim as stated fails: with the sun due East the azimuth stored
    is -90 degrees, the engine's azimuth from South; it is not in 0-360 and
    it is not the map bearing of the East, 90 degrees.  No conversion
    follows before the comparison either: on a flight heading north the
    recommendation computed from the stored value is 'right', where the
    sample with 180 degrees added gives 'left', the side that the comment
    of [getSeatRecommendation] names for a sun on the right. *)
Lemma sunPositionAt_east_is_minus_90 :
  azimuth (@sunPositionAt eastSunHost originWaypoint) = Some (-90) /\
  ~ (0 <= -90 <= 360) /\
  azimuth (@sunPositionAt eastSunHost originWaypoint) <> Some (-90 + 180) /\
  getSeatRecommendation [@sunPositionAt eastSunHost originWaypoint]
                        [originWaypoint; northWaypoint] = RecRight /\
  getSeatRecommendation [northReferenced (@sunPositionAt eastSunHost originWaypoint)]
                        [originWaypoint; northWaypoint] = RecLeft.
Proof.
  rewrite sunPositionAt_east. cbn [azimuth].
  split; [reflexivity|]. split; [lra|].
  split; [intros Heq; injection Heq as Heq; lra|].
  split.
  - rewrite (getSeatRecommendation_single _ (-90) originWaypoint northWaypoint 0 0 10 0)
      by (try apply visible_at_30; reflexivity).
    rewrite AngleFacts.normalize360_neg by lra.
    rewrite calculateBearing_north by lra. apply sideOfRelative_270.
  - unfold northReferenced; cbn [lat lon time azimuth elevation lift1].
    rewrite (getSeatRecommendation_single _ (-90 + 180) originWaypoint northWaypoint 0 0 10 0)
      by (try apply visible_at_30; reflexivity).
    rewrite AngleFacts.normalize360_nonneg by lra.
    rewrite calculateBearing_north by lra. apply sideOfRelative_90.
Qed.

(** The amended statement at the waypoint of the equator under the eastern
    sun. *)
Lemma calculateSunPositions_stores_engine_azimuth_witness :
  List.length (@calculateSunPositions eastSunHost [originWaypoint] 0) = 1%nat /\
  exists sample stored,
    nth_error (@calculateSunPositions eastSunHost [originWaypoint] 0) 0 = Some sample /\
    azimuth sample = Some stored /\
    stored = - (PI / 2) * (180 / PI) /\
    stored * (PI / 180) = - (PI / 2) /\
    (- PI <= - (PI / 2) <= PI -> -180 <= stored <= 180).
Proof.
  exact (@calculateSunPositions_stores_engine_azimuth eastSunHost
           [originWaypoint] 0 0 originWaypoint 0 0 eq_refl eq_refl eq_refl).
Defined.

End SunPositionFacts.

(* ------------------------------------------------------------------ *)
(** ** Great-circle interpolation *)

Module InterpolationFacts.
Import JsNumber FlightPath EnhancedSunAnalysis.

(** *** The haversine of the central angle *)

Definition haversine (lat1 lat2 dLon : R) : R :=
  sin ((lat2 - lat1) / 2) ^ 2 + cos lat1 * cos lat2 * sin (dLon / 2) ^ 2.

Lemma centralAngle_haversine (lat1 lon1 lat2 lon2 : R) :
  centralAngle lat1 lon1 lat2 lon2 = 2 * asin (sqrt (haversine lat1 lat2 (lon2 - lon1))).
Proof. reflexivity. Qed.

Lemma haversine_complement_algebra (sa ca sb cb sd cd : R) :
  sa * sa + ca * ca = 1 -> sb * sb + cb * cb = 1 -> sd * sd + cd * cd = 1 ->
  1 - (sb ^ 2 + (ca * cb + sa * sb) * (ca * cb - sa * sb) * sd ^ 2)
  = sa ^ 2 + (ca * cb + sa * sb) * (ca * cb - sa * sb) * cd ^ 2.
Proof.
  intros Ha Hb Hd.
  assert (Ha' : ca * ca = 1 - sa * sa) by lra.
  assert (Hb' : cb * cb = 1 - sb * sb) by lra.
  assert (Hd' : cd * cd = 1 - sd * sd) by lra.
  replace ((ca * cb + sa * sb) * (ca * cb - sa * sb))
    with ((ca * ca) * (cb * cb) - (sa * sa) * (sb * sb)) by ring.
  replace (cd ^ 2) with (cd * cd) by ring.
  rewrite Ha', Hb', Hd'. ring.
Qed.

(** What the haversine leaves below 1. *)
Lemma haversine_complement (lat1 lat2 dLon : R) :
  1 - haversine lat1 lat2 dLon
  = sin ((lat1 + lat2) / 2) ^ 2 + cos lat1 * cos lat2 * cos (dLon / 2) ^ 2.
Proof.
  unfold haversine.
  replace (cos lat1) with (cos ((lat1 + lat2) / 2 - (lat2 - lat1) / 2))
    by (f_equal; field).
  replace (cos lat2) with (cos ((lat1 + lat2) / 2 + (lat2 - lat1) / 2))
    by (f_equal; field).
  rewrite cos_plus, cos_minus.
  apply haversine_complement_algebra; exact (sin2_cos2 _).
Qed.

Lemma cos_nonzero (t : R) : Rabs t < PI -> Rabs t <> PI / 2 -> cos t <> 0.
Proof.
  unfold Rabs. destruct (Rcase_abs t); intros Hlt Hne.
  - destruct (Rlt_dec (- t) (PI / 2)).
    + pose proof (cos_gt_0 t ltac:(lra) ltac:(lra)). lra.
    + pose proof (cos_lt_0 (- t) ltac:(lra) ltac:(lra)) as Hc.
      rewrite cos_neg in Hc. lra.
  - destruct (Rlt_dec t (PI / 2)).
    + pose proof (cos_gt_0 t ltac:(lra) ltac:(lra)). lra.
    + pose proof (cos_lt_0 t ltac:(lra) ltac:(lra)). lra.
Qed.

Lemma square_pos (s : R) : s <> 0 -> 0 < s ^ 2.
Proof. intros Hs. simpl. rewrite Rmult_1_r. nra. Qed.

Lemma square_nonneg (s : R) : 0 <= s ^ 2.
Proof. apply pow2_ge_0. Qed.

Section Radians.
Variables lat1 lat2 dLon : R.
Hypothesis Hlat1 : - (PI / 2) < lat1 < PI / 2.
Hypothesis Hlat2 : - (PI / 2) < lat2 < PI / 2.
Hypothesis HdLon : Rabs dLon < 2 * PI.

Lemma cos_lats_pos : 0 < cos lat1 * cos lat2.
Proof. apply Rmult_lt_0_compat; apply cos_gt_0; lra. Qed.

(** Different points have a positive haversine. *)
Lemma haversine_pos : lat1 <> lat2 \/ dLon <> 0 -> 0 < haversine lat1 lat2 dLon.
Proof.
  intros Hne. unfold haversine. pose proof cos_lats_pos as Hc.
  pose proof (square_nonneg (sin ((lat2 - lat1) / 2))) as H1.
  pose proof (square_nonneg (sin (dLon / 2))) as H2.
  destruct Hne as [Hne|Hne].
  - assert (Hs : sin ((lat2 - lat1) / 2) <> 0).
    { apply BearingFacts.sin_nonzero. unfold Rabs; destruct (Rcase_abs _); lra. }
    apply square_pos in Hs. nra.
  - assert (Hs : sin (dLon / 2) <> 0).
    { apply BearingFacts.sin_nonzero. revert HdLon.
      unfold Rabs; destruct (Rcase_abs dLon); destruct (Rcase_abs (dLon / 2)); lra. }
    apply square_pos in Hs. nra.
Qed.

(** Points that are not antipodal have a haversine below 1. *)
Lemma haversine_lt_1 :
  lat1 + lat2 <> 0 \/ Rabs dLon <> PI -> haversine lat1 lat2 dLon < 1.
Proof.
  intros Hne. pose proof (haversine_complement lat1 lat2 dLon) as Hcompl.
  pose proof cos_lats_pos as Hc.
  pose proof (square_nonneg (sin ((lat1 + lat2) / 2))) as H1.
  pose proof (square_nonneg (cos (dLon / 2))) as H2.
  destruct Hne as [Hne|Hne].
  - assert (Hs : sin ((lat1 + lat2) / 2) <> 0).
    { apply BearingFacts.sin_nonzero. unfold Rabs; destruct (Rcase_abs _); lra. }
    apply square_pos in Hs. nra.
  - assert (Hs : cos (dLon / 2) <> 0).
    { apply cos_nonzero; revert HdLon Hne;
        unfold Rabs; destruct (Rcase_abs dLon); destruct (Rcase_abs (dLon / 2)); lra. }
    apply square_pos in Hs. nra.
Qed.

End Radians.

(** For a haversine strictly between 0 and 1 the central angle is strictly
    between 0 and PI, and its sine is positive. *)
Lemma sin_central_pos (h : R) : 0 < h < 1 -> 0 < sin (2 * asin (sqrt h)).
Proof.
  intros [Hlo Hhi].
  assert (Hs : 0 < sqrt h < 1).
  { split; [now apply sqrt_lt_R0|]. rewrite <- sqrt_1. apply sqrt_lt_1; lra. }
  pose proof (asin_bound_lt (sqrt h) ltac:(lra)) as [Ha1 Ha2].
  assert (Hpos : 0 < asin (sqrt h)).
  { destruct (Rlt_dec 0 (asin (sqrt h))) as [|Hn]; [assumption|].
    pose proof (sin_ge_0 (- asin (sqrt h)) ltac:(lra) ltac:(lra)) as Hsin.
    rewrite sin_neg, sin_asin in Hsin by lra. lra. }
  apply sin_gt_0; lra.
Qed.

(** *** Back from the unit vector to the angles *)

Lemma tan_quotient (r theta : R) :
  r <> 0 -> cos theta <> 0 -> r * sin theta / (r * cos theta) = tan theta.
Proof. intros Hr Hc. unfold tan. field. split; assumption. Qed.

(** [atan2] recovers the angle of a point given in polar form. *)
Lemma atan2_polar (r theta : R) :
  0 < r -> - PI < theta <= PI -> atan2 (r * sin theta) (r * cos theta) = theta.
Proof.
  intros Hr [Hlo Hhi]. pose proof PI_RGT_0 as Hpi.
  destruct (Rlt_dec theta (- (PI / 2))) as [Hq3|Hq3].
  - (* third quadrant *)
    assert (Hc : cos (theta + PI) > 0) by (apply cos_gt_0; lra).
    assert (Hs : sin (theta + PI) > 0) by (apply sin_gt_0; lra).
    rewrite neg_cos in Hc. rewrite neg_sin in Hs.
    rewrite AngleFacts.atan2_neg_x_down by nra.
    rewrite tan_quotient by lra.
    replace (tan theta) with (tan (theta + PI))
      by (unfold tan; rewrite neg_sin, neg_cos; field; lra).
    rewrite atan_tan by lra. lra.
  - destruct (Req_dec theta (- (PI / 2))) as [-> | Hm].
    + rewrite sin_neg, cos_neg, sin_PI2, cos_PI2.
      replace (r * 0) with 0 by ring. rewrite AngleFacts.atan2_zero_x.
      destruct (Rlt_dec 0 (r * - (1))); [nra|].
      destruct (Rlt_dec (r * - (1)) 0); [reflexivity | nra].
    + destruct (Rlt_dec theta (PI / 2)) as [Hq1|Hq1].
      * (* right half-plane *)
        assert (Hc : 0 < cos theta) by (apply cos_gt_0; lra).
        rewrite AngleFacts.atan2_pos_x by nra.
        rewrite tan_quotient by lra. apply atan_tan. lra.
      * destruct (Req_dec theta (PI / 2)) as [-> | Hp].
        -- rewrite sin_PI2, cos_PI2.
           replace (r * 0) with 0 by ring. rewrite AngleFacts.atan2_zero_x.
           destruct (Rlt_dec 0 (r * 1)); [reflexivity | nra].
        -- (* second quadrant *)
           assert (Hc : cos theta < 0) by (apply cos_lt_0; lra).
           assert (Hs : 0 <= sin theta) by (apply sin_ge_0; lra).
           rewrite AngleFacts.atan2_neg_x_up by nra.
           rewrite tan_quotient by lra.
           replace (tan theta) with (tan (theta - PI)).
           ++ rewrite atan_tan by lra. lra.
           ++ unfold tan.
              replace theta with (theta - PI + PI) at 3 4 by ring.
              rewrite neg_sin, neg_cos. field.
              replace theta with (theta - PI + PI) in Hc by ring.
              rewrite neg_cos in Hc. lra.
Qed.

(** The unit vector of a point strictly between the poles gives the point
    back. *)
Lemma unit_vector_angles (lat lon : R) :
  - (PI / 2) < lat < PI / 2 -> - PI < lon <= PI ->
  let x := cos lat * cos lon in
  let y := cos lat * sin lon in
  let z := sin lat in
  atan2 z (sqrt (x * x + y * y)) = lat /\ atan2 y x = lon.
Proof.
  intros Hlat Hlon x y z.
  assert (Hc : 0 < cos lat) by (apply cos_gt_0; lra).
  assert (Hnorm : sqrt (x * x + y * y) = cos lat).
  { subst x y.
    replace (cos lat * cos lon * (cos lat * cos lon) +
             cos lat * sin lon * (cos lat * sin lon))
      with (cos lat * cos lat * (Rsqr (sin lon) + Rsqr (cos lon)))
      by (unfold Rsqr; ring).
    rewrite sin2_cos2, Rmult_1_r. apply sqrt_square. lra. }
  split.
  - rewrite Hnorm, AngleFacts.atan2_pos_x by exact Hc.
    subst z. change (sin lat / cos lat) with (tan lat). apply atan_tan. lra.
  - subst x y. now apply atan2_polar.
Qed.

Lemma blend_first (lat1 lon1 lat2 lon2 : R) :
  - (PI / 2) < lat1 < PI / 2 -> - PI < lon1 <= PI ->
  blend lat1 lon1 lat2 lon2 1 0 = (lat1 * 180 / PI, lon1 * 180 / PI).
Proof.
  intros Hlat Hlon. unfold blend; cbv zeta.
  replace (1 * cos lat1 * cos lon1 + 0 * cos lat2 * cos lon2)
    with (cos lat1 * cos lon1) by ring.
  replace (1 * cos lat1 * sin lon1 + 0 * cos lat2 * sin lon2)
    with (cos lat1 * sin lon1) by ring.
  replace (1 * sin lat1 + 0 * sin lat2) with (sin lat1) by ring.
  destruct (unit_vector_angles lat1 lon1 Hlat Hlon) as [-> ->]. reflexivity.
Qed.

Lemma blend_second (lat1 lon1 lat2 lon2 : R) :
  - (PI / 2) < lat2 < PI / 2 -> - PI < lon2 <= PI ->
  blend lat1 lon1 lat2 lon2 0 1 = (lat2 * 180 / PI, lon2 * 180 / PI).
Proof.
  intros Hlat Hlon. unfold blend; cbv zeta.
  replace (0 * cos lat1 * cos lon1 + 1 * cos lat2 * cos lon2)
    with (cos lat2 * cos lon2) by ring.
  replace (0 * cos lat1 * sin lon1 + 1 * cos lat2 * sin lon2)
    with (cos lat2 * sin lon2) by ring.
  replace (0 * sin lat1 + 1 * sin lat2) with (sin lat2) by ring.
  destruct (unit_vector_angles lat2 lon2 Hlat Hlon) as [-> ->]. reflexivity.
Qed.

(** *** The two interpolators at the ends of the path *)

(** A point strictly between the poles, with its longitude in (-180, 180]. *)
Definition validPoint (a : Coords) : Prop :=
  -90 < fst a < 90 /\ -180 < snd a <= 180.

(** Two points opposite to each other on the sphere. *)
Definition antipodal (a b : Coords) : Prop :=
  fst a + fst b = 0 /\ Rabs (snd b - snd a) = 180.

Lemma radians_latitude (phi : R) :
  -90 < phi < 90 -> - (PI / 2) < phi * PI / 180 < PI / 2.
Proof. intros Hphi. pose proof PI_RGT_0. split; nra. Qed.

Lemma radians_longitude (lambda : R) :
  -180 < lambda <= 180 -> - PI < lambda * PI / 180 <= PI.
Proof. intros Hl. pose proof PI_RGT_0. split; nra. Qed.

Lemma radians_injective (u v : R) : u * PI / 180 = v * PI / 180 -> u = v.
Proof.
  intros Huv. pose proof PI_RGT_0.
  assert (Hz : (u - v) * (PI / 180) = 0) by lra.
  apply Rmult_integral in Hz as [Hz|Hz]; lra.
Qed.

Lemma radians_roundtrip (phi : R) : phi * PI / 180 * 180 / PI = phi.
Proof. field. apply PI_neq0. Qed.

(** Between two valid points that are neither equal nor antipodal the
    central angle has a positive sine. *)
Lemma sin_centralAngle_pos (a b : Coords) :
  validPoint a -> validPoint b -> a <> b -> ~ antipodal a b ->
  0 < sin (centralAngle (fst a * PI / 180) (snd a * PI / 180)
                        (fst b * PI / 180) (snd b * PI / 180)).
Proof.
  intros [Hla Hlo] [Hlb Hlob] Hne Hanti.
  rewrite centralAngle_haversine. apply sin_central_pos.
  pose proof (radians_latitude _ Hla) as Ha. pose proof (radians_latitude _ Hlb) as Hb.
  pose proof PI_RGT_0 as Hpi.
  assert (Hd : Rabs (snd b * PI / 180 - snd a * PI / 180) < 2 * PI).
  { pose proof (radians_longitude _ Hlo). pose proof (radians_longitude _ Hlob).
    unfold Rabs; destruct (Rcase_abs _); lra. }
  split.
  - apply haversine_pos; try assumption.
    destruct (Req_dec (fst a) (fst b)) as [Hf|Hf].
    + right. intros Hz. apply Hne.
      assert (snd a = snd b) by (apply radians_injective; lra).
      destruct a, b; simpl in *; congruence.
    + left. intros Hz. apply Hf. now apply radians_injective.
  - apply haversine_lt_1; try assumption.
    destruct (Req_dec (fst a + fst b) 0) as [Hs|Hs].
    + right. intros Hz. apply Hanti. split; [exact Hs|].
      replace (snd b * PI / 180 - snd a * PI / 180)
        with ((snd b - snd a) * PI / 180) in Hz by field.
      rewrite BearingFacts.radians_abs in Hz.
      apply radians_injective. lra.
    + left. intros Hz. apply Hs.
      apply radians_injective. lra.
Qed.

(** The path sampler's interpolator at the two ends. *)
Lemma calculateGreatCircle_ends (a b : Coords) :
  validPoint a -> validPoint b -> a <> b -> ~ antipodal a b ->
  calculateGreatCircle a b 0 = Some a /\ calculateGreatCircle a b 1 = Some b.
Proof.
  intros Ha Hb Hne Hanti.
  pose proof (sin_centralAngle_pos a b Ha Hb Hne Hanti) as Hsin.
  destruct Ha as [Hla Hlo], Hb as [Hlb Hlob].
  unfold calculateGreatCircle; cbv zeta.
  set (d := centralAngle _ _ _ _) in *.
  unfold div0. destruct (Req_dec_T (sin d) 0) as [Hz|_]; [lra|].
  split.
  - replace ((1 - 0) * d) with d by ring. replace (0 * d) with 0 by ring.
    rewrite sin_0. replace (sin d / sin d) with 1 by (field; lra).
    replace (0 / sin d) with 0 by (field; lra).
    rewrite blend_first
      by (try apply radians_latitude; try apply radians_longitude; assumption).
    rewrite !radians_roundtrip. now destruct a.
  - replace ((1 - 1) * d) with 0 by ring. replace (1 * d) with d by ring.
    rewrite sin_0. replace (sin d / sin d) with 1 by (field; lra).
    replace (0 / sin d) with 0 by (field; lra).
    rewrite blend_second
      by (try apply radians_latitude; try apply radians_longitude; assumption).
    rewrite !radians_roundtrip. now destruct b.
Qed.

(** The guards of the analysis sampler's interpolator. *)
Lemma interpolateGreatCircle_from (a b : Coords) (f : R) :
  f <= 0 -> interpolateGreatCircle a b (Some f) = Some a.
Proof.
  intros Hf. unfold interpolateGreatCircle, le, Rleb.
  destruct (Rle_dec f 0); [reflexivity | lra].
Qed.

Lemma interpolateGreatCircle_to (a b : Coords) (f : R) :
  1 <= f -> interpolateGreatCircle a b (Some f) = Some b.
Proof.
  intros Hf. unfold interpolateGreatCircle, ge, le, Rleb.
  destruct (Rle_dec f 0); [lra|]. destruct (Rle_dec 1 f); [reflexivity | lra].
Qed.

(** Identical endpoints inside the path: the analysis sampler's
    interpolator divides by [sin 0]. *)
Lemma interpolateGreatCircle_same (a : Coords) (f : R) :
  0 < f < 1 -> interpolateGreatCircle a a (Some f) = None.
Proof.
  intros Hf. unfold interpolateGreatCircle, ge, le, Rleb.
  destruct (Rle_dec f 0); [lra|]. destruct (Rle_dec 1 f); [lra|].
  rewrite !Rminus_diag. replace (0 / 2) with 0 by lra. rewrite sin_0.
  replace (0 ^ 2 + cos (fst a * PI / 180) * cos (fst a * PI / 180) * 0 ^ 2)
    with 0 by ring.
  rewrite sqrt_0, asin_0. replace (2 * 0) with 0 by ring. rewrite sin_0.
  unfold div0. destruct (Req_dec_T 0 0) as [_|Hn]; [reflexivity | now elim Hn].
Qed.

Lemma DEL_valid : validPoint FlightPathFacts.DEL.
Proof. unfold validPoint, FlightPathFacts.DEL; simpl. lra. Qed.

Lemma JAI_valid : validPoint FlightPathFacts.JAI.
Proof. unfold validPoint, FlightPathFacts.JAI; simpl. lra. Qed.

(** C5, at the failing input.  Between Delhi and Delhi the central angle is
    0: the path sampler's interpolator divides by [sin 0 = 0] already at
    fraction 0 and returns NaN coordinates instead of Delhi, and so it does
    at fraction 1.  The analysis sampler's interpolator returns Delhi
    there, by its guards on the fraction; strictly inside the path it
    divides by [sin 0] as well. *)
Lemma calculateGreatCircle_DEL_DEL :
  sin (centralAngle (28.5562 * PI / 180) (77.1000 * PI / 180)
                    (28.5562 * PI / 180) (77.1000 * PI / 180)) = 0 /\
  calculateGreatCircle FlightPathFacts.DEL FlightPathFacts.DEL 0 = None /\
  calculateGreatCircle FlightPathFacts.DEL FlightPathFacts.DEL 0
    <> Some FlightPathFacts.DEL /\
  calculateGreatCircle FlightPathFacts.DEL FlightPathFacts.DEL 1 = None /\
  interpolateGreatCircle FlightPathFacts.DEL FlightPathFacts.DEL (Some 0)
    = Some FlightPathFacts.DEL /\
  interpolateGreatCircle FlightPathFacts.DEL FlightPathFacts.DEL (Some 1)
    = Some FlightPathFacts.DEL /\
  interpolateGreatCircle FlightPathFacts.DEL FlightPathFacts.DEL (Some (1 / 2)) = None.
Proof.
  split; [rewrite FlightPathFacts.centralAngle_same; apply sin_0|].
  rewrite !FlightPathFacts.calculateGreatCircle_same.
  split; [reflexivity|]. split; [discriminate|]. split; [reflexivity|].
  split; [apply interpolateGreatCircle_from; lra|].
  split; [apply interpolateGreatCircle_to; lra|].
  apply interpolateGreatCircle_same. lra.
Qed.

End InterpolationFacts.

(* ------------------------------------------------------------------ *)
(** ** The analysis from the airports to the report *)

Module PipelineFacts.
Import JsNumber Js Host FlightPath EnhancedSunAnalysis.

(** The events recorded go with their flags. *)
Definition eventsPresent (events : Events.t) : Prop :=
  (Events.willSeeSunrise events = true -> Events.sunrise events <> None) /\
  (Events.willSeeSunset events = true -> Events.sunset events <> None).

Lemma countCondition_present (events : Events.t) (current : SunCondition.t) :
  eventsPresent events -> eventsPresent (countCondition events current).
Proof.
  unfold eventsPresent.
  destruct (EventFacts.countCondition_sunrise events current) as (-> & -> & -> & ->).
  auto.
Qed.

(** The number of samples whose condition satisfies [p]. *)
Definition countWhere (p : Condition -> bool) (samples : list SunCondition.t) : nat :=
  List.length (filter (fun s => p (SunCondition.condition s)) samples).

Definition nightLike (c : Condition) : bool :=
  match c with NIGHT | TWILIGHT => true | _ => false end.
Definition isDaylight (c : Condition) : bool :=
  match c with DAYLIGHT => true | _ => false end.
Definition isGoldenHour (c : Condition) : bool :=
  match c with GOLDEN_HOUR => true | _ => false end.

Lemma countWhere_cons (p : Condition -> bool) (s : SunCondition.t)
    (samples : list SunCondition.t) :
  INR (countWhere p (s :: samples))
    = (if p (SunCondition.condition s) then 1 else 0) + INR (countWhere p samples).
Proof.
  unfold countWhere. cbn [filter].
  destruct (p (SunCondition.condition s)); cbn [List.length].
  - rewrite S_INR. ring.
  - ring.
Qed.

Section WithHost.
Context `{Env}.

Lemma detectTransitions_present (events : Events.t) (prev current : SunCondition.t) :
  eventsPresent events -> eventsPresent (detectTransitions events prev current).
Proof.
  unfold eventsPresent. intros [Hr Hs].
  destruct (EventFacts.detectTransitions_sunrise events prev current) as [-> ->].
  destruct (EventFacts.detectTransitions_sunset events prev current) as [-> ->].
  split.
  - destruct (isSunriseCrossing prev current); [discriminate | exact Hr].
  - destruct (isSunsetCrossing prev current); [discriminate | exact Hs].
Qed.

Lemma detectLoop_present (rest : list SunCondition.t) :
  forall (events : Events.t) (prev : option SunCondition.t),
    eventsPresent events -> eventsPresent (detectLoop events prev rest).
Proof.
  induction rest as [|current rest IH]; intros events prev Hp; simpl.
  - exact Hp.
  - apply IH. destruct prev as [p|].
    + now apply detectTransitions_present, countCondition_present.
    + now apply countCondition_present.
Qed.

Lemma detectSunEvents_present (sunAnalysis : list SunCondition.t) :
  eventsPresent (detectSunEvents sunAnalysis).
Proof.
  apply detectLoop_present. split; simpl; discriminate.
Qed.

Lemma detectTransitions_minutes (events : Events.t) (prev current : SunCondition.t) :
  Events.nightMinutes (detectTransitions events prev current) = Events.nightMinutes events /\
  Events.dayMinutes (detectTransitions events prev current) = Events.dayMinutes events /\
  Events.goldenHourMinutes (detectTransitions events prev current)
    = Events.goldenHourMinutes events.
Proof.
  unfold detectTransitions.
  destruct (isSunriseCrossing prev current), (isSunsetCrossing prev current);
    simpl; auto.
Qed.

Lemma countCondition_minutes (events : Events.t) (current : SunCondition.t)
    (night day golden : R) :
  Events.nightMinutes events = Some night ->
  Events.dayMinutes events = Some day ->
  Events.goldenHourMinutes events = Some golden ->
  let c := SunCondition.condition current in
  Events.nightMinutes (countCondition events current)
    = Some (night + 15 * (if nightLike c then 1 else 0)) /\
  Events.dayMinutes (countCondition events current)
    = Some (day + 15 * (if isDaylight c then 1 else 0)) /\
  Events.goldenHourMinutes (countCondition events current)
    = Some (golden + 15 * (if isGoldenHour c then 1 else 0)).
Proof.
  intros Hn Hd Hg c. subst c. unfold countCondition.
  destruct (SunCondition.condition current); simpl;
    rewrite ?Hn, ?Hd, ?Hg; simpl; repeat split; f_equal; ring.
Qed.

Lemma detectLoop_minutes (rest : list SunCondition.t) :
  forall (events : Events.t) (prev : option SunCondition.t) (night day golden : R),
    Events.nightMinutes events = Some night ->
    Events.dayMinutes events = Some day ->
    Events.goldenHourMinutes events = Some golden ->
    Events.nightMinutes (detectLoop events prev rest)
      = Some (night + 15 * INR (countWhere nightLike rest)) /\
    Events.dayMinutes (detectLoop events prev rest)
      = Some (day + 15 * INR (countWhere isDaylight rest)) /\
    Events.goldenHourMinutes (detectLoop events prev rest)
      = Some (golden + 15 * INR (countWhere isGoldenHour rest)).
Proof.
  induction rest as [|current rest IH]; intros events prev night day golden Hn Hd Hg.
  - simpl. rewrite Hn, Hd, Hg. repeat split; f_equal; unfold countWhere; simpl; ring.
  - cbn [detectLoop].
    destruct (countCondition_minutes events current night day golden Hn Hd Hg)
      as (Hn1 & Hd1 & Hg1).
    rewrite !countWhere_cons.
    match goal with
    | |- context [detectLoop ?e ?p rest] =>
        destruct (IH e p _ _ _
                    ltac:(destruct prev;
                          [rewrite (proj1 (detectTransitions_minutes _ _ _))|];
                          exact Hn1)
                    ltac:(destruct prev;
                          [rewrite (proj1 (proj2 (detectTransitions_minutes _ _ _)))|];
                          exact Hd1)
                    ltac:(destruct prev;
                          [rewrite (proj2 (proj2 (detectTransitions_minutes _ _ _)))|];
                          exact Hg1))
          as (-> & -> & ->)
    end.
    repeat split; f_equal; ring.
Qed.

(** X3.  The durations that [detectSunEvents] reports are sample counts
    times the sampling interval of 15 minutes: night minutes count the
    NIGHT and the TWILIGHT samples, day minutes the DAYLIGHT samples and
    golden-hour minutes the GOLDEN_HOUR samples. *)
Theorem detectSunEvents_minutes (sunAnalysis : list SunCondition.t) :
  Events.nightMinutes (detectSunEvents sunAnalysis)
    = Some (15 * INR (countWhere nightLike sunAnalysis)) /\
  Events.dayMinutes (detectSunEvents sunAnalysis)
    = Some (15 * INR (countWhere isDaylight sunAnalysis)) /\
  Events.goldenHourMinutes (detectSunEvents sunAnalysis)
    = Some (15 * INR (countWhere isGoldenHour sunAnalysis)).
Proof.
  unfold detectSunEvents.
  destruct (detectLoop_minutes sunAnalysis initialEvents None 0 0 0
              eq_refl eq_refl eq_refl) as (-> & -> & ->).
  repeat split; f_equal; ring.
Qed.

(** With the events that go with their flags and two airports of the table
    the report builder returns a report. *)
Lemma generateFlightSunReport_returns (events : Events.t)
    (sunAnalysis : list SunCondition.t) (fromAirport toAirport : string)
    (fromCoords toCoords : Coords) :
  eventsPresent events ->
  lookup fromAirport = Some fromCoords -> lookup toAirport = Some toCoords ->
  exists report,
    generateFlightSunReport events sunAnalysis fromAirport toAirport = Ok report.
Proof.
  intros [Hr Hs] Hfrom Hto. unfold generateFlightSunReport.
  unfold bothBranch, sunriseBranch, sunsetBranch,
    determineSeatSideForSunrise, determineSeatSideForSunset.
  rewrite Hfrom, Hto.
  destruct (Events.willSeeSunrise events) eqn:Hwr;
    destruct (Events.willSeeSunset events) eqn:Hws; simpl.
  - destruct (Events.sunrise events); [|now elim (Hr eq_refl)].
    destruct (Events.sunset events); [|now elim (Hs eq_refl)].
    simpl. eexists; reflexivity.
  - destruct (Events.sunrise events); [|now elim (Hr eq_refl)].
    simpl. eexists; reflexivity.
  - destruct (Events.sunset events); [|now elim (Hs eq_refl)].
    simpl. eexists; reflexivity.
  - eexists; reflexivity.
Qed.


End WithHost.

(** A host whose date parser knows the evening of 2025-08-01, 18:00 UTC,
    as the handler receives it and as the analysis writes it, and whose
    number parser knows the duration 2. *)
Definition eveningHost : Env :=
  {| getPosition := fun _ _ _ => (0, 0);
     toLocaleTimeString := fun _ => EmptyString;
     toFixed2 := fun _ => EmptyString;
     parseDate := fun s =>
       if (String.eqb s "2025-08-01T18:00:00.000Z" || String.eqb s "2025-08-01T18:00:00Z")%bool
       then Some 1754071200000%Z else None;
     parseFloat := fun s => if String.eqb s "2" then Some 2 else None;
     toISOString := fun _ => "2025-08-01T18:00:00.000Z"%string |}.

(** That evening leaves room for a flight of up to a day, in both
    directions of time. *)
Lemma evening_arrival (flightDuration : R) :
  -24 <= flightDuration <= 24 ->
  ReportFacts.arrivalInRange 1754071200000 flightDuration.
Proof.
  intros Hd. unfold ReportFacts.arrivalInRange, maxTime.
  unfold Rabs. destruct (Rcase_abs _); lra.
Qed.


(** X5.  A code that is not in the table makes [calculateFlightPath] throw
    the error that names both codes as they were given. *)
Theorem calculateFlightPath_unknown_airport (fromAirport toAirport : string)
    (departureTime : Z) :
  lookup (toUpperCase fromAirport) = None \/ lookup (toUpperCase toAirport) = None ->
  calculateFlightPath fromAirport toAirport departureTime
    = Throw (AirportNotFound fromAirport toAirport).
Proof.
  intros [Hnone|Hnone]; unfold calculateFlightPath; rewrite Hnone.
  - reflexivity.
  - now destruct (lookup (toUpperCase fromAirport)).
Qed.

(** The unknown code ZZZ. *)
Lemma calculateFlightPath_unknown_airport_witness :
  calculateFlightPath "ZZZ" "DEL" 0 = Throw (AirportNotFound "ZZZ" "DEL").
Proof.
  apply calculateFlightPath_unknown_airport. left. reflexivity.
Defined.

(** X6.  The bearing of a flight is normalised into [0, 360), whatever the
    two points. *)
Theorem calculateBearing_normalised (lat1 lon1 lat2 lon2 : R) :
  0 <= SeatRecommendation.calculateBearing lat1 lon1 lat2 lon2 < 360.
Proof. apply AngleFacts.calculateBearing_range. Qed.

(** X7.  Without a sample whose elevation is strictly between 0 and 80
    degrees the recommendation is the sentence that no window seat is
    best, whatever the path. *)
Theorem getSeatRecommendation_no_visible_sun
    (sunPositions : list SunPositionService.SunPosition)
    (flightPath : list Waypoint) :
  (forall pos, In pos sunPositions -> SeatRecommendation.isVisible pos = false) ->
  SeatRecommendation.getSeatRecommendation sunPositions flightPath
    = SeatRecommendation.NoOptimalWindowSeat.
Proof.
  intros Hnone. unfold SeatRecommendation.getSeatRecommendation.
  replace (filter SeatRecommendation.isVisible sunPositions) with
    (@nil SunPositionService.SunPosition); [reflexivity|].
  symmetry. induction sunPositions as [|pos rest IH]; [reflexivity|].
  cbn [filter]. rewrite (Hnone pos (or_introl eq_refl)).
  apply IH. intros q Hq. apply Hnone. now right.
Qed.

(** A night sample: the sun 12 degrees below the horizon. *)
Lemma getSeatRecommendation_no_visible_sun_witness :
  SeatRecommendation.getSeatRecommendation
    [SunPositionService.mkSunPosition (Some 0) (Some 0) 0 (Some 0) (Some (-12))] []
    = SeatRecommendation.NoOptimalWindowSeat.
Proof.
  apply getSeatRecommendation_no_visible_sun.
  intros pos [<- | []].
  unfold SeatRecommendation.isVisible, gt, lt, Rltb; simpl.
  destruct (Rlt_dec 0 (-12)); [lra | reflexivity].
Defined.

End PipelineFacts.

(* ------------------------------------------------------------------ *)
(** ** The answers of the handler *)

Module HandlerFacts.
Import JsNumber Js FlightPath Host RouteHandler.

Section WithHost.
Context `{Env}.

(** X8.  The two 400 answers of the handler.  It answers 'Missing required
    parameters' exactly when [from], [to] or [depart] is absent or empty,
    and 'Invalid departure time format' exactly when the three are present
    and the departure string is not a date: both tests come before any
    airport is looked up. *)
Theorem routeHandler_validation (query : Query) :
  (routeHandler query = MissingParameters <->
   truthy (from query) = None \/ truthy (to query) = None \/
   truthy (depart query) = None) /\
  (routeHandler query = InvalidDepartureTime <->
   exists fromAirport toAirport departString,
     truthy (from query) = Some fromAirport /\
     truthy (to query) = Some toAirport /\
     truthy (depart query) = Some departString /\
     parseDate departString = None).
Proof.
  unfold routeHandler.
  destruct (truthy (from query)) as [fromAirport|];
  destruct (truthy (to query)) as [toAirport|];
  destruct (truthy (depart query)) as [departString|];
  try (split; split;
       [ intros _; auto
       | reflexivity
       | discriminate
       | intros (x1 & x2 & x3 & Hx1 & Hx2 & Hx3 & _); discriminate ]).
  destruct (parseDate departString) as [departureTime|] eqn:Hdate.
  - destruct (calculateFlightPath fromAirport toAirport departureTime);
      (split; split;
       [ discriminate
       | intros [Hm | [Hm | Hm]]; discriminate
       | discriminate
       | intros (x1 & x2 & x3 & _ & _ & Hx3 & Hnone); injection Hx3 as <-; congruence ]).
  - split; split.
    + discriminate.
    + intros [Hm | [Hm | Hm]]; discriminate.
    + intros _. exists fromAirport, toAirport, departString. auto.
    + reflexivity.
Qed.

(** X9.  A request with the three parameters, a valid date and a code that
    is not in the airport table once upper-cased is answered 500, with the
    'Airport not found' error of [calculateFlightPath] that names both
    codes as they were given. *)
Theorem routeHandler_unknown_airport (query : Query)
    (fromAirport toAirport departString : string) (departureTime : Z) :
  truthy (from query) = Some fromAirport ->
  truthy (to query) = Some toAirport ->
  truthy (depart query) = Some departString ->
  parseDate departString = Some departureTime ->
  lookup (toUpperCase fromAirport) = None \/ lookup (toUpperCase toAirport) = None ->
  routeHandler query = InternalServerError (AirportNotFound fromAirport toAirport).
Proof.
  intros Hfrom Hto Hdepart Hdate Hunknown.
  unfold routeHandler, calculateFlightPath.
  rewrite Hfrom, Hto, Hdepart, Hdate.
  destruct Hunknown as [Hnone | Hnone]; rewrite Hnone.
  - reflexivity.
  - destruct (lookup (toUpperCase fromAirport)); reflexivity.
Qed.

(** Without a usable duration the analysis is not run. *)
Lemma enhancedAnalysisOf_no_duration (fromAirport toAirport : string)
    (departureTime : Z) (durationParam : option string) :
  truthy durationParam = None \/
  (exists s, truthy durationParam = Some s /\
             (parseFloat s = NaN \/ parseFloat s = Some 0)) ->
  enhancedAnalysisOf fromAirport toAirport departureTime durationParam = None.
Proof.
  unfold enhancedAnalysisOf.
  intros [Hnone | (s & Hs & [Hnan | Hzero])].
  - now rewrite Hnone.
  - now rewrite Hs, Hnan.
  - rewrite Hs, Hzero. destruct (Req_dec_T 0 0) as [_|Hne]; [reflexivity | now elim Hne].
Qed.

(** What a 200 answer is made of. *)
Lemma routeHandler_body (query : Query) (body : Body) :
  routeHandler query = Json body ->
  exists fromAirport toAirport departString departureTime,
    truthy (from query) = Some fromAirport /\
    truthy (to query) = Some toAirport /\
    truthy (depart query) = Some departString /\
    parseDate departString = Some departureTime /\
    calculateFlightPath fromAirport toAirport departureTime = Ok (path body) /\
    sunPositions body
      = SunPositionService.calculateSunPositions (path body) departureTime /\
    recommendation body
      = SeatRecommendation.getSeatRecommendation (sunPositions body) (path body) /\
    enhancedAnalysis body
      = match enhancedAnalysisOf fromAirport toAirport departureTime (duration query) with
        | Some analysis => analysis
        | None => fallbackAnalysis
        end.
Proof.
  unfold routeHandler.
  destruct (truthy (from query)) as [fromAirport|]; [|discriminate].
  destruct (truthy (to query)) as [toAirport|]; [|discriminate].
  destruct (truthy (depart query)) as [departString|]; [|discriminate].
  destruct (parseDate departString) as [departureTime|] eqn:Hdate; [|discriminate].
  destruct (calculateFlightPath fromAirport toAirport departureTime) as [flightPath|e] eqn:Hpath;
    [|discriminate].
  intros Hbody; injection Hbody as <-.
  exists fromAirport, toAirport, departString, departureTime.
  simpl. repeat split; auto.
Qed.

(** X10.  The fallback payload.  A 200 answer carries the fixed payload
    (all flags false, the line 'Flight analysis requires duration
    parameter', seat 'either', no timeline) when the duration is absent,
    empty, not a number or 0, and also when one of the codes is not in the
    table as given (a lower-case code): the enhanced analysis indexes the
    table without upper-casing, its error is caught and dropped. *)
Theorem routeHandler_fallback_analysis (query : Query)
    (fromAirport toAirport : string) (body : Body) :
  truthy (from query) = Some fromAirport ->
  truthy (to query) = Some toAirport ->
  truthy (duration query) = None \/
  (exists s, truthy (duration query) = Some s /\
             (parseFloat s = NaN \/ parseFloat s = Some 0)) \/
  lookup fromAirport = None \/ lookup toAirport = None ->
  routeHandler query = Json body ->
  enhancedAnalysis body = fallbackAnalysis.
Proof.
  intros Hfrom Hto Hcases Hbody.
  destruct (routeHandler_body query body Hbody)
    as (fromAirport' & toAirport' & departString & departureTime
        & Hfrom' & Hto' & _ & _ & _ & _ & _ & ->).
  assert (fromAirport' = fromAirport) as -> by congruence.
  assert (toAirport' = toAirport) as -> by congruence.
  destruct Hcases as [Hnone | [Hunusable | Hunknown]].
  - rewrite enhancedAnalysisOf_no_duration; [reflexivity | now left].
  - rewrite enhancedAnalysisOf_no_duration; [reflexivity | now right].
  - unfold enhancedAnalysisOf, EnhancedSunAnalysis.analyzeFlightSunConditions.
    destruct (match truthy (duration query) with Some s => parseFloat s | None => NaN end)
      as [d|]; [|reflexivity].
    destruct (Req_dec_T d 0); [reflexivity|].
    destruct Hunknown as [Hnone | Hnone]; rewrite Hnone.
    + reflexivity.
    + destruct (lookup fromAirport); reflexivity.
Qed.

(** The codes of the table are in upper case. *)
Lemma lookup_upper (code : string) (a : Coords) :
  lookup code = Some a -> toUpperCase code = code.
Proof.
  intros Hcode. unfold lookup in Hcode.
  FlightPathFacts.airport_cases Hcode; reflexivity.
Qed.

(** Known airports and a departure that leaves room for the flight are
    answered 200. *)
Lemma routeHandler_answers (query : Query)
    (fromAirport toAirport departString : string) (departureTime : Z)
    (fromCoords toCoords : Coords) :
  truthy (from query) = Some fromAirport ->
  truthy (to query) = Some toAirport ->
  truthy (depart query) = Some departString ->
  parseDate departString = Some departureTime ->
  (Z.abs departureTime <= maxTime - FlightPathFacts.flightTimeMargin)%Z ->
  lookup (toUpperCase fromAirport) = Some fromCoords ->
  lookup (toUpperCase toAirport) = Some toCoords ->
  exists body,
    routeHandler query = Json body /\
    enhancedAnalysis body
      = match enhancedAnalysisOf fromAirport toAirport departureTime (duration query) with
        | Some analysis => analysis
        | None => fallbackAnalysis
        end.
Proof.
  intros Hfrom Hto Hdepart Hdate Hrange HfromCoords HtoCoords.
  unfold routeHandler. rewrite Hfrom, Hto, Hdepart, Hdate.
  rewrite (FlightPathFacts.calculateFlightPath_returns _ _ _ fromCoords toCoords
             HfromCoords HtoCoords Hrange).
  eexists; split; reflexivity.
Qed.


(** X12.  For identical known codes and a valid date the 200 answer holds
    six sun positions whose coordinates, azimuth and elevation are all NaN,
    and the recommendation is 'No optimal window seat - sun will not be
    visible during flight'. *)
Theorem routeHandler_identical_codes_no_seat (query : Query)
    (code departString : string) (departureTime : Z) (a : Coords) :
  truthy (from query) = Some code ->
  truthy (to query) = Some code ->
  truthy (depart query) = Some departString ->
  parseDate departString = Some departureTime ->
  (Z.abs departureTime <= maxTime)%Z ->
  lookup (toUpperCase code) = Some a ->
  exists body,
    routeHandler query = Json body /\
    sunPositions body
      = repeat (SunPositionService.mkSunPosition NaN NaN departureTime NaN NaN) 6 /\
    recommendation body = SeatRecommendation.NoOptimalWindowSeat.
Proof.
  intros Hfrom Hto Hdepart Hdate Hrange Hcode.
  unfold routeHandler. rewrite Hfrom, Hto, Hdepart, Hdate.
  rewrite (FlightPathFacts.calculateFlightPath_same code departureTime a Hcode Hrange).
  eexists; split; [reflexivity|]. split; reflexivity.
Qed.

End WithHost.

(** The host of the evening of 2025-08-01: its date parser knows the
    departure time 18:00 UTC and its number parser the duration 2. *)
Definition twoHourHost : Env := PipelineFacts.eveningHost.

(** A request from an unknown code to Delhi. *)
Lemma routeHandler_unknown_airport_witness :
  @routeHandler twoHourHost
     (mkQuery (Some "XYZ"%string) (Some "DEL"%string)
              (Some "2025-08-01T18:00:00.000Z"%string) (Some "2"%string))
    = InternalServerError (AirportNotFound "XYZ" "DEL").
Proof.
  apply (@routeHandler_unknown_airport twoHourHost
           (mkQuery (Some "XYZ"%string) (Some "DEL"%string)
              (Some "2025-08-01T18:00:00.000Z"%string) (Some "2"%string)) "XYZ" "DEL"
           "2025-08-01T18:00:00.000Z" 1754071200000); try reflexivity.
  left; reflexivity.
Defined.

(** The requests of that evening, with their codes and duration. *)
Definition delhiToJaipur (fromAirport toAirport : string) (durationParam : option string)
  : Query :=
  mkQuery (Some fromAirport) (Some toAirport)
          (Some "2025-08-01T18:00:00.000Z"%string) durationParam.

(** The departure leaves room for the longest flight. *)
Lemma august_leaves_room :
  (Z.abs 1754071200000 <= maxTime - FlightPathFacts.flightTimeMargin)%Z.
Proof. unfold maxTime, FlightPathFacts.flightTimeMargin; lia. Qed.

(** From Delhi to Jaipur with the codes in lower case and a duration of two
    hours. *)
Lemma routeHandler_fallback_analysis_witness :
  exists body,
    @routeHandler twoHourHost (delhiToJaipur "del" "jai" (Some "2"%string)) = Json body /\
    enhancedAnalysis body = fallbackAnalysis.
Proof.
  destruct (@routeHandler_answers twoHourHost (delhiToJaipur "del" "jai" (Some "2"%string))
              "del" "jai" "2025-08-01T18:00:00.000Z" 1754071200000
              FlightPathFacts.DEL FlightPathFacts.JAI
              eq_refl eq_refl eq_refl eq_refl august_leaves_room eq_refl eq_refl)
    as (body & Hbody & _).
  exists body. split; [exact Hbody|].
  apply (@routeHandler_fallback_analysis twoHourHost
           (delhiToJaipur "del" "jai" (Some "2"%string)) "del" "jai" body);
    [reflexivity | reflexivity | right; right; left; reflexivity | exact Hbody].
Defined.

(** Two hours is a duration. *)
Lemma two_is_not_zero : 2 <> 0.
Proof. lra. Qed.


(** From Delhi to Delhi. *)
Lemma routeHandler_identical_codes_no_seat_witness :
  exists body,
    @routeHandler twoHourHost (delhiToJaipur "DEL" "DEL" None) = Json body /\
    sunPositions body
      = repeat (SunPositionService.mkSunPosition NaN NaN 1754071200000 NaN NaN) 6 /\
    recommendation body = SeatRecommendation.NoOptimalWindowSeat.
Proof.
  apply (@routeHandler_identical_codes_no_seat twoHourHost
           (delhiToJaipur "DEL" "DEL" None) "DEL"
           "2025-08-01T18:00:00.000Z" 1754071200000 FlightPathFacts.DEL);
    try reflexivity.
  unfold maxTime; lia.
Defined.

End HandlerFacts.

(* ------------------------------------------------------------------ *)
(** ** The path: lookup and timestamps *)

Module PathFacts.
Import JsNumber Js FlightPath.
Import FlightPathFacts InterpolationFacts.

(** Upper-casing twice is upper-casing once. *)
Lemma upper_idempotent (c : ascii) : upper (upper c) = upper c.
Proof. destruct c as [[] [] [] [] [] [] [] []]; reflexivity. Qed.

Lemma toUpperCase_idempotent (s : string) : toUpperCase (toUpperCase s) = toUpperCase s.
Proof.
  induction s as [|c s IH]; simpl; [reflexivity|].
  now rewrite upper_idempotent, IH.
Qed.

(** X13.  The lookup of [calculateFlightPath] is case-insensitive: it
    returns a path for the codes as given exactly when it returns the same
    path for the upper-cased codes. *)
Theorem calculateFlightPath_case_insensitive (fromAirport toAirport : string)
    (departureTime : Z) (path : list Waypoint) :
  calculateFlightPath fromAirport toAirport departureTime = Ok path <->
  calculateFlightPath (toUpperCase fromAirport) (toUpperCase toAirport) departureTime
    = Ok path.
Proof.
  unfold calculateFlightPath. rewrite !toUpperCase_idempotent.
  destruct (lookup (toUpperCase fromAirport)), (lookup (toUpperCase toAirport));
    split; intros Hpath; try discriminate; exact Hpath.
Qed.

(** *** Time steps *)

Lemma trunc_diff (x y : R) : x <= y -> IZR (trunc y) - IZR (trunc x) < y - x + 1.
Proof.
  intros Hxy. unfold trunc.
  destruct (Rle_dec 0 x), (Rle_dec 0 y);
    pose proof (Zfloor_bound x); pose proof (Zfloor_bound y);
    pose proof (Zceil_bound x); pose proof (Zceil_bound y); lra.
Qed.

(** Truncation keeps the order. *)
Lemma trunc_monotone (x y : R) : x <= y -> (trunc x <= trunc y)%Z.
Proof.
  intros Hxy. unfold trunc.
  pose proof (Zfloor_bound x). pose proof (Zfloor_bound y).
  pose proof (Zceil_bound x). pose proof (Zceil_bound y).
  destruct (Rle_dec 0 x), (Rle_dec 0 y).
  - apply Z.lt_succ_r, lt_IZR. rewrite succ_IZR. lra.
  - lra.
  - assert (Zceil x < 1)%Z by (apply lt_IZR; lra).
    assert (-1 < Zfloor y)%Z by (apply lt_IZR; lra).
    lia.
  - apply Z.lt_succ_r, lt_IZR. rewrite succ_IZR. lra.
Qed.

(** Fewer than 60 km lie between two waypoints. *)
Lemma spacing_lt_60 (d : R) : d < 60 * IZR (numWaypoints d).
Proof.
  unfold numWaypoints.
  pose proof (Zfloor_bound (d / 50)) as [_ Hfloor].
  assert (Hmax : IZR (Zfloor (d / 50)) <= IZR (Z.max 5 (Zfloor (d / 50))))
    by (apply IZR_le; lia).
  assert (Hfive : 5 <= IZR (Z.max 5 (Zfloor (d / 50)))) by (apply IZR_le; lia).
  lra.
Qed.

(** One step of the progress fraction. *)
Lemma fractionAt_succ (n : Z) (i : nat) :
  (5 <= n)%Z -> fractionAt n (S i) = fractionAt n i + / IZR n.
Proof.
  intros Hn. apply IZR_le in Hn. unfold fractionAt. rewrite S_INR. field. lra.
Qed.

(** One step of the time value: less than 4.5 minutes. *)
Lemma timeValueAt_succ (departureTime : Z) (d : R) (i : nat) :
  0 <= d ->
  let n := numWaypoints d in
  0 <= timeValueAt departureTime d (fractionAt n (S i))
       - timeValueAt departureTime d (fractionAt n i) < 270000.
Proof.
  intros Hd n. pose proof (numWaypoints_ge_5 d) as Hn. fold n in Hn.
  rewrite (fractionAt_succ _ i Hn). unfold timeValueAt.
  pose proof (spacing_lt_60 d) as Hspace. fold n in Hspace.
  apply IZR_le in Hn.
  assert (Hinv : 0 < / IZR n) by (apply Rinv_0_lt_compat; lra).
  replace (IZR departureTime + (fractionAt n i + / IZR n) * (d / 800) * 60 * 60 * 1000 -
           (IZR departureTime + fractionAt n i * (d / 800) * 60 * 60 * 1000))
    with (4500 * (d * / IZR n)) by (field; lra).
  assert (Hq : d * / IZR n < 60).
  { replace 60 with (60 * IZR n * / IZR n) by (field; lra).
    apply Rmult_lt_compat_r; lra. }
  assert (0 <= d * / IZR n) by (apply Rmult_le_pos; lra).
  lra.
Qed.



(** *** The end of the Date range *)

Lemma mapM_throw {A B : Type} (f : A -> result B) (e : Error) (l : list A) :
  (forall a, In a l -> f a = Throw e \/ exists b, f a = Ok b) ->
  (exists a, In a l /\ f a = Throw e) ->
  mapM f l = Throw e.
Proof.
  induction l as [|a l IH]; intros Hall (x & Hx & Hthrow); [contradiction Hx|].
  simpl. destruct (Hall a (or_introl eq_refl)) as [-> | [b Hb]]; [reflexivity|].
  rewrite Hb; simpl. rewrite IH; [reflexivity | |].
  - intros a' Ha'. apply Hall. now right.
  - destruct Hx as [<- | Hx]; [congruence|]. now exists x.
Qed.

(** An iteration pushes a waypoint or throws the RangeError. *)
Lemma waypointAt_cases (fromCoords toCoords : Coords) (departureTime : Z)
    (distance : R) (n : Z) (i : nat) :
  waypointAt fromCoords toCoords departureTime distance n i = Throw InvalidTimeValue \/
  exists w, waypointAt fromCoords toCoords departureTime distance n i = Ok w.
Proof.
  unfold waypointAt. destruct (mkDate _); [right; eexists; reflexivity | now left].
Qed.

(** X16.  The end of the Date range.  For two different known airports and
    a departure less than 9 seconds before the largest Date (or later),
    [calculateFlightPath] throws the RangeError of [toISOString]: the last
    waypoint falls after the largest Date. *)
Theorem calculateFlightPath_date_overflow (fromAirport toAirport : string)
    (departureTime : Z) (fromCoords toCoords : Coords) :
  lookup (toUpperCase fromAirport) = Some fromCoords ->
  lookup (toUpperCase toAirport) = Some toCoords ->
  toUpperCase fromAirport <> toUpperCase toAirport ->
  (maxTime - 9000 < departureTime)%Z ->
  calculateFlightPath fromAirport toAirport departureTime = Throw InvalidTimeValue.
Proof.
  intros Hfrom Hto Hne Hlate.
  unfold calculateFlightPath. rewrite Hfrom, Hto. cbv zeta.
  set (d := distanceKm fromCoords toCoords).
  pose proof (airports_apart _ _ _ _ Hfrom Hto Hne) as Hd. fold d in Hd.
  pose proof (numWaypoints_ge_5 d) as Hn.
  apply mapM_throw.
  - intros i _. apply waypointAt_cases.
  - exists (Z.to_nat (numWaypoints d)). split; [apply in_seq; lia|].
    unfold waypointAt. rewrite (fractionAt_last _ Hn).
    unfold mkDate, timeValueAt.
    destruct (Rle_dec _ _) as [Hin|_]; [exfalso | reflexivity].
    apply IZR_lt in Hlate. rewrite minus_IZR in Hlate.
    revert Hin. unfold Rabs. destruct (Rcase_abs _); lra.
Qed.

(** From Delhi to Jaipur at the largest Date. *)
Lemma calculateFlightPath_date_overflow_witness :
  calculateFlightPath "DEL" "JAI" maxTime = Throw InvalidTimeValue.
Proof.
  apply (calculateFlightPath_date_overflow "DEL" "JAI" maxTime DEL JAI
           lookup_DEL lookup_JAI DEL_JAI_differ).
  unfold maxTime; lia.
Defined.

End PathFacts.

(* ------------------------------------------------------------------ *)
(** ** Distances and interpolation *)

Module GreatCircleFacts.
Import JsNumber Js FlightPath EnhancedSunAnalysis.
Import FlightPathFacts InterpolationFacts.

(** *** The two distance formulas *)

Lemma haversine_range (lat1 lat2 dLon : R) :
  0 <= cos lat1 * cos lat2 -> 0 <= haversine lat1 lat2 dLon <= 1.
Proof.
  intros Hcos. split.
  - unfold haversine.
    pose proof (square_nonneg (sin ((lat2 - lat1) / 2))).
    pose proof (square_nonneg (sin (dLon / 2))). nra.
  - pose proof (haversine_complement lat1 lat2 dLon) as Hcompl.
    pose proof (square_nonneg (sin ((lat1 + lat2) / 2))).
    pose proof (square_nonneg (cos (dLon / 2))). nra.
Qed.

(** The haversine and the spherical law of cosines. *)
Lemma haversine_cosine (lat1 lat2 dLon : R) :
  1 - 2 * haversine lat1 lat2 dLon
  = sin lat1 * sin lat2 + cos lat1 * cos lat2 * cos dLon.
Proof.
  unfold haversine.
  pose proof (cos_2a_sin ((lat2 - lat1) / 2)) as Hlat.
  pose proof (cos_2a_sin (dLon / 2)) as Hlon.
  replace (2 * ((lat2 - lat1) / 2)) with (lat2 - lat1) in Hlat by field.
  replace (2 * (dLon / 2)) with dLon in Hlon by field.
  rewrite cos_minus in Hlat.
  simpl. nra.
Qed.

(** Half the central angle lies in [0, PI / 2]. *)
Lemma half_angle_range (h : R) : 0 <= h <= 1 -> 0 <= asin (sqrt h) <= PI / 2.
Proof.
  intros Hh.
  assert (Hs : 0 <= sqrt h <= 1).
  { split; [apply sqrt_pos|]. rewrite <- sqrt_1. apply sqrt_le_1_alt. lra. }
  pose proof (asin_bound (sqrt h)) as [Hlo Hhi]. split; [|exact Hhi].
  destruct (Rle_dec 0 (asin (sqrt h))) as [|Hneg]; [assumption|].
  pose proof PI_RGT_0.
  assert (sin (asin (sqrt h)) < 0) by (apply sin_lt_0_var; lra).
  rewrite sin_asin in * by lra. lra.
Qed.

(** The cosine of the central angle. *)
Lemma cos_central (h : R) : 0 <= h <= 1 -> cos (2 * asin (sqrt h)) = 1 - 2 * h.
Proof.
  intros Hh.
  assert (Hs : 0 <= sqrt h <= 1).
  { split; [apply sqrt_pos|]. rewrite <- sqrt_1. apply sqrt_le_1_alt. lra. }
  rewrite cos_2a_sin, sin_asin by lra.
  rewrite Rmult_assoc, sqrt_sqrt by lra. reflexivity.
Qed.

(** The distance is the radius times the central angle. *)
Lemma distanceKm_centralAngle (a b : Coords) :
  -90 <= fst a <= 90 -> -90 <= fst b <= 90 ->
  distanceKm a b
    = 6371 * centralAngle (fst a * PI / 180) (snd a * PI / 180)
                          (fst b * PI / 180) (snd b * PI / 180).
Proof.
  intros Ha Hb. apply radians_quarter_turn in Ha, Hb.
  rewrite centralAngle_haversine. unfold distanceKm; cbv zeta.
  set (lat1 := fst a * PI / 180) in *. set (lat2 := fst b * PI / 180) in *.
  set (dLon := snd b * PI / 180 - snd a * PI / 180).
  assert (Hcos : 0 <= cos lat1 * cos lat2)
    by (apply Rmult_le_pos; apply cos_ge_0; lra).
  pose proof (haversine_range lat1 lat2 dLon Hcos) as Hh.
  rewrite <- haversine_cosine, <- (cos_central _ Hh).
  pose proof (half_angle_range _ Hh).
  rewrite acos_cos by lra. reflexivity.
Qed.

(** The distance does not depend on the direction. *)
Lemma distanceKm_sym (a b : Coords) : distanceKm a b = distanceKm b a.
Proof.
  unfold distanceKm; cbv zeta.
  replace (snd b * PI / 180 - snd a * PI / 180)
    with (- (snd a * PI / 180 - snd b * PI / 180)) by ring.
  rewrite cos_neg. do 2 f_equal. ring.
Qed.

(** X17.  The two distance formulas of the path service agree: for
    latitudes within [-90, 90] the distance of [calculateFlightPath]
    (spherical law of cosines) is the Earth radius times the central angle
    that [calculateGreatCircle] uses (haversine form); the distance is
    symmetric and at most half the circumference, 6371 * PI km. *)
Theorem distanceKm_haversine (a b : Coords) :
  -90 <= fst a <= 90 -> -90 <= fst b <= 90 ->
  distanceKm a b
    = 6371 * centralAngle (fst a * PI / 180) (snd a * PI / 180)
                          (fst b * PI / 180) (snd b * PI / 180) /\
  distanceKm a b = distanceKm b a /\
  0 <= distanceKm a b <= 6371 * PI.
Proof.
  intros Ha Hb. split; [now apply distanceKm_centralAngle|].
  split; [apply distanceKm_sym|].
  unfold distanceKm; cbv zeta.
  match goal with |- context [acos ?c] => pose proof (acos_bound c) end. lra.
Qed.

(** The distance from Delhi to Jaipur. *)
Lemma distanceKm_haversine_witness :
  distanceKm DEL JAI
    = 6371 * centralAngle (fst DEL * PI / 180) (snd DEL * PI / 180)
                          (fst JAI * PI / 180) (snd JAI * PI / 180) /\
  distanceKm DEL JAI = distanceKm JAI DEL /\
  0 <= distanceKm DEL JAI <= 6371 * PI.
Proof.
  apply (distanceKm_haversine DEL JAI); simpl; lra.
Defined.

(** *** The symmetry of the central angle *)

Lemma sin_half_sqr_sym (u v : R) : sin ((u - v) / 2) ^ 2 = sin ((v - u) / 2) ^ 2.
Proof.
  replace ((u - v) / 2) with (- ((v - u) / 2)) by field.
  rewrite sin_neg. ring.
Qed.

(** *** The return flight *)

Lemma centralAngle_sym (lat1 lon1 lat2 lon2 : R) :
  centralAngle lat1 lon1 lat2 lon2 = centralAngle lat2 lon2 lat1 lon1.
Proof.
  unfold centralAngle.
  rewrite (sin_half_sqr_sym lat2 lat1), (sin_half_sqr_sym lon2 lon1).
  now rewrite (Rmult_comm (cos lat1) (cos lat2)).
Qed.

(** Swapping the points together with their weights gives the same blend. *)
Lemma blend_sym (lat1 lon1 lat2 lon2 A B : R) :
  blend lat1 lon1 lat2 lon2 A B = blend lat2 lon2 lat1 lon1 B A.
Proof.
  unfold blend; cbv zeta.
  rewrite (Rplus_comm (A * cos lat1 * cos lon1)), (Rplus_comm (A * cos lat1 * sin lon1)),
          (Rplus_comm (A * sin lat1)).
  reflexivity.
Qed.

(** The point at [fraction] from [a] to [b] is the point at
    [1 - fraction] from [b] to [a]. *)
Lemma calculateGreatCircle_reverse (a b : Coords) (fraction : R) :
  calculateGreatCircle a b fraction = calculateGreatCircle b a (1 - fraction).
Proof.
  unfold calculateGreatCircle; cbv zeta.
  rewrite (centralAngle_sym (fst b * PI / 180)).
  set (d := centralAngle _ _ _ _).
  replace ((1 - (1 - fraction)) * d) with (fraction * d) by ring.
  destruct (div0 (sin ((1 - fraction) * d)) (sin d)) as [A|],
           (div0 (sin (fraction * d)) (sin d)) as [B|]; try reflexivity.
  now rewrite blend_sym.
Qed.

(** The reversed list of the indices. *)
Lemma rev_seq (n : nat) : rev (seq 0 n) = map (fun i => (n - 1 - i)%nat) (seq 0 n).
Proof.
  induction n as [|n IH]; [reflexivity|].
  rewrite seq_S at 1. rewrite rev_app_distr. simpl rev. simpl app.
  rewrite IH. simpl. f_equal; [lia|].
  rewrite <- seq_shift, map_map. apply map_ext_in. intros i _. lia.
Qed.

(** The progress fraction of the mirrored index. *)
Lemma fractionAt_mirror (n : Z) (i : nat) :
  (5 <= n)%Z -> (i <= Z.to_nat n)%nat ->
  fractionAt n (Z.to_nat n - i) = 1 - fractionAt n i.
Proof.
  intros Hn Hi. unfold fractionAt.
  rewrite minus_INR by exact Hi.
  rewrite (INR_IZR_INZ (Z.to_nat n)), Z2Nat.id by lia.
  apply IZR_le in Hn. field. lra.
Qed.

(** The coordinates of a waypoint. *)
Definition position (w : Waypoint) : num * num := (lat w, lon w).



End GreatCircleFacts.

(* ------------------------------------------------------------------ *)
(** ** The points of a route *)

Module RouteFacts.
Import JsNumber Js FlightPath EnhancedSunAnalysis.
Import FlightPathFacts InterpolationFacts AngleFacts GreatCircleFacts.

(** *** The angle of a vector *)

Lemma norm_pos (x y : R) : x <> 0 \/ y <> 0 -> 0 < sqrt (x * x + y * y).
Proof.
  intros Hxy. apply sqrt_lt_R0. destruct Hxy; nra.
Qed.

Lemma sqrt_quotient (x y : R) :
  0 < x -> sqrt (1 + Rsqr (y / x)) = sqrt (x * x + y * y) / x.
Proof.
  intros Hx.
  pose proof (norm_pos x y ltac:(left; lra)) as Hrho.
  apply sqrt_lem_1.
  - pose proof (Rle_0_sqr (y / x)). lra.
  - apply Rmult_le_pos; [lra|]. apply Rlt_le, Rinv_0_lt_compat; lra.
  - unfold Rsqr.
    replace (sqrt (x * x + y * y) / x * (sqrt (x * x + y * y) / x))
      with (sqrt (x * x + y * y) * sqrt (x * x + y * y) / (x * x)) by (field; lra).
    rewrite sqrt_sqrt by nra. field. lra.
Qed.

(** The cosine and the sine of the angle of a vector in the right
    half-plane. *)
Lemma atan_cos_sin (y x : R) :
  0 < x ->
  cos (atan (y / x)) = x / sqrt (x * x + y * y) /\
  sin (atan (y / x)) = y / sqrt (x * x + y * y).
Proof.
  intros Hx.
  pose proof (norm_pos x y ltac:(left; lra)) as Hrho.
  rewrite cos_atan, sin_atan, sqrt_quotient by exact Hx.
  split; field; lra.
Qed.

(** The cosine and the sine of the angle of a vector. *)
Lemma atan2_cos_sin (y x : R) :
  x <> 0 \/ y <> 0 ->
  cos (atan2 y x) = x / sqrt (x * x + y * y) /\
  sin (atan2 y x) = y / sqrt (x * x + y * y).
Proof.
  intros Hxy. pose proof (norm_pos x y Hxy) as Hrho.
  destruct (Rlt_dec 0 x) as [Hpos|Hnpos].
  - rewrite atan2_pos_x by exact Hpos. now apply atan_cos_sin.
  - destruct (Rlt_dec x 0) as [Hneg|Hnneg].
    + assert (Hopp : 0 < - x) by lra.
      destruct (atan_cos_sin (- y) (- x) Hopp) as [Hc Hs].
      replace (- y / - x) with (y / x) in Hc, Hs by (field; lra).
      replace (- x * - x + - y * - y) with (x * x + y * y) in Hc, Hs by ring.
      destruct (Rle_dec 0 y).
      * rewrite atan2_neg_x_up by assumption.
        rewrite neg_cos, neg_sin, Hc, Hs. split; field; lra.
      * rewrite atan2_neg_x_down by lra.
        rewrite cos_minus, sin_minus, cos_PI, sin_PI, Hc, Hs. split; field; lra.
    + assert (Hx : x = 0) by lra. subst x.
      assert (Hy : y <> 0) by (destruct Hxy; [lra | assumption]).
      rewrite atan2_zero_x.
      replace (0 * 0 + y * y) with (y * y) in * by ring.
      destruct (Rlt_dec 0 y).
      * rewrite sqrt_square by lra. rewrite cos_PI2, sin_PI2. split; field; lra.
      * destruct (Rlt_dec y 0); [|lra].
        replace (y * y) with (- y * - y) by ring.
        rewrite sqrt_square by lra.
        rewrite cos_neg, sin_neg, cos_PI2, sin_PI2. split; field; lra.
Qed.

(** The latitude and the longitude computed from a unit vector give the
    vector back. *)
Lemma unit_vector_recovered (x y z : R) :
  x * x + y * y + z * z = 1 ->
  let lat := atan2 z (sqrt (x * x + y * y)) in
  let lon := atan2 y x in
  cos lat * cos lon = x /\ cos lat * sin lon = y /\ sin lat = z.
Proof.
  intros Hunit lat lon.
  pose proof (sqrt_pos (x * x + y * y)) as Hrho.
  assert (Hsq : sqrt (x * x + y * y) * sqrt (x * x + y * y) = x * x + y * y)
    by (apply sqrt_sqrt; nra).
  set (rho := sqrt (x * x + y * y)) in *.
  assert (Hvec : rho <> 0 \/ z <> 0).
  { destruct (Req_dec z 0) as [Hz|Hz]; [left | now right].
    intros Hr. rewrite Hr, Hz in *. nra. }
  destruct (atan2_cos_sin z rho Hvec) as [Hclat Hslat].
  replace (rho * rho + z * z) with 1 in Hclat, Hslat by lra.
  rewrite sqrt_1 in Hclat, Hslat. fold lat in Hclat, Hslat.
  assert (Hcos : cos lat = rho) by (rewrite Hclat; field).
  assert (Hsin : sin lat = z) by (rewrite Hslat; field).
  rewrite Hcos. split; [|split; [|exact Hsin]].
  - destruct (Req_dec rho 0) as [Hzero|Hnz].
    + rewrite Hzero in *. nra.
    + assert (Hxy : x <> 0 \/ y <> 0).
      { destruct (Req_dec x 0) as [Hx|Hx]; [right | now left].
        intros Hy. apply Hnz. rewrite Hx, Hy in Hsq. nra. }
      destruct (atan2_cos_sin y x Hxy) as [Hc _]. unfold lon. rewrite Hc. fold rho. field. exact Hnz.
  - destruct (Req_dec rho 0) as [Hzero|Hnz].
    + rewrite Hzero in *. nra.
    + assert (Hxy : x <> 0 \/ y <> 0).
      { destruct (Req_dec x 0) as [Hx|Hx]; [right | now left].
        intros Hy. apply Hnz. rewrite Hx, Hy in Hsq. nra. }
      destruct (atan2_cos_sin y x Hxy) as [_ Hs]. unfold lon. rewrite Hs. fold rho. field. exact Hnz.
Qed.

(** *** The weights of the interpolation *)

Lemma slerp_weights (alpha beta : R) :
  sin (alpha + beta) <> 0 ->
  let A := sin alpha / sin (alpha + beta) in
  let B := sin beta / sin (alpha + beta) in
  A * A + B * B + 2 * A * B * cos (alpha + beta) = 1 /\
  A + B * cos (alpha + beta) = cos beta /\
  A * cos (alpha + beta) + B = cos alpha.
Proof.
  intros HS A B. subst A B.
  pose proof (sin2_cos2 alpha) as Ha. pose proof (sin2_cos2 beta) as Hb.
  unfold Rsqr in Ha, Hb.
  rewrite cos_plus. rewrite sin_plus in *.
  set (sa := sin alpha) in *. set (ca := cos alpha) in *.
  set (sb := sin beta) in *. set (cb := cos beta) in *.
  assert (Hca : ca ^ 2 = 1 - sa ^ 2) by lra.
  assert (Hcb : cb ^ 2 = 1 - sb ^ 2) by lra.
  split; [|split]; field_simplify_eq; try exact HS; rewrite ?Hca, ?Hcb; ring.
Qed.

(** To degrees and back. *)
Lemma degrees_roundtrip (t : R) : t * 180 / PI * PI / 180 = t.
Proof. pose proof PI_RGT_0. field. lra. Qed.

(** The central angle of two points strictly between the poles: its range
    and its cosine, the scalar product of the two unit vectors. *)
Lemma centralAngle_cos (lat1 lon1 lat2 lon2 : R) :
  - (PI / 2) <= lat1 <= PI / 2 -> - (PI / 2) <= lat2 <= PI / 2 ->
  let d := centralAngle lat1 lon1 lat2 lon2 in
  0 <= d <= PI /\
  cos d = sin lat1 * sin lat2 + cos lat1 * cos lat2 * cos (lon2 - lon1).
Proof.
  intros H1 H2 d. unfold d. rewrite centralAngle_haversine.
  assert (Hcos : 0 <= cos lat1 * cos lat2)
    by (apply Rmult_le_pos; apply cos_ge_0; lra).
  pose proof (haversine_range lat1 lat2 (lon2 - lon1) Hcos) as Hh.
  pose proof (half_angle_range _ Hh).
  rewrite (cos_central _ Hh), haversine_cosine. split; [lra | reflexivity].
Qed.

(** The interpolated point lies on the route, at the fraction of the
    distance. *)
Lemma calculateGreatCircle_on_route (a b : Coords) (fraction : R) :
  validPoint a -> validPoint b -> a <> b -> ~ antipodal a b ->
  0 <= fraction <= 1 ->
  exists p,
    calculateGreatCircle a b fraction = Some p /\
    distanceKm a p = fraction * distanceKm a b /\
    distanceKm p b = (1 - fraction) * distanceKm a b.
Proof.
  intros Ha Hb Hne Hanti Hf.
  pose proof (sin_centralAngle_pos a b Ha Hb Hne Hanti) as Hsin.
  destruct Ha as [Hla Hlo], Hb as [Hlb Hlob].
  rewrite (distanceKm_centralAngle a b) by lra.
  pose proof (radians_latitude _ Hla) as Hr1.
  pose proof (radians_latitude _ Hlb) as Hr2.
  unfold calculateGreatCircle; cbv zeta.
  set (lat1 := fst a * PI / 180) in *. set (lon1 := snd a * PI / 180) in *.
  set (lat2 := fst b * PI / 180) in *. set (lon2 := snd b * PI / 180) in *.
  destruct (centralAngle_cos lat1 lon1 lat2 lon2 ltac:(lra) ltac:(lra)) as [Hd Hcosd].
  set (d := centralAngle lat1 lon1 lat2 lon2) in *.
  unfold div0. destruct (Req_dec_T (sin d) 0) as [Hz|_]; [lra|].
  assert (Hsum : (1 - fraction) * d + fraction * d = d) by ring.
  pose proof (slerp_weights ((1 - fraction) * d) (fraction * d)) as Hweights.
  rewrite Hsum in Hweights. specialize (Hweights ltac:(lra)).
  cbv zeta in Hweights. destruct Hweights as (Hnorm & Hstart & Hend).
  set (A := sin ((1 - fraction) * d) / sin d) in *.
  set (B := sin (fraction * d) / sin d) in *.
  eexists. split; [reflexivity|].
  unfold blend; cbv zeta.
  set (x := A * cos lat1 * cos lon1 + B * cos lat2 * cos lon2).
  set (y := A * cos lat1 * sin lon1 + B * cos lat2 * sin lon2).
  set (z := A * sin lat1 + B * sin lat2).
  pose proof (sin2_cos2 lat1) as S1. pose proof (sin2_cos2 lon1) as T1.
  pose proof (sin2_cos2 lat2) as S2. pose proof (sin2_cos2 lon2) as T2.
  unfold Rsqr in S1, T1, S2, T2.
  rewrite cos_minus in Hcosd.
  assert (Hdot : sin lat1 * sin lat2
                 + cos lat1 * cos lat2 * (cos lon1 * cos lon2 + sin lon1 * sin lon2)
                 = cos d) by (rewrite Hcosd; ring).
  assert (Hunit : x * x + y * y + z * z = 1).
  { replace (x * x + y * y + z * z)
      with (A * A * (cos lat1 * cos lat1 * (sin lon1 * sin lon1 + cos lon1 * cos lon1)
                     + (sin lat1 * sin lat1))
            + B * B * (cos lat2 * cos lat2 * (sin lon2 * sin lon2 + cos lon2 * cos lon2)
                       + (sin lat2 * sin lat2))
            + 2 * A * B * (sin lat1 * sin lat2
                           + cos lat1 * cos lat2
                             * (cos lon1 * cos lon2 + sin lon1 * sin lon2)))
      by (unfold x, y, z; ring).
    rewrite T1, T2, Hdot, !Rmult_1_r.
    replace (cos lat1 * cos lat1 + sin lat1 * sin lat1) with 1 by lra.
    replace (cos lat2 * cos lat2 + sin lat2 * sin lat2) with 1 by lra.
    rewrite !Rmult_1_r. exact Hnorm. }
  destruct (unit_vector_recovered x y z Hunit) as (Hx & Hy & Hz).
  cbv zeta in Hx, Hy, Hz.
  set (lat := atan2 z (sqrt (x * x + y * y))) in *.
  set (lon := atan2 y x) in *.
  unfold distanceKm; cbv zeta. cbn [fst snd]. fold lat1 lon1 lat2 lon2.
  rewrite !degrees_roundtrip.
  split.
  - rewrite cos_minus.
    replace (sin lat1 * sin lat + cos lat1 * cos lat * (cos lon * cos lon1 + sin lon * sin lon1))
      with (sin lat1 * sin lat + cos lat1 * cos lon1 * (cos lat * cos lon)
            + cos lat1 * sin lon1 * (cos lat * sin lon)) by ring.
    rewrite Hx, Hy, Hz.
    replace (sin lat1 * z + cos lat1 * cos lon1 * x + cos lat1 * sin lon1 * y)
      with (A * (cos lat1 * cos lat1 * (sin lon1 * sin lon1 + cos lon1 * cos lon1)
                 + (sin lat1 * sin lat1))
            + B * (sin lat1 * sin lat2
                   + cos lat1 * cos lat2 * (cos lon1 * cos lon2 + sin lon1 * sin lon2)))
      by (unfold x, y, z; ring).
    rewrite T1, Hdot, Rmult_1_r.
    replace (cos lat1 * cos lat1 + sin lat1 * sin lat1) with 1 by lra.
    rewrite Rmult_1_r, Hstart.
    rewrite acos_cos by nra. ring.
  - rewrite cos_minus.
    replace (sin lat * sin lat2 + cos lat * cos lat2 * (cos lon2 * cos lon + sin lon2 * sin lon))
      with (sin lat * sin lat2 + cos lat2 * cos lon2 * (cos lat * cos lon)
            + cos lat2 * sin lon2 * (cos lat * sin lon)) by ring.
    rewrite Hx, Hy, Hz.
    replace (z * sin lat2 + cos lat2 * cos lon2 * x + cos lat2 * sin lon2 * y)
      with (A * (sin lat1 * sin lat2
                 + cos lat1 * cos lat2 * (cos lon1 * cos lon2 + sin lon1 * sin lon2))
            + B * (cos lat2 * cos lat2 * (sin lon2 * sin lon2 + cos lon2 * cos lon2)
                   + (sin lat2 * sin lat2)))
      by (unfold x, y, z; ring).
    rewrite T2, Hdot, Rmult_1_r.
    replace (cos lat2 * cos lat2 + sin lat2 * sin lat2) with 1 by lra.
    rewrite Rmult_1_r, Hend.
    rewrite acos_cos by nra. ring.
Qed.

(** *** The coordinates of an interpolated point *)

Lemma atan2_right_half (y x : R) : 0 <= x -> - (PI / 2) <= atan2 y x <= PI / 2.
Proof.
  intros Hx. pose proof PI_RGT_0.
  destruct (Rlt_dec 0 x) as [Hpos|Hnpos].
  - rewrite atan2_pos_x by exact Hpos. pose proof (atan_bound (y / x)). lra.
  - assert (x = 0) as -> by lra. rewrite atan2_zero_x.
    destruct (Rlt_dec 0 y); [lra|]. destruct (Rlt_dec y 0); lra.
Qed.

Lemma degrees_ge (a b : R) : b * (PI / 180) <= a -> b <= a * 180 / PI.
Proof.
  intros Hab. pose proof degrees_factor_pos.
  replace b with (b * (PI / 180) * (180 / PI)) by (field; apply PI_neq0).
  replace (a * 180 / PI) with (a * (180 / PI)) by (field; apply PI_neq0).
  apply Rmult_le_compat_r; lra.
Qed.

(** Whatever the weights, the blend is a latitude in [-90, 90] and a
    longitude in (-180, 180]. *)
Lemma blend_range (lat1 lon1 lat2 lon2 A B : R) :
  -90 <= fst (blend lat1 lon1 lat2 lon2 A B) <= 90 /\
  -180 < snd (blend lat1 lon1 lat2 lon2 A B) <= 180.
Proof.
  unfold blend; cbv zeta; cbn [fst snd]. split.
  - match goal with
    | |- _ <= atan2 ?z (sqrt ?r) * 180 / PI <= _ =>
        pose proof (atan2_right_half z (sqrt r) (sqrt_pos r)) as [Hlo Hhi]
    end.
    split; [apply degrees_ge | apply degrees_le]; lra.
  - apply BearingFacts.degrees_of_turn, atan2_range.
Qed.

(** So is every point that the interpolator returns. *)
Lemma calculateGreatCircle_range (a b : Coords) (fraction : R) (p : Coords) :
  calculateGreatCircle a b fraction = Some p ->
  -90 <= fst p <= 90 /\ -180 < snd p <= 180.
Proof.
  unfold calculateGreatCircle; cbv zeta.
  repeat match goal with
         | |- context [div0 ?u ?v] => destruct (div0 u v)
         end; try discriminate.
  intros [= <-]. apply blend_range.
Qed.

(** Strictly inside the path the guards of the analysis sampler's
    interpolator do not fire, and its formula is the one of the path
    sampler's. *)
Lemma interpolateGreatCircle_inside (from to : Coords) (fraction : R) :
  0 < fraction < 1 ->
  interpolateGreatCircle from to (Some fraction) = calculateGreatCircle from to fraction.
Proof.
  intros [Hlo Hhi].
  unfold interpolateGreatCircle, calculateGreatCircle, centralAngle, ge, le, Rleb.
  destruct (Rle_dec fraction 0); [lra|].
  destruct (Rle_dec 1 fraction); [lra|].
  cbv zeta.
  rewrite (sin_half_sqr_sym (fst from * PI / 180) (fst to * PI / 180)).
  rewrite (sin_half_sqr_sym (snd from * PI / 180) (snd to * PI / 180)).
  reflexivity.
Qed.

(** On the route the guarded interpolator returns the point of the
    unguarded one. *)
Lemma interpolateGreatCircle_on_route (a b : Coords) (fraction : R) :
  validPoint a -> validPoint b -> a <> b -> ~ antipodal a b ->
  0 <= fraction <= 1 ->
  interpolateGreatCircle a b (Some fraction) = calculateGreatCircle a b fraction.
Proof.
  intros Ha Hb Hne Hanti Hf.
  destruct (calculateGreatCircle_ends a b Ha Hb Hne Hanti) as [Hstart Hend].
  destruct (Req_dec fraction 0) as [Hzero|Hnz].
  - subst fraction. rewrite interpolateGreatCircle_from by lra. now rewrite Hstart.
  - destruct (Req_dec fraction 1) as [Hone|Hno].
    + subst fraction. rewrite interpolateGreatCircle_to by lra. now rewrite Hend.
    + apply interpolateGreatCircle_inside. lra.
Qed.

(** X20.  The interpolated point divides the distance.  For two different
    points strictly between the poles that are not antipodal and a
    fraction f in [0, 1], [calculateGreatCircle] and
    [interpolateGreatCircle] return the same point, with a latitude in
    [-90, 90] and a longitude in (-180, 180], at distance f * D from the
    first point and (1 - f) * D from the second, D being the distance of
    the two points. *)
Theorem calculateGreatCircle_divides_distance (a b : Coords) (fraction : R) :
  validPoint a -> validPoint b -> a <> b -> ~ antipodal a b ->
  0 <= fraction <= 1 ->
  exists p,
    calculateGreatCircle a b fraction = Some p /\
    interpolateGreatCircle a b (Some fraction) = Some p /\
    distanceKm a p = fraction * distanceKm a b /\
    distanceKm p b = (1 - fraction) * distanceKm a b /\
    -90 <= fst p <= 90 /\ -180 < snd p <= 180.
Proof.
  intros Ha Hb Hne Hanti Hf.
  destruct (calculateGreatCircle_on_route a b fraction Ha Hb Hne Hanti Hf)
    as (p & Hp & Hfrom & Hto).
  exists p. split; [exact Hp|]. split; [|split; [exact Hfrom|split; [exact Hto|]]].
  - now rewrite interpolateGreatCircle_on_route.
  - now apply (calculateGreatCircle_range a b fraction).
Qed.

(** A quarter of the way from Delhi to Jaipur. *)
Lemma calculateGreatCircle_divides_distance_witness :
  exists p,
    calculateGreatCircle DEL JAI (1 / 4) = Some p /\
    interpolateGreatCircle DEL JAI (Some (1 / 4)) = Some p /\
    distanceKm DEL p = 1 / 4 * distanceKm DEL JAI /\
    distanceKm p JAI = (1 - 1 / 4) * distanceKm DEL JAI /\
    -90 <= fst p <= 90 /\ -180 < snd p <= 180.
Proof.
  apply (calculateGreatCircle_divides_distance DEL JAI (1 / 4) DEL_valid JAI_valid).
  - intros Heq. injection Heq as Hlat _. lra.
  - intros [Hsum _]. simpl in Hsum. lra.
  - lra.
Defined.

(** *** The waypoints of a path *)

Lemma airports_not_antipodal (code1 code2 : string) (a b : Coords) :
  lookup code1 = Some a -> lookup code2 = Some b -> ~ antipodal a b.
Proof.
  unfold lookup, antipodal; intros Ha Hb.
  airport_cases Ha; airport_cases Hb; simpl; intros [Hsum _]; lra.
Qed.

(** Different codes are different places. *)
Lemma airports_differ (code1 code2 : string) (a b : Coords) :
  lookup code1 = Some a -> lookup code2 = Some b -> code1 <> code2 -> a <> b.
Proof.
  intros Ha Hb Hne Heq.
  pose proof (airports_latitudes _ _ _ _ Ha Hb Hne) as Hlat.
  rewrite Heq in Hlat. replace (fst b - fst b) with 0 in Hlat by ring.
  rewrite Rabs_R0 in Hlat. lra.
Qed.

(** The last element of a list built over the indices. *)
Lemma last_map_seq {A : Type} (g : nat -> A) (k : nat) (d : A) :
  last (map g (seq 0 (S k))) d = g k.
Proof.
  rewrite seq_S, map_app. simpl. apply last_last.
Qed.

(** X14.  The waypoints lie on the route, in exact real arithmetic (the
    numbers of this model; the rounding of binary64 moves the coordinates
    that the program prints in their last digits).  For two different known
    airports the path starts at the coordinates of the departure airport,
    at the departure time, and ends at the coordinates of the arrival
    airport; the waypoint of index i has coordinates that are numbers, a
    latitude in [-90, 90] and a longitude in (-180, 180], and lies at i / n
    of the distance from the departure airport and at the rest of it from
    the arrival airport, [n] being the number of steps of the path. *)
Theorem calculateFlightPath_waypoints_on_route (fromAirport toAirport : string)
    (departureTime : Z) (fromCoords toCoords : Coords) :
  lookup (toUpperCase fromAirport) = Some fromCoords ->
  lookup (toUpperCase toAirport) = Some toCoords ->
  toUpperCase fromAirport <> toUpperCase toAirport ->
  (Z.abs departureTime <= maxTime - flightTimeMargin)%Z ->
  let distance := distanceKm fromCoords toCoords in
  let n := numWaypoints distance in
  exists path first,
    calculateFlightPath fromAirport toAirport departureTime = Ok path /\
    hd_error path = Some first /\
    first = mkWaypoint (Some (fst fromCoords)) (Some (snd fromCoords)) departureTime /\
    lat (last path first) = Some (fst toCoords) /\
    lon (last path first) = Some (snd toCoords) /\
    (forall i w,
       nth_error path i = Some w ->
       exists la lo,
         lat w = Some la /\ lon w = Some lo /\
         -90 <= la <= 90 /\ -180 < lo <= 180 /\
         distanceKm fromCoords (la, lo) = fractionAt n i * distance /\
         distanceKm (la, lo) toCoords = (1 - fractionAt n i) * distance).
Proof.
  intros Hfrom Hto Hne Hrange distance n.
  pose proof (airports_valid _ _ Hfrom) as Hva.
  pose proof (airports_valid _ _ Hto) as Hvb.
  pose proof (airports_differ _ _ _ _ Hfrom Hto Hne) as Hab.
  pose proof (airports_not_antipodal _ _ _ _ Hfrom Hto) as Hanti.
  destruct (calculateGreatCircle_ends fromCoords toCoords Hva Hvb Hab Hanti)
    as [Hstart Hend].
  pose proof (numWaypoints_ge_5 distance) as Hn. fold n in Hn.
  eexists; eexists. split.
  - exact (calculateFlightPath_returns _ _ _ fromCoords toCoords Hfrom Hto Hrange).
  - fold distance. fold n. split; [reflexivity|]. split; [|split; [|split]].
    + unfold waypointOf. rewrite fractionAt_0, Hstart. simpl.
      f_equal. unfold timeValueAt.
      replace (IZR departureTime + 0 * (distance / 800) * 60 * 60 * 1000)
        with (IZR departureTime) by ring.
      apply trunc_IZR.
    + rewrite last_map_seq. unfold waypointOf.
      now rewrite (fractionAt_last _ Hn), Hend.
    + rewrite last_map_seq. unfold waypointOf.
      now rewrite (fractionAt_last _ Hn), Hend.
    + intros i w Hw.
      assert (Hlen : (i < S (Z.to_nat n))%nat).
      { assert (Hsome : nth_error
                  (map (waypointOf fromCoords toCoords departureTime distance n)
                       (seq 0 (S (Z.to_nat n)))) i <> None)
          by (rewrite Hw; discriminate).
        apply nth_error_Some in Hsome. now rewrite length_map, length_seq in Hsome. }
      rewrite nth_error_map_seq in Hw by exact Hlen. injection Hw as <-.
      pose proof (fractionAt_range n i Hn ltac:(lia)) as Hf.
      destruct (calculateGreatCircle_on_route fromCoords toCoords (fractionAt n i)
                  Hva Hvb Hab Hanti Hf) as (p & Hp & Hdfrom & Hdto).
      exists (fst p), (snd p). unfold waypointOf. cbn [lat lon]. rewrite Hp.
      split; [reflexivity|]. split; [reflexivity|].
      destruct (calculateGreatCircle_range _ _ _ _ Hp) as [Hlat Hlon].
      split; [exact Hlat|]. split; [exact Hlon|].
      rewrite <- surjective_pairing. split; assumption.
Qed.

(** The waypoints from Delhi to Jaipur. *)
Lemma calculateFlightPath_waypoints_on_route_witness :
  let distance := distanceKm DEL JAI in
  let n := numWaypoints distance in
  exists path first,
    calculateFlightPath "DEL" "JAI" 0 = Ok path /\
    hd_error path = Some first /\
    first = mkWaypoint (Some (fst DEL)) (Some (snd DEL)) 0 /\
    lat (last path first) = Some (fst JAI) /\
    lon (last path first) = Some (snd JAI) /\
    (forall i w,
       nth_error path i = Some w ->
       exists la lo,
         lat w = Some la /\ lon w = Some lo /\
         -90 <= la <= 90 /\ -180 < lo <= 180 /\
         distanceKm DEL (la, lo) = fractionAt n i * distance /\
         distanceKm (la, lo) JAI = (1 - fractionAt n i) * distance).
Proof.
  exact (calculateFlightPath_waypoints_on_route "DEL" "JAI" 0 DEL JAI
           lookup_DEL lookup_JAI DEL_JAI_differ epoch_in_range).
Defined.

(** *** Progress along the route *)

(** The distance in km of a waypoint from a place, by the distance formula
    of [calculateFlightPath]; NaN for a waypoint with NaN coordinates. *)
Definition distanceFrom (place : Coords) (w : Waypoint) : num :=
  match lat w, lon w with
  | Some la, Some lo => Some (distanceKm place (la, lo))
  | _, _ => NaN
  end.

(** Every waypoint of a path is farther from [place] than the ones before
    it. *)
Definition movesAwayFrom (place : Coords) (path : list Waypoint) : Prop :=
  forall (i j : nat) (wi wj : Waypoint),
    (i < j)%nat -> nth_error path i = Some wi -> nth_error path j = Some wj ->
    exists di dj,
      distanceFrom place wi = Some di /\ distanceFrom place wj = Some dj /\ di < dj.

(** The waypoint of index [i] is at [i / n] of the distance. *)
Lemma distanceFrom_waypointOf (fromCoords toCoords : Coords) (departureTime : Z)
    (n : Z) (i : nat) :
  validPoint fromCoords -> validPoint toCoords ->
  fromCoords <> toCoords -> ~ antipodal fromCoords toCoords ->
  (5 <= n)%Z -> (i <= Z.to_nat n)%nat ->
  distanceFrom fromCoords
    (waypointOf fromCoords toCoords departureTime (distanceKm fromCoords toCoords) n i)
  = Some (fractionAt n i * distanceKm fromCoords toCoords).
Proof.
  intros Hva Hvb Hab Hanti Hn Hi.
  pose proof (fractionAt_range n i Hn Hi) as Hf.
  destruct (calculateGreatCircle_on_route fromCoords toCoords (fractionAt n i)
              Hva Hvb Hab Hanti Hf) as (p & Hp & Hdfrom & _).
  unfold distanceFrom, waypointOf. cbn [lat lon]. rewrite Hp. cbn [option_map].
  now rewrite <- surjective_pairing, Hdfrom.
Qed.

(** C10 (as amended).  For two different known airports and a departure
    time that leaves room for the flight before the end of the Date range,
    the path is returned, it has at least 5 entries (one more than
    [numWaypoints], so 6 or more), its timestamps increase strictly, and
    the aircraft progresses along the route: in exact real arithmetic the
    waypoint of index [i] lies at the fraction [i / numWaypoints] of the
    distance from the departure airport, every waypoint is farther from
    the departure airport than the ones before it, the first is at the
    distance 0 and the last at the full distance, which is positive. *)
Theorem calculateFlightPath_progress (fromAirport toAirport : string)
    (departureTime : Z) (fromCoords toCoords : Coords) :
  lookup (toUpperCase fromAirport) = Some fromCoords ->
  lookup (toUpperCase toAirport) = Some toCoords ->
  toUpperCase fromAirport <> toUpperCase toAirport ->
  (Z.abs departureTime <= maxTime - flightTimeMargin)%Z ->
  let distance := distanceKm fromCoords toCoords in
  let n := numWaypoints distance in
  exists path,
    calculateFlightPath fromAirport toAirport departureTime = Ok path /\
    List.length path = S (Z.to_nat n) /\
    (5 <= List.length path)%nat /\
    increasingTimes path /\
    (forall i w, nth_error path i = Some w ->
       distanceFrom fromCoords w = Some (fractionAt n i * distance)) /\
    movesAwayFrom fromCoords path /\
    (exists first final,
       nth_error path 0 = Some first /\ distanceFrom fromCoords first = Some 0 /\
       nth_error path (Z.to_nat n) = Some final /\
       distanceFrom fromCoords final = Some distance) /\
    0 < distance.
Proof.
  intros Hfrom Hto Hne Hdep distance n.
  pose proof (airports_valid _ _ Hfrom) as Hva.
  pose proof (airports_valid _ _ Hto) as Hvb.
  pose proof (airports_differ _ _ _ _ Hfrom Hto Hne) as Hab.
  pose proof (airports_not_antipodal _ _ _ _ Hfrom Hto) as Hanti.
  pose proof (airports_apart _ _ _ _ Hfrom Hto Hne) as Hapart. fold distance in Hapart.
  pose proof (numWaypoints_ge_5 distance) as Hn. fold n in Hn.
  set (path := map (waypointOf fromCoords toCoords departureTime distance n)
                   (seq 0 (S (Z.to_nat n)))).
  assert (Hnth : forall i w, nth_error path i = Some w ->
            (i <= Z.to_nat n)%nat /\
            w = waypointOf fromCoords toCoords departureTime distance n i).
  { intros i w Hw.
    assert (Hlen : (i < S (Z.to_nat n))%nat).
    { assert (Hsome : nth_error path i <> None) by (rewrite Hw; discriminate).
      apply nth_error_Some in Hsome. unfold path in Hsome.
      now rewrite length_map, length_seq in Hsome. }
    unfold path in Hw. rewrite nth_error_map_seq in Hw by exact Hlen.
    injection Hw as <-. split; [lia | reflexivity]. }
  assert (Hat : forall i w, nth_error path i = Some w ->
            distanceFrom fromCoords w = Some (fractionAt n i * distance)).
  { intros i w Hw. destruct (Hnth i w Hw) as [Hi ->].
    now apply distanceFrom_waypointOf. }
  exists path. split; [|split; [|split; [|split; [|split; [|split; [|split]]]]]].
  - exact (calculateFlightPath_returns _ _ _ fromCoords toCoords Hfrom Hto Hdep).
  - unfold path. now rewrite length_map, length_seq.
  - unfold path. rewrite length_map, length_seq. lia.
  - apply increasingTimes_path. exact Hapart.
  - exact Hat.
  - intros i j wi wj Hij Hi Hj.
    exists (fractionAt n i * distance), (fractionAt n j * distance).
    split; [now apply Hat|]. split; [now apply Hat|].
    pose proof (fractionAt_increasing n i j Hn Hij).
    apply Rmult_lt_compat_r; lra.
  - exists (waypointOf fromCoords toCoords departureTime distance n 0),
           (waypointOf fromCoords toCoords departureTime distance n (Z.to_nat n)).
    assert (Hfirst : nth_error path 0
                     = Some (waypointOf fromCoords toCoords departureTime distance n 0))
      by (unfold path; apply nth_error_map_seq; lia).
    assert (Hfinal : nth_error path (Z.to_nat n)
                     = Some (waypointOf fromCoords toCoords departureTime distance n
                               (Z.to_nat n)))
      by (unfold path; apply nth_error_map_seq; lia).
    split; [exact Hfirst|]. split.
    + rewrite (Hat _ _ Hfirst), fractionAt_0. f_equal. ring.
    + split; [exact Hfinal|].
      rewrite (Hat _ _ Hfinal), (fractionAt_last _ Hn). f_equal. ring.
  - lra.
Qed.

(** The route from Delhi to Jaipur. *)
Lemma calculateFlightPath_progress_witness :
  let distance := distanceKm DEL JAI in
  let n := numWaypoints distance in
  exists path,
    calculateFlightPath "DEL" "JAI" 0 = Ok path /\
    List.length path = S (Z.to_nat n) /\
    (5 <= List.length path)%nat /\
    increasingTimes path /\
    (forall i w, nth_error path i = Some w ->
       distanceFrom DEL w = Some (fractionAt n i * distance)) /\
    movesAwayFrom DEL path /\
    (exists first final,
       nth_error path 0 = Some first /\ distanceFrom DEL first = Some 0 /\
       nth_error path (Z.to_nat n) = Some final /\
       distanceFrom DEL final = Some distance) /\
    0 < distance.
Proof.
  exact (calculateFlightPath_progress "DEL" "JAI" 0 DEL JAI
           lookup_DEL lookup_JAI DEL_JAI_differ epoch_in_range).
Defined.

(** C10, the claim as stated fails: one second before the largest Date is a
    valid departure time, and from Delhi to Jaipur no sequence of waypoints
    is produced for it: the time of the last waypoint is past the largest
    Date and [toISOString] throws its RangeError. *)
Lemma calculateFlightPath_DEL_JAI_last_second :
  (Z.abs (maxTime - 1000) <= maxTime)%Z /\
  calculateFlightPath "DEL" "JAI" (maxTime - 1000) = Throw InvalidTimeValue /\
  forall path, calculateFlightPath "DEL" "JAI" (maxTime - 1000) <> Ok path.
Proof.
  assert (Hthrow : calculateFlightPath "DEL" "JAI" (maxTime - 1000) = Throw InvalidTimeValue).
  { unfold calculateFlightPath. rewrite lookup_DEL, lookup_JAI. cbv zeta.
    set (distance := distanceKm DEL JAI).
    pose proof (airports_apart _ _ _ _ lookup_DEL lookup_JAI DEL_JAI_differ) as Hapart.
    fold distance in Hapart.
    pose proof (numWaypoints_ge_5 distance) as Hn.
    apply PathFacts.mapM_throw.
    - intros i _. apply PathFacts.waypointAt_cases.
    - exists (Z.to_nat (numWaypoints distance)). split; [apply in_seq; lia|].
      unfold waypointAt. rewrite (fractionAt_last _ Hn).
      unfold mkDate, timeValueAt.
      destruct (Rle_dec _ _) as [Hin|_]; [exfalso | reflexivity].
      revert Hin. rewrite minus_IZR. unfold maxTime, Rabs.
      destruct (Rcase_abs _); lra. }
  split; [unfold maxTime; lia|]. split; [exact Hthrow|].
  intros path Hpath. rewrite Hthrow in Hpath. discriminate.
Qed.

End RouteFacts.

(* ------------------------------------------------------------------ *)
(** ** The seat recommendation *)

Module RecommendationFacts.
Import JsNumber Js SunPositionService SeatRecommendation.
Import NumFacts AngleFacts.

(** X21.  The recommendation depends on the path through its first and its
    last waypoint only: the waypoints in between can be dropped. *)
Theorem getSeatRecommendation_endpoints_only (sunPositions : list SunPosition)
    (startPoint endPoint : FlightPath.Waypoint) (between : list FlightPath.Waypoint) :
  getSeatRecommendation sunPositions (startPoint :: between ++ [endPoint])
    = getSeatRecommendation sunPositions [startPoint; endPoint].
Proof.
  unfold getSeatRecommendation.
  destruct (List.length (filter isVisible sunPositions) =? 0)%nat; [reflexivity|].
  destruct (between ++ [endPoint]) as [|w rest] eqn:Hrest.
  - now destruct between.
  - rewrite <- Hrest, last_last. reflexivity.
Qed.

(** A filter keeps nothing exactly when the test fails everywhere. *)
Lemma filter_nil {A : Type} (p : A -> bool) (l : list A) :
  filter p l = [] <-> forall a, In a l -> p a = false.
Proof.
  induction l as [|a l IH]; simpl.
  - split; [intros _ x [] | reflexivity].
  - destruct (p a) eqn:Hpa; split.
    + discriminate.
    + intros Hall. specialize (Hall a (or_introl eq_refl)). congruence.
    + intros Hnil x [<- | Hx]; [exact Hpa | now apply IH].
    + intros Hall. apply IH. intros x Hx. apply Hall. now right.
Qed.

(** The final test answers 'left' or 'right'. *)
Lemma sideOfRelative_side (r : num) :
  sideOfRelative r = RecLeft \/ sideOfRelative r = RecRight.
Proof. unfold sideOfRelative. destruct (_ && _); auto. Qed.

(** X22.  Which answer [getSeatRecommendation] gives.  'No optimal window
    seat' exactly when no sun position has an elevation strictly between 0
    and 80; 'Unable to determine flight direction' exactly when there is
    such a position and the path has fewer than 2 waypoints; 'left' or
    'right' exactly when there is such a position and the path has at least
    2 waypoints. *)
Theorem getSeatRecommendation_messages (sunPositions : list SunPosition)
    (flightPath : list FlightPath.Waypoint) :
  (getSeatRecommendation sunPositions flightPath = NoOptimalWindowSeat <->
   forall pos, In pos sunPositions -> isVisible pos = false) /\
  (getSeatRecommendation sunPositions flightPath = UnableToDetermine <->
   (exists pos, In pos sunPositions /\ isVisible pos = true) /\
   (List.length flightPath < 2)%nat) /\
  (getSeatRecommendation sunPositions flightPath = RecLeft \/
   getSeatRecommendation sunPositions flightPath = RecRight <->
   (exists pos, In pos sunPositions /\ isVisible pos = true) /\
   (2 <= List.length flightPath)%nat).
Proof.
  unfold getSeatRecommendation.
  pose proof (filter_nil isVisible sunPositions) as Hnil.
  destruct (filter isVisible sunPositions) as [|v visible] eqn:Hvisible.
  - assert (Hall : forall pos, In pos sunPositions -> isVisible pos = false)
      by now apply Hnil.
    assert (Hnone : ~ exists pos, In pos sunPositions /\ isVisible pos = true).
    { intros (pos & Hin & Htrue). rewrite (Hall pos Hin) in Htrue. discriminate. }
    cbn [List.length Nat.eqb].
    split; [|split]; split.
    + intros _; exact Hall.
    + reflexivity.
    + discriminate.
    + intros [Hex _]; contradiction.
    + intros [Hl | Hr]; discriminate.
    + intros [Hex _]; contradiction.
  - assert (Hsome : exists pos, In pos sunPositions /\ isVisible pos = true).
    { exists v. apply filter_In. rewrite Hvisible. now left. }
    assert (Hnot : ~ forall pos, In pos sunPositions -> isVisible pos = false).
    { intros Hall. apply Hnil in Hall. discriminate. }
    cbn [List.length Nat.eqb].
    destruct flightPath as [|startPoint [|second rest]]; cbn [List.length].
    1, 2: (split; [|split]; split;
           [ discriminate
           | intros Hall; elim (Hnot Hall)
           | intros _; split; [exact Hsome | lia]
           | reflexivity
           | intros [Hl | Hr]; discriminate
           | intros [_ Hlen]; lia ]).
    cbv zeta.
    match goal with
    | |- context [sideOfRelative ?r] =>
        destruct (sideOfRelative_side r) as [Hside | Hside]; rewrite Hside
    end;
    (split; [|split]; split;
     [ discriminate
     | intros Hall; elim (Hnot Hall)
     | discriminate
     | intros [_ Hlen]; lia
     | intros _; split; [exact Hsome | lia]
     | intros _; auto ]).
Qed.

(** *** The side *)

Lemma rem_nonneg (x : R) : 0 <= x -> 0 <= rem x 360 < 360.
Proof.
  intros Hx. unfold rem, trunc.
  assert (0 <= x / 360) by (apply Rmult_le_pos; lra).
  destruct (Rle_dec 0 (x / 360)); [|lra].
  pose proof (Zfloor_bound (x / 360)). lra.
Qed.

(** The remainder of any number. *)
Lemma rem_range (x : R) : -360 < rem x 360 < 360.
Proof.
  unfold rem. pose proof (FlightPathFacts.trunc_bounds (x / 360)). lra.
Qed.

(** The double remainder lands in [0, 360). *)
Lemma normalize360_range (a : R) : 0 <= normalize360 a < 360.
Proof.
  unfold normalize360. apply rem_nonneg. pose proof (rem_range a). lra.
Qed.

(** On a difference of two angles of [0, 360) the two corrections are a
    reduction modulo 360; the second one never fires. *)
Lemma wrapRelative_normalize (r : R) :
  -360 < r < 360 -> wrapRelative (Some r) = Some (normalize360 r).
Proof.
  intros Hr. unfold wrapRelative, lt, gt, lt, add, lift2, Rltb.
  destruct (Rlt_dec r 0).
  - rewrite normalize360_neg by lra. destruct (Rlt_dec 360 (r + 360)); [lra | reflexivity].
  - rewrite normalize360_nonneg by lra. destruct (Rlt_dec 360 r); [lra | reflexivity].
Qed.

(** X23.  The side.  With a visible sun position and at least two waypoints
    the recommendation is 'left' exactly when the mean azimuth of the
    visible positions, reduced modulo 360, minus the flight bearing,
    reduced modulo 360 again, is at most 180; when the mean azimuth or a
    coordinate of the two end waypoints is NaN the recommendation is
    'right'. *)
Theorem getSeatRecommendation_side (sunPositions : list SunPosition)
    (startPoint : FlightPath.Waypoint) (rest : list FlightPath.Waypoint) :
  (exists pos, In pos sunPositions /\ isVisible pos = true) ->
  rest <> [] ->
  let endPoint := last rest startPoint in
  getSeatRecommendation sunPositions (startPoint :: rest) =
    match averageAzimuth (filter isVisible sunPositions),
          calculateBearingNum (FlightPath.lat startPoint) (FlightPath.lon startPoint)
                              (FlightPath.lat endPoint) (FlightPath.lon endPoint) with
    | Some avgAzimuth, Some flightBearing =>
        if Rleb (normalize360 (normalize360 avgAzimuth - flightBearing)) 180
        then RecLeft else RecRight
    | _, _ => RecRight
    end.
Proof.
  intros (v & Hin & Hv) Hrest endPoint.
  unfold getSeatRecommendation.
  assert (Hvisible : In v (filter isVisible sunPositions)) by (apply filter_In; auto).
  destruct (filter isVisible sunPositions) as [|v0 visible] eqn:Hfilter; [contradiction|].
  cbn [List.length Nat.eqb].
  destruct rest as [|second rest']; [contradiction|].
  fold endPoint.
  destruct (averageAzimuth (v0 :: visible)) as [avgAzimuth|];
    [|destruct (calculateBearingNum _ _ _ _); reflexivity].
  unfold calculateBearingNum.
  destruct (FlightPath.lat startPoint) as [la1|]; [|reflexivity].
  destruct (FlightPath.lon startPoint) as [lo1|]; [|reflexivity].
  destruct (FlightPath.lat endPoint) as [la2|]; [|reflexivity].
  destruct (FlightPath.lon endPoint) as [lo2|]; [|reflexivity].
  cbn [lift1 sub lift2].
  pose proof (normalize360_range avgAzimuth) as Hsun.
  pose proof (calculateBearing_range la1 lo1 la2 lo2) as Hbearing.
  rewrite wrapRelative_normalize by lra.
  pose proof (normalize360_range (normalize360 avgAzimuth - calculateBearing la1 lo1 la2 lo2))
    as Hrel.
  unfold sideOfRelative, ge, le.
  replace (Rleb 0 (normalize360 (normalize360 avgAzimuth - calculateBearing la1 lo1 la2 lo2)))
    with true by (symmetry; apply Rleb_true; lra).
  reflexivity.
Qed.

(** The sun due East of a flight to the North. *)
Lemma getSeatRecommendation_side_witness :
  let sample := mkSunPosition (Some 0) (Some 0) 0 (Some (-90)) (Some 30) in
  let startPoint := FlightPath.mkWaypoint (Some 0) (Some 0) 0 in
  let endPoint := FlightPath.mkWaypoint (Some 10) (Some 0) 1000 in
  getSeatRecommendation [sample] [startPoint; endPoint] =
    match averageAzimuth (filter isVisible [sample]),
          calculateBearingNum (Some 0) (Some 0) (Some 10) (Some 0) with
    | Some avgAzimuth, Some flightBearing =>
        if Rleb (normalize360 (normalize360 avgAzimuth - flightBearing)) 180
        then RecLeft else RecRight
    | _, _ => RecRight
    end.
Proof.
  intros sample startPoint endPoint.
  apply (getSeatRecommendation_side [sample] startPoint [endPoint]).
  - exists sample. split; [now left|].
    unfold isVisible, sample, gt, lt, Rltb; simpl. rdec; reflexivity.
  - discriminate.
Defined.

End RecommendationFacts.

(* ------------------------------------------------------------------ *)
(** ** The sampling of the analysis *)

Module SamplingFacts.
Import JsNumber Js FlightPath Host EnhancedSunAnalysis.
Import NumFacts FlightPathFacts InterpolationFacts GreatCircleFacts RouteFacts.

(** The number of samples of a duration. *)
Lemma quarter_hours (duration : R) :
  0 <= duration ->
  (0 <= Zfloor (4 * duration))%Z /\
  Z.to_nat (Zfloor (duration * 60 / 15) + 1) = S (Z.to_nat (Zfloor (4 * duration))).
Proof.
  intros Hd. replace (duration * 60 / 15) with (4 * duration) by field.
  pose proof (Zfloor_bound (4 * duration)) as [_ Hfloor].
  assert (-1 < Zfloor (4 * duration))%Z by (apply lt_IZR; lra).
  split; lia.
Qed.

(** The progress of the sampling point of index [k]. *)
Lemma samplingPointAt_progress (fromCoords toCoords : Coords) (startTime : option Z)
    (duration : R) (k : nat) :
  0 < duration ->
  SamplingPoint.progressPercent
    (samplingPointAt fromCoords toCoords startTime (duration * 60) (INR k * 15))
  = Some (25 * INR k / duration).
Proof.
  intros Hd. unfold samplingPointAt, div0; cbv zeta.
  destruct (Req_dec_T (duration * 60) 0); [lra|].
  cbn [SamplingPoint.progressPercent lift1]. f_equal. field. lra.
Qed.

(** The position of the sampling point of index [k]. *)
Lemma samplingPointAt_position (fromCoords toCoords : Coords) (startTime : option Z)
    (duration : R) (k : nat) :
  0 < duration ->
  let point := samplingPointAt fromCoords toCoords startTime (duration * 60) (INR k * 15) in
  let position :=
    interpolateGreatCircle fromCoords toCoords (Some (INR k / (4 * duration))) in
  SamplingPoint.lat point = option_map fst position /\
  SamplingPoint.lon point = option_map snd position.
Proof.
  intros Hd. unfold samplingPointAt, div0; cbv zeta.
  destruct (Req_dec_T (duration * 60) 0); [lra|].
  cbn [SamplingPoint.lat SamplingPoint.lon].
  replace (INR k * 15 / (duration * 60)) with (INR k / (4 * duration)) by (field; lra).
  split; reflexivity.
Qed.





End SamplingFacts.

(* ------------------------------------------------------------------ *)
(** ** The flags of the events *)

Module FlagFacts.
Import JsNumber Js Host EnhancedSunAnalysis.
Import EventFacts ReportFacts PipelineFacts.

(** Two consecutive samples of the timeline make a crossing. *)
Definition crossesAt (cross : SunCondition.t -> SunCondition.t -> bool)
    (sunAnalysis : list SunCondition.t) : Prop :=
  exists before prev current after,
    sunAnalysis = before ++ prev :: current :: after /\ cross prev current = true.

(** A crossing after [prev] is a crossing of two consecutive samples. *)
Lemma noCrossing_false (cross : SunCondition.t -> SunCondition.t -> bool)
    (rest : list SunCondition.t) :
  forall prev, noCrossing cross prev rest = false <-> crossesAt cross (prev :: rest).
Proof.
  induction rest as [|current rest IH]; intros prev; simpl.
  - split; [discriminate|].
    intros (before & p & c & after & Heq & _).
    destruct before as [|b [|b' before]]; discriminate.
  - split.
    + intros Hfalse. destruct (cross prev current) eqn:Hcross.
      * now exists [], prev, current, rest.
      * simpl in Hfalse. apply IH in Hfalse as (before & p & c & after & Heq & Hpc).
        exists (prev :: before), p, c, after. split; [|exact Hpc].
        simpl. now rewrite Heq.
    + intros (before & p & c & after & Heq & Hpc).
      destruct before as [|b before]; simpl in Heq.
      * injection Heq as -> -> ->. now rewrite Hpc.
      * injection Heq as -> Heq.
        assert (Hrest : noCrossing cross current rest = false)
          by (apply IH; now exists before, p, c, after).
        rewrite Hrest. apply andb_false_r.
Qed.

Section WithHost.
Context `{Env}.

(** The sunrise flag after the loop. *)
Lemma detectLoop_sunrise_flag (rest : list SunCondition.t) :
  forall (events : Events.t) (prev : SunCondition.t),
    Events.willSeeSunrise (detectLoop events (Some prev) rest)
    = Events.willSeeSunrise events || negb (noCrossing isSunriseCrossing prev rest).
Proof.
  induction rest as [|current rest IH]; intros events prev.
  - simpl. now rewrite orb_false_r.
  - cbn [detectLoop noCrossing]. rewrite IH.
    destruct (step_sunrise events prev current) as [_ ->].
    destruct (isSunriseCrossing prev current), (Events.willSeeSunrise events),
             (noCrossing isSunriseCrossing current rest); reflexivity.
Qed.

(** The sunset flag after the loop. *)
Lemma detectLoop_sunset_flag (rest : list SunCondition.t) :
  forall (events : Events.t) (prev : SunCondition.t),
    Events.willSeeSunset (detectLoop events (Some prev) rest)
    = Events.willSeeSunset events || negb (noCrossing isSunsetCrossing prev rest).
Proof.
  induction rest as [|current rest IH]; intros events prev.
  - simpl. now rewrite orb_false_r.
  - cbn [detectLoop noCrossing]. rewrite IH.
    destruct (step_sunset events prev current) as [_ ->].
    destruct (isSunsetCrossing prev current), (Events.willSeeSunset events),
             (noCrossing isSunsetCrossing current rest); reflexivity.
Qed.

(** The night and golden-hour flags after one iteration. *)
Lemma step_conditions (events : Events.t) (prev : option SunCondition.t)
    (current : SunCondition.t) :
  let events' :=
    match prev with
    | Some p => detectTransitions (countCondition events current) p current
    | None => countCondition events current
    end in
  Events.willSeeNight events'
    = Events.willSeeNight events || nightLike (SunCondition.condition current) /\
  Events.willSeeGoldenHour events'
    = Events.willSeeGoldenHour events || isGoldenHour (SunCondition.condition current).
Proof.
  destruct prev as [p|]; cbv zeta; unfold detectTransitions, countCondition;
    try destruct (isSunriseCrossing p current);
    try destruct (isSunsetCrossing p current);
    destruct (SunCondition.condition current); simpl;
    destruct (Events.willSeeNight events), (Events.willSeeGoldenHour events);
    split; reflexivity.
Qed.

(** The night and golden-hour flags after the loop. *)
Lemma detectLoop_conditions (rest : list SunCondition.t) :
  forall (events : Events.t) (prev : option SunCondition.t),
    Events.willSeeNight (detectLoop events prev rest)
      = Events.willSeeNight events
        || existsb (fun s => nightLike (SunCondition.condition s)) rest /\
    Events.willSeeGoldenHour (detectLoop events prev rest)
      = Events.willSeeGoldenHour events
        || existsb (fun s => isGoldenHour (SunCondition.condition s)) rest.
Proof.
  induction rest as [|current rest IH]; intros events prev.
  - simpl. now rewrite !orb_false_r.
  - cbn [detectLoop existsb].
    destruct (step_conditions events prev current) as [Hnight Hgolden].
    cbv zeta in Hnight, Hgolden.
    match goal with
    | |- context [detectLoop ?e ?p rest] => destruct (IH e p) as [-> ->]
    end.
    rewrite Hnight, Hgolden, !orb_assoc. split; reflexivity.
Qed.

(** The event of a kind is recorded together with its flag. *)
Definition recorded (events : Events.t) : Prop :=
  (Events.sunrise events = None <-> Events.willSeeSunrise events = false) /\
  (Events.sunset events = None <-> Events.willSeeSunset events = false).

Lemma step_recorded (events : Events.t) (prev : option SunCondition.t)
    (current : SunCondition.t) :
  recorded events ->
  recorded (match prev with
            | Some p => detectTransitions (countCondition events current) p current
            | None => countCondition events current
            end).
Proof.
  intros [Hrise Hset]. destruct prev as [p|].
  - destruct (step_sunrise events p current) as [Hr Hrf].
    destruct (step_sunset events p current) as [Hs Hsf].
    cbv zeta in Hr, Hrf, Hs, Hsf. unfold recorded.
    rewrite Hr, Hrf, Hs, Hsf.
    destruct (isSunriseCrossing p current), (isSunsetCrossing p current); simpl;
      split; try assumption; split; discriminate.
  - destruct (countCondition_sunrise events current) as (Hr & Hrf & Hs & Hsf).
    unfold recorded. now rewrite Hr, Hrf, Hs, Hsf.
Qed.

Lemma detectLoop_recorded (rest : list SunCondition.t) :
  forall (events : Events.t) (prev : option SunCondition.t),
    recorded events -> recorded (detectLoop events prev rest).
Proof.
  induction rest as [|current rest IH]; intros events prev Hrec; [exact Hrec|].
  cbn [detectLoop]. apply IH. now apply step_recorded.
Qed.

(** X25.  The flags of [detectSunEvents].  A sunrise (sunset) is announced
    exactly when two consecutive samples cross the horizon upwards
    (downwards); night exactly when a sample is NIGHT or TWILIGHT; golden
    hour exactly when a sample is GOLDEN_HOUR; and the sunrise (sunset)
    event is null exactly when its flag is false. *)
Theorem detectSunEvents_flags (sunAnalysis : list SunCondition.t) :
  let events := detectSunEvents sunAnalysis in
  (Events.willSeeSunrise events = true <-> crossesAt isSunriseCrossing sunAnalysis) /\
  (Events.willSeeSunset events = true <-> crossesAt isSunsetCrossing sunAnalysis) /\
  (Events.willSeeNight events = true <->
   exists s, In s sunAnalysis /\
             (SunCondition.condition s = NIGHT \/ SunCondition.condition s = TWILIGHT)) /\
  (Events.willSeeGoldenHour events = true <->
   exists s, In s sunAnalysis /\ SunCondition.condition s = GOLDEN_HOUR) /\
  (Events.sunrise events = None <-> Events.willSeeSunrise events = false) /\
  (Events.sunset events = None <-> Events.willSeeSunset events = false).
Proof.
  intros events.
  assert (Hrecorded : recorded events).
  { apply detectLoop_recorded. split; split; reflexivity. }
  destruct (detectLoop_conditions sunAnalysis initialEvents None) as [Hnight Hgolden].
  fold (detectSunEvents sunAnalysis) in Hnight, Hgolden. fold events in Hnight, Hgolden.
  simpl in Hnight, Hgolden.
  assert (Hrise : Events.willSeeSunrise events = true <->
                  crossesAt isSunriseCrossing sunAnalysis).
  { unfold events, detectSunEvents. destruct sunAnalysis as [|first rest].
    - simpl. split; [discriminate|].
      intros (before & p & c & after & Heq & _). now destruct before.
    - cbn [detectLoop]. rewrite detectLoop_sunrise_flag.
      destruct (countCondition_sunrise initialEvents first) as (_ & -> & _).
      simpl. rewrite <- noCrossing_false.
      destruct (noCrossing isSunriseCrossing first rest); simpl; split; congruence. }
  assert (Hset : Events.willSeeSunset events = true <->
                 crossesAt isSunsetCrossing sunAnalysis).
  { unfold events, detectSunEvents. destruct sunAnalysis as [|first rest].
    - simpl. split; [discriminate|].
      intros (before & p & c & after & Heq & _). now destruct before.
    - cbn [detectLoop]. rewrite detectLoop_sunset_flag.
      destruct (countCondition_sunrise initialEvents first) as (_ & _ & _ & ->).
      simpl. rewrite <- noCrossing_false.
      destruct (noCrossing isSunsetCrossing first rest); simpl; split; congruence. }
  split; [exact Hrise|]. split; [exact Hset|]. split; [|split; [|exact Hrecorded]].
  - rewrite Hnight, existsb_exists. split.
    + intros (s & Hin & Hs). exists s. split; [exact Hin|].
      destruct (SunCondition.condition s); try discriminate; auto.
    + intros (s & Hin & [Hs | Hs]); exists s; rewrite Hs; auto.
  - rewrite Hgolden, existsb_exists. split.
    + intros (s & Hin & Hs). exists s. split; [exact Hin|].
      destruct (SunCondition.condition s); try discriminate; auto.
    + intros (s & Hin & Hs); exists s; rewrite Hs; auto.
Qed.

End WithHost.
End FlagFacts.

(* ------------------------------------------------------------------ *)
(** ** The report *)

Module ReportShapeFacts.
Import JsNumber Js FlightPath Host EnhancedSunAnalysis.
Import NumFacts EventFacts ReportFacts PipelineFacts SeatSideFacts SamplingFacts.

(** X26.  The report.  For events that go with their flags and two airports
    of the table the report is returned with the timeline it was given; the
    seat suggestion is decided by the quadrant of the flight bearing when
    exactly one of sunrise and sunset occurs, and is 'either' exactly when
    both or none occur; the summary is never empty; it holds the bright
    daylight line exactly when there is no sunrise, no sunset and no night;
    and the camera advice is given exactly when a sunrise or a sunset
    occurs. *)
Theorem generateFlightSunReport_shape (events : Events.t)
    (sunAnalysis : list SunCondition.t) (fromAirport toAirport : string)
    (fromCoords toCoords : Coords) :
  eventsPresent events ->
  lookup fromAirport = Some fromCoords ->
  lookup toAirport = Some toCoords ->
  exists report,
    generateFlightSunReport events sunAnalysis fromAirport toAirport = Ok report /\
    FlightSunAnalysis.timeline report = sunAnalysis /\
    FlightSunAnalysis.seatSuggestion report =
      (let bearing := generalFlightBearing fromCoords toCoords in
       let northOrEast := Rltb bearing 135 || Rleb 315 bearing in
       match Events.willSeeSunrise events, Events.willSeeSunset events with
       | true, false => if northOrEast then SideRight else SideLeft
       | false, true => if northOrEast then SideLeft else SideRight
       | _, _ => SideEither
       end) /\
    (FlightSunAnalysis.seatSuggestion report = SideEither <->
     Events.willSeeSunrise events = Events.willSeeSunset events) /\
    FlightSunAnalysis.summary report <> [] /\
    (In BrightDaylight (FlightSunAnalysis.summary report) <->
     Events.willSeeSunrise events = false /\ Events.willSeeSunset events = false /\
     Events.willSeeNight events = false) /\
    (In BringCamera (FlightSunAnalysis.recommendations report) <->
     Events.willSeeSunrise events = true \/ Events.willSeeSunset events = true).
Proof.
  intros [Hr Hs] Hfrom Hto. unfold generateFlightSunReport.
  unfold bothBranch, sunriseBranch, sunsetBranch,
    determineSeatSideForSunrise, determineSeatSideForSunset.
  rewrite Hfrom, Hto, sunriseSideOfBearing_quadrant, sunsetSideOfBearing_quadrant.
  cbv zeta.
  destruct (Rltb (generalFlightBearing fromCoords toCoords) 135
            || Rleb 315 (generalFlightBearing fromCoords toCoords));
  destruct (Events.willSeeSunrise events) eqn:Hwr;
  destruct (Events.willSeeSunset events) eqn:Hws;
  try (destruct (Events.sunrise events); [|now elim (Hr eq_refl)]);
  try (destruct (Events.sunset events); [|now elim (Hs eq_refl)]);
  destruct (Events.willSeeNight events) eqn:Hwn;
  destruct (Events.willSeeGoldenHour events) eqn:Hwg;
  simpl; rewrite ?Hwn, ?Hwg; simpl;
  (eexists; split; [reflexivity|]; simpl;
   repeat split; try discriminate; try tauto; try congruence;
   intuition (try discriminate; try congruence)).
Qed.

(** A timeline of two samples with the sun one degree below the horizon at
    the departure and one degree above it at the arrival. *)
Definition dawn : list SunCondition.t := [sampleAt (-1) 0; sampleAt 1 100].

(** On that timeline a sunrise is detected at the second sample, no sunset,
    and the first sample counts as night. *)
Lemma detectSunEvents_dawn :
  @detectSunEvents silentHost dawn
  = Events.mk (Some (@eventAt silentHost (sampleAt 1 100))) None true true false false
              (Some (0 + 15 + 15)) (Some 0) (Some 0).
Proof.
  unfold detectSunEvents, dawn, detectLoop, countCondition, detectTransitions,
    isSunriseCrossing, isSunsetCrossing, sampleAt, classifySunCondition.
  cbn [SunCondition.condition SunCondition.sunElevation].
  unfold gt, le, lt, Rleb, Rltb. rdec. reflexivity.
Qed.

(** The report on a flight from Jaipur to Delhi, heading north-east, with a
    sunrise on the way: the right side, the camera advice and no bright
    daylight line. *)
Lemma generateFlightSunReport_shape_witness :
  exists report,
    generateFlightSunReport (@detectSunEvents silentHost dawn) dawn "JAI" "DEL"
      = Ok report /\
    FlightSunAnalysis.timeline report = dawn /\
    FlightSunAnalysis.seatSuggestion report = SideRight /\
    FlightSunAnalysis.summary report <> [] /\
    ~ In BrightDaylight (FlightSunAnalysis.summary report) /\
    In BringCamera (FlightSunAnalysis.recommendations report).
Proof.
  destruct (generateFlightSunReport_shape (@detectSunEvents silentHost dawn) dawn
              "JAI" "DEL" FlightPathFacts.JAI FlightPathFacts.DEL
              (@detectSunEvents_present silentHost dawn) eq_refl eq_refl)
    as (report & Hreport & Htimeline & Hseat & _ & Hsummary & Hbright & Hcamera).
  rewrite detectSunEvents_dawn in Hseat, Hbright, Hcamera.
  cbn [Events.willSeeSunrise Events.willSeeSunset Events.willSeeNight] in *.
  exists report. split; [exact Hreport|]. split; [exact Htimeline|]. split.
  - rewrite Hseat. cbv zeta. pose proof bearing_JAI_DEL as Hbearing.
    unfold Rltb. destruct (Rlt_dec _ 135); [reflexivity | lra].
  - split; [exact Hsummary|]. split.
    + intros Hin. apply Hbright in Hin as [Hfalse _]. discriminate.
    + apply Hcamera. now left.
Defined.

(** *** The durations of a report *)

Lemma generateFlightSunReport_copies (events : Events.t)
    (sunAnalysis : list SunCondition.t) (fromAirport toAirport : string)
    (report : FlightSunAnalysis.t) :
  generateFlightSunReport events sunAnalysis fromAirport toAirport = Ok report ->
  FlightSunAnalysis.timeline report = sunAnalysis /\
  FlightSunAnalysis.nightDuration report = Some (Events.nightMinutes events) /\
  FlightSunAnalysis.dayDuration report = Some (Events.dayMinutes events).
Proof.
  unfold generateFlightSunReport.
  match goal with |- bind ?m _ = _ -> _ => destruct m end; simpl; [|discriminate].
  intros [= <-]. repeat split.
Qed.

(** Every sample is counted once. *)
Lemma countWhere_partition (samples : list SunCondition.t) :
  INR (countWhere nightLike samples) + INR (countWhere isDaylight samples)
    + INR (countWhere isGoldenHour samples)
  = INR (List.length samples).
Proof.
  induction samples as [|s samples IH].
  - unfold countWhere; simpl. ring.
  - rewrite !countWhere_cons. cbn [List.length]. rewrite S_INR, <- IH.
    destruct (SunCondition.condition s); simpl; ring.
Qed.

Section WithHost.
Context `{Env}.


(** A negative duration gives no sample. *)
Lemma generateFlightSamplingPoints_negative (fromCoords toCoords : Coords)
    (startTime : option Z) (duration : R) :
  duration < 0 ->
  generateFlightSamplingPoints fromCoords toCoords startTime duration = [].
Proof.
  intros Hd. unfold generateFlightSamplingPoints; cbv zeta.
  pose proof (Zfloor_bound (duration * 60 / 15)) as [Hfloor _].
  assert (Zfloor (duration * 60 / 15) < 0)%Z by (apply lt_IZR; lra).
  replace (Z.to_nat (Zfloor (duration * 60 / 15) + 1)) with 0%nat by lia.
  reflexivity.
Qed.

(** The duration 0 gives one sample, at the fraction 0 / 0. *)
Lemma analyzeSunConditions_zero_duration (fromCoords toCoords : Coords)
    (startTime : option Z) :
  exists sample,
    analyzeSunConditions (generateFlightSamplingPoints fromCoords toCoords startTime 0)
      = [sample] /\
    SunCondition.lat sample = NaN /\ SunCondition.lon sample = NaN /\
    SunCondition.sunElevation sample = NaN /\
    SunCondition.progressPercent sample = NaN /\
    SunCondition.condition sample = DAYLIGHT.
Proof.
  unfold generateFlightSamplingPoints; cbv zeta.
  replace (0 * 60 / 15) with (IZR 0) by (simpl; field).
  rewrite ZfloorZ. cbn [Z.add Z.to_nat Pos.to_nat Pos.iter_op Nat.add seq map].
  unfold samplingPointAt, div0; cbv zeta.
  destruct (Req_dec_T (0 * 60) 0) as [_|Hne]; [|exfalso; apply Hne; ring].
  unfold interpolateGreatCircle, le, ge. simpl.
  eexists. split; [reflexivity|].
  unfold sunConditionAt, sunAt; simpl.
  destruct (match startTime with Some st => _ | None => None end); repeat split.
Qed.

(** X28.  A duration of 0 or less, with a start that is a date and an
    arrival within the range of the dates, is analysed as a bright daylight
    flight: no flag is set, the summary is the bright daylight line, the
    seat is 'either' and the night duration is 0; the timeline is empty for
    a negative duration and a single DAYLIGHT sample with NaN coordinates
    for the duration 0. *)
Theorem analyzeFlightSunConditions_nonpositive_duration
    (fromAirport toAirport departureDate departureTime : string)
    (flightDuration : R) (fromCoords toCoords : Coords) (startTime : Z) :
  lookup fromAirport = Some fromCoords ->
  lookup toAirport = Some toCoords ->
  parseDate (departureDate ++ "T" ++ departureTime ++ ":00Z")%string = Some startTime ->
  arrivalInRange startTime flightDuration ->
  flightDuration <= 0 ->
  exists report,
    analyzeFlightSunConditions fromAirport toAirport departureDate departureTime
                               flightDuration = Ok report /\
    FlightSunAnalysis.willSeeSunrise report = false /\
    FlightSunAnalysis.willSeeSunset report = false /\
    FlightSunAnalysis.willSeeNight report = false /\
    FlightSunAnalysis.willSeeGoldenHour report = false /\
    FlightSunAnalysis.summary report = [BrightDaylight] /\
    FlightSunAnalysis.recommendations report = [ScenicLandscape] /\
    FlightSunAnalysis.seatSuggestion report = SideEither /\
    FlightSunAnalysis.nightDuration report = Some (Some 0) /\
    (flightDuration < 0 -> FlightSunAnalysis.timeline report = []) /\
    (flightDuration = 0 ->
     exists sample,
       FlightSunAnalysis.timeline report = [sample] /\
       SunCondition.lat sample = NaN /\ SunCondition.lon sample = NaN /\
       SunCondition.condition sample = DAYLIGHT).
Proof.
  intros Hfrom Hto Hstart Harrival Hd.
  rewrite (analyzeFlightSunConditions_runs _ _ _ _ _ _ _ _ Hfrom Hto Hstart Harrival).
  unfold timelineOf. destruct Hd as [Hneg | Hzero].
  - rewrite generateFlightSamplingPoints_negative by exact Hneg.
    eexists. split; [reflexivity|]. simpl.
    repeat split; try reflexivity. intros Hz; lra.
  - subst flightDuration.
    destruct (analyzeSunConditions_zero_duration fromCoords toCoords (Some startTime))
      as (sample & -> & Hlat & Hlon & _ & _ & Hcondition).
    unfold detectSunEvents. cbn [detectLoop]. unfold countCondition. rewrite Hcondition.
    eexists. split; [reflexivity|]. simpl.
    repeat split; try reflexivity.
    + intros Hz; lra.
    + intros _. exists sample. repeat split; assumption.
Qed.

End WithHost.


(** Minus two hours from Delhi to Jaipur on the same evening. *)
Lemma analyzeFlightSunConditions_nonpositive_duration_witness :
  exists report,
    @analyzeFlightSunConditions eveningHost "DEL" "JAI" "2025-08-01" "18:00" (-2)
      = Ok report /\
    FlightSunAnalysis.willSeeSunrise report = false /\
    FlightSunAnalysis.willSeeSunset report = false /\
    FlightSunAnalysis.willSeeNight report = false /\
    FlightSunAnalysis.willSeeGoldenHour report = false /\
    FlightSunAnalysis.summary report = [BrightDaylight] /\
    FlightSunAnalysis.recommendations report = [ScenicLandscape] /\
    FlightSunAnalysis.seatSuggestion report = SideEither /\
    FlightSunAnalysis.nightDuration report = Some (Some 0) /\
    (-2 < 0 -> FlightSunAnalysis.timeline report = []) /\
    (-2 = 0 ->
     exists sample,
       FlightSunAnalysis.timeline report = [sample] /\
       SunCondition.lat sample = NaN /\ SunCondition.lon sample = NaN /\
       SunCondition.condition sample = DAYLIGHT).
Proof.
  apply (@analyzeFlightSunConditions_nonpositive_duration eveningHost
           "DEL" "JAI" "2025-08-01" "18:00" (-2) FlightPathFacts.DEL FlightPathFacts.JAI
           1754071200000);
    [reflexivity | reflexivity | reflexivity | apply evening_arrival; lra | lra].
Defined.

End ReportShapeFacts.

(* ------------------------------------------------------------------ *)
(** ** Night on a flight with a sunrise or a sunset *)

Module NightFacts.
Import JsNumber Js FlightPath Host EnhancedSunAnalysis.
Import NumFacts FlightPathFacts InterpolationFacts RouteFacts.
Import EventFacts ReportFacts PipelineFacts SamplingFacts FlagFacts.

(** *** A crossing leaves a night sample *)

(** One of two samples that cross the horizon, upwards or downwards, is at
    or below it, and is classified NIGHT or TWILIGHT. *)
Lemma crossing_has_night (prev current : SunCondition.t) :
  classified prev -> classified current ->
  isSunriseCrossing prev current = true \/ isSunsetCrossing prev current = true ->
  nightLike (SunCondition.condition prev) = true \/
  nightLike (SunCondition.condition current) = true.
Proof.
  unfold classified, isSunriseCrossing, isSunsetCrossing.
  intros -> -> [Hrise | Hset].
  - apply andb_prop in Hrise as [Hbelow _]. left.
    destruct (ClassifierFacts.below_horizon_is_night _ Hbelow) as [-> | ->]; reflexivity.
  - apply andb_prop in Hset as [_ Hbelow]. right.
    destruct (ClassifierFacts.below_horizon_is_night _ Hbelow) as [-> | ->]; reflexivity.
Qed.

(** So a classified timeline with a crossing holds a night sample. *)
Lemma crossesAt_has_night (cross : SunCondition.t -> SunCondition.t -> bool)
    (sunAnalysis : list SunCondition.t) :
  (forall prev current, cross prev current = true ->
     isSunriseCrossing prev current = true \/ isSunsetCrossing prev current = true) ->
  Forall classified sunAnalysis ->
  crossesAt cross sunAnalysis ->
  exists sample,
    In sample sunAnalysis /\ nightLike (SunCondition.condition sample) = true.
Proof.
  intros Hcross Hall (before & prev & current & after & -> & Hpc).
  rewrite Forall_forall in Hall.
  assert (Hprev : In prev (before ++ prev :: current :: after))
    by (apply in_or_app; right; now left).
  assert (Hcurrent : In current (before ++ prev :: current :: after))
    by (apply in_or_app; right; right; now left).
  destruct (crossing_has_night prev current (Hall _ Hprev) (Hall _ Hcurrent)
              (Hcross _ _ Hpc)) as [Hn | Hn].
  - now exists prev.
  - now exists current.
Qed.

Section WithHost.
Context `{Env}.

(** An event is announced only for a timeline with a crossing of its
    kind. *)
Lemma detectSunEvents_sunrise_crosses (sunAnalysis : list SunCondition.t) :
  Events.willSeeSunrise (detectSunEvents sunAnalysis) = true ->
  crossesAt isSunriseCrossing sunAnalysis.
Proof.
  unfold detectSunEvents. destruct sunAnalysis as [|first rest]; [discriminate|].
  cbn [detectLoop]. rewrite detectLoop_sunrise_flag.
  destruct (countCondition_sunrise initialEvents first) as (_ & -> & _).
  simpl. rewrite <- noCrossing_false.
  now destruct (noCrossing isSunriseCrossing first rest).
Qed.

Lemma detectSunEvents_sunset_crosses (sunAnalysis : list SunCondition.t) :
  Events.willSeeSunset (detectSunEvents sunAnalysis) = true ->
  crossesAt isSunsetCrossing sunAnalysis.
Proof.
  unfold detectSunEvents. destruct sunAnalysis as [|first rest]; [discriminate|].
  cbn [detectLoop]. rewrite detectLoop_sunset_flag.
  destruct (countCondition_sunrise initialEvents first) as (_ & _ & _ & ->).
  simpl. rewrite <- noCrossing_false.
  now destruct (noCrossing isSunsetCrossing first rest).
Qed.

(** The night flag is set by the night samples. *)
Lemma detectSunEvents_night (sunAnalysis : list SunCondition.t) :
  Events.willSeeNight (detectSunEvents sunAnalysis) = true <->
  exists sample,
    In sample sunAnalysis /\ nightLike (SunCondition.condition sample) = true.
Proof.
  unfold detectSunEvents.
  destruct (detectLoop_conditions sunAnalysis initialEvents None) as [-> _].
  simpl. apply existsb_exists.
Qed.

(** On the timeline of an analysis an event of either kind comes with a
    night sample. *)
Lemma timelineOf_event_night (fromCoords toCoords : Coords) (startTime : Z)
    (flightDuration : R) :
  let sunAnalysis := timelineOf fromCoords toCoords startTime flightDuration in
  Events.willSeeSunrise (detectSunEvents sunAnalysis) = true \/
  Events.willSeeSunset (detectSunEvents sunAnalysis) = true ->
  exists sample,
    In sample sunAnalysis /\ nightLike (SunCondition.condition sample) = true.
Proof.
  intros sunAnalysis Hevent.
  assert (Hall : Forall classified sunAnalysis)
    by apply analyzeSunConditions_classified.
  destruct Hevent as [Hrise | Hset].
  - apply (crossesAt_has_night isSunriseCrossing); [now left | exact Hall |].
    now apply detectSunEvents_sunrise_crosses.
  - apply (crossesAt_has_night isSunsetCrossing); [now right | exact Hall |].
    now apply detectSunEvents_sunset_crosses.
Qed.

(** C2.  Every flight analysis in which both a sunrise and a sunset are
    detected reports night.  For two airports of the table, a start that is
    a date and an arrival within the range of the dates (the inputs for
    which [analyzeFlightSunConditions] returns a report at all), the report
    has [willSeeNight = true] as soon as it has [willSeeSunrise = true] and
    [willSeeSunset = true].  One of the two events is enough: a crossing
    has a sample at or below the horizon, which the classifier counts as
    NIGHT or TWILIGHT, so the timeline of such a report holds a night
    sample and its night duration is at least 15 minutes; a report with
    both events and no sample classified NIGHT or TWILIGHT does not
    occur. *)
Theorem analyzeFlightSunConditions_both_events_night
    (fromAirport toAirport departureDate departureTime : string)
    (flightDuration : R) (fromCoords toCoords : Coords) (startTime : Z) :
  lookup fromAirport = Some fromCoords ->
  lookup toAirport = Some toCoords ->
  parseDate (departureDate ++ "T" ++ departureTime ++ ":00Z")%string = Some startTime ->
  arrivalInRange startTime flightDuration ->
  exists report,
    analyzeFlightSunConditions fromAirport toAirport departureDate departureTime
                               flightDuration = Ok report /\
    (FlightSunAnalysis.willSeeSunrise report = true ->
     FlightSunAnalysis.willSeeSunset report = true ->
     FlightSunAnalysis.willSeeNight report = true) /\
    (FlightSunAnalysis.willSeeSunrise report = true \/
     FlightSunAnalysis.willSeeSunset report = true ->
     FlightSunAnalysis.willSeeNight report = true /\
     (exists sample,
        In sample (FlightSunAnalysis.timeline report) /\
        (SunCondition.condition sample = NIGHT \/
         SunCondition.condition sample = TWILIGHT)) /\
     (exists night,
        FlightSunAnalysis.nightDuration report = Some (Some night) /\ 15 <= night)).
Proof.
  intros Hfrom Hto Hstart Harrival.
  rewrite (analyzeFlightSunConditions_runs _ _ _ _ _ _ _ _ Hfrom Hto Hstart Harrival).
  set (sunAnalysis := timelineOf fromCoords toCoords startTime flightDuration).
  destruct (generateFlightSunReport_returns (detectSunEvents sunAnalysis) sunAnalysis
              fromAirport toAirport fromCoords toCoords
              (detectSunEvents_present sunAnalysis) Hfrom Hto) as [report Hreport].
  destruct (generateFlightSunReport_flags _ _ _ _ _ Hreport)
    as (Hrise & Hset & Hnight & Hduration).
  assert (Htimeline : FlightSunAnalysis.timeline report = sunAnalysis).
  { revert Hreport. unfold generateFlightSunReport.
    match goal with |- bind ?m _ = _ -> _ => destruct m end; simpl; [|discriminate].
    now intros [= <-]. }
  assert (Heither :
    FlightSunAnalysis.willSeeSunrise report = true \/
    FlightSunAnalysis.willSeeSunset report = true ->
    exists sample,
      In sample sunAnalysis /\ nightLike (SunCondition.condition sample) = true).
  { rewrite Hrise, Hset. apply timelineOf_event_night. }
  exists report. split; [exact Hreport|]. split.
  - intros Hr _. rewrite Hnight. apply detectSunEvents_night. apply Heither. now left.
  - intros Hevent. destruct (Heither Hevent) as (sample & Hin & Hsample).
    split; [|split].
    + rewrite Hnight. apply detectSunEvents_night. now exists sample.
    + exists sample. rewrite Htimeline. split; [exact Hin|].
      destruct (SunCondition.condition sample); try discriminate; auto.
    + destruct (detectLoop_minutes sunAnalysis initialEvents None 0 0 0
                  eq_refl eq_refl eq_refl) as (Hminutes & _ & _).
      fold (detectSunEvents sunAnalysis) in Hminutes.
      eexists. split; [rewrite Hduration, Hminutes; reflexivity|].
      assert (Hcount : (1 <= countWhere nightLike sunAnalysis)%nat).
      { unfold countWhere.
        assert (Hfiltered :
          In sample (filter (fun s => nightLike (SunCondition.condition s)) sunAnalysis))
          by (apply filter_In; now split).
        destruct (filter _ sunAnalysis); [contradiction Hfiltered | simpl; lia]. }
      apply le_INR in Hcount. simpl in Hcount. lra.
Qed.

End WithHost.

(** *** A flight with both events *)

(** A host at a place where, on the evening of 2025-08-01, the sun stands
    one degree above the horizon at 18:15 UTC and one degree below it at
    any other time. *)
Definition briefDayHost : Env :=
  {| getPosition := fun t _ _ =>
       (0, if (t =? 1754072100000)%Z then PI / 180 else - (PI / 180));
     toLocaleTimeString := fun _ => EmptyString;
     toFixed2 := fun _ => EmptyString;
     parseDate := fun s =>
       if String.eqb s "2025-08-01T18:00:00Z" then Some 1754071200000%Z else None;
     parseFloat := fun _ => None;
     toISOString := fun _ => EmptyString |}.

(** On a route between two different points that are not antipodal the
    points of the sampling have coordinates that are numbers. *)
Lemma samplingPointAt_numbers (fromCoords toCoords : Coords) (startTime : option Z)
    (duration : R) (k : nat) :
  validPoint fromCoords -> validPoint toCoords ->
  fromCoords <> toCoords -> ~ antipodal fromCoords toCoords ->
  0 < duration -> INR k <= 4 * duration ->
  let point := samplingPointAt fromCoords toCoords startTime (duration * 60) (INR k * 15) in
  exists la lo, SamplingPoint.lat point = Some la /\ SamplingPoint.lon point = Some lo.
Proof.
  intros Hva Hvb Hne Hanti Hd Hk point.
  destruct (samplingPointAt_position fromCoords toCoords startTime duration k Hd)
    as [Hlat Hlon]. cbv zeta in Hlat, Hlon. fold point in Hlat, Hlon.
  assert (Hfraction : 0 <= INR k / (4 * duration) <= 1).
  { pose proof (pos_INR k).
    assert (Hinv : 0 < / (4 * duration)) by (apply Rinv_0_lt_compat; lra).
    split.
    - apply Rmult_le_pos; lra.
    - replace 1 with (4 * duration * / (4 * duration)) by (field; lra).
      apply Rmult_le_compat_r; lra. }
  rewrite interpolateGreatCircle_on_route in Hlat, Hlon by assumption.
  destruct (calculateGreatCircle_on_route fromCoords toCoords (INR k / (4 * duration))
              Hva Hvb Hne Hanti Hfraction) as (p & Hp & _).
  rewrite Hp in Hlat, Hlon. now exists (fst p), (snd p).
Qed.

(** The elevation that the brief day gives to a sampling point. *)
Lemma sunConditionAt_briefDay (point : SamplingPoint.t) (t : Z) (la lo : R) :
  SamplingPoint.time point = Some t ->
  SamplingPoint.lat point = Some la -> SamplingPoint.lon point = Some lo ->
  SunCondition.sunElevation (@sunConditionAt briefDayHost point)
  = Some (if (t =? 1754072100000)%Z then 1 else -1).
Proof.
  intros Htime Hlat Hlon. unfold sunConditionAt, sunAt.
  rewrite Htime, Hlat, Hlon. cbn [getPosition briefDayHost snd SunCondition.sunElevation lift1].
  f_equal. destruct (t =? 1754072100000)%Z; field; apply PI_neq0.
Qed.

Lemma DEL_JAI_route :
  validPoint DEL /\ validPoint JAI /\ DEL <> JAI /\ ~ antipodal DEL JAI.
Proof.
  split; [exact DEL_valid|]. split; [exact JAI_valid|]. split.
  - intros Heq. injection Heq as Hlat _. lra.
  - intros [Hsum _]. simpl in Hsum. lra.
Qed.

(** The sample taken [k] quarters of an hour after 18:00 on the flight of
    half an hour from Delhi to Jaipur. *)
Lemma briefDay_sample (k : nat) (t : Z) :
  (k <= 2)%nat -> t = (1754071200000 + 900000 * Z.of_nat k)%Z ->
  SunCondition.sunElevation
    (@sunConditionAt briefDayHost
       (samplingPointAt DEL JAI (Some 1754071200000%Z) (1 / 2 * 60) (INR k * 15)))
  = Some (if (t =? 1754072100000)%Z then 1 else -1).
Proof.
  intros Hk Ht. destruct DEL_JAI_route as (Hva & Hvb & Hne & Hanti).
  assert (Hquarters : INR k <= 4 * (1 / 2)).
  { replace (4 * (1 / 2)) with (INR 2) by (simpl; lra). now apply le_INR. }
  destruct (samplingPointAt_numbers DEL JAI (Some 1754071200000%Z) (1 / 2) k
              Hva Hvb Hne Hanti ltac:(lra) Hquarters) as (la & lo & Hlat & Hlon).
  apply (sunConditionAt_briefDay _ t la lo); [|exact Hlat | exact Hlon].
  unfold samplingPointAt; cbn [SamplingPoint.time].
  replace (IZR 1754071200000 + INR k * 15 * 60 * 1000) with (IZR t).
  - apply mkDate_IZR. subst t. unfold maxTime. lia.
  - subst t. rewrite plus_IZR, mult_IZR, <- INR_IZR_INZ. lra.
Qed.

(** The timeline of that flight: three samples, the sun below the horizon,
    above it and below it again. *)
Lemma briefDay_timeline :
  exists first second third,
    @timelineOf briefDayHost DEL JAI 1754071200000 (1 / 2) = [first; second; third] /\
    SunCondition.sunElevation first = Some (-1) /\
    SunCondition.sunElevation second = Some 1 /\
    SunCondition.sunElevation third = Some (-1).
Proof.
  unfold timelineOf, analyzeSunConditions, generateFlightSamplingPoints; cbv zeta.
  replace (1 / 2 * 60 / 15) with 2 by lra. rewrite (ZfloorZ 2).
  change (Z.to_nat (2 + 1)) with 3%nat. cbn [seq map].
  do 3 eexists. split; [reflexivity|].
  split; [|split].
  - rewrite (briefDay_sample 0 1754071200000) by (try reflexivity; lia). reflexivity.
  - rewrite (briefDay_sample 1 1754072100000) by (try reflexivity; lia). reflexivity.
  - rewrite (briefDay_sample 2 1754073000000) by (try reflexivity; lia). reflexivity.
Qed.

(** Both events are detected on it. *)
Lemma briefDay_events :
  Events.willSeeSunrise
    (@detectSunEvents briefDayHost (@timelineOf briefDayHost DEL JAI 1754071200000 (1 / 2)))
    = true /\
  Events.willSeeSunset
    (@detectSunEvents briefDayHost (@timelineOf briefDayHost DEL JAI 1754071200000 (1 / 2)))
    = true.
Proof.
  destruct briefDay_timeline as (first & second & third & -> & Hfirst & Hsecond & Hthird).
  assert (Hrise : isSunriseCrossing first second = true).
  { unfold isSunriseCrossing. rewrite Hfirst, Hsecond.
    unfold gt, le, lt, Rleb, Rltb. rdec; reflexivity. }
  assert (Hset : isSunsetCrossing second third = true).
  { unfold isSunsetCrossing. rewrite Hsecond, Hthird.
    unfold gt, le, lt, Rleb, Rltb. rdec; reflexivity. }
  assert (Hnone : noCrossing isSunriseCrossing second [third] = true).
  { cbn [noCrossing]. unfold isSunriseCrossing. rewrite Hsecond, Hthird.
    unfold gt, le, lt, Rleb, Rltb. rdec; reflexivity. }
  unfold detectSunEvents. split.
  - exact (proj2 (@detectLoop_last_sunrise briefDayHost [] [third] first second
                    initialEvents None Hrise Hnone)).
  - exact (proj2 (@detectLoop_last_sunset briefDayHost [first] [] second third
                    initialEvents None Hset eq_refl)).
Qed.

Lemma briefDay_arrival : arrivalInRange 1754071200000 (1 / 2).
Proof. unfold arrivalInRange, maxTime, Rabs. destruct (Rcase_abs _); lra. Qed.

(** Half an hour from Delhi to Jaipur across the brief day: a sunrise, a
    sunset and night. *)
Lemma analyzeFlightSunConditions_both_events_night_witness :
  exists report,
    @analyzeFlightSunConditions briefDayHost "DEL" "JAI" "2025-08-01" "18:00" (1 / 2)
      = Ok report /\
    FlightSunAnalysis.willSeeSunrise report = true /\
    FlightSunAnalysis.willSeeSunset report = true /\
    FlightSunAnalysis.willSeeNight report = true.
Proof.
  destruct (@analyzeFlightSunConditions_both_events_night briefDayHost
              "DEL" "JAI" "2025-08-01" "18:00" (1 / 2) DEL JAI 1754071200000
              eq_refl eq_refl eq_refl briefDay_arrival)
    as (report & Hreport & Hboth & _).
  pose proof Hreport as Hbuilt.
  rewrite (@analyzeFlightSunConditions_runs briefDayHost
             "DEL" "JAI" "2025-08-01" "18:00" (1 / 2) DEL JAI 1754071200000
             eq_refl eq_refl eq_refl briefDay_arrival) in Hbuilt.
  destruct (generateFlightSunReport_flags _ _ _ _ _ Hbuilt) as (Hrise & Hset & _).
  destruct briefDay_events as [Hsunrise Hsunset].
  rewrite Hsunrise in Hrise. rewrite Hsunset in Hset.
  exists report. split; [exact Hreport|]. split; [exact Hrise|]. split; [exact Hset|].
  now apply Hboth.
Defined.

End NightFacts.

(* ------------------------------------------------------------------ *)
(** ** The frontend helpers *)

Module FrontendFacts.
Import JsNumber EnhancedSunAnalysis.
Import NumFacts AngleFacts InterpolationFacts GreatCircleFacts RouteFacts.

(** *** The distance of the frontend *)

Lemma atan2_quarter (y x : R) :
  0 <= x -> 0 <= y -> x * x + y * y = 1 -> atan2 y x = asin y.
Proof.
  intros Hx Hy Hunit.
  assert (Hxy : x <> 0 \/ y <> 0).
  { destruct (Req_dec x 0) as [Hz|Hz]; [right | now left]. intros Hy0. subst. lra. }
  destruct (atan2_cos_sin y x Hxy) as [Hc Hs].
  rewrite Hunit, sqrt_1 in Hc, Hs.
  pose proof (atan2_range y x) as Hrange. pose proof PI_RGT_0 as Hpi.
  set (t := atan2 y x) in *.
  assert (Hlow : 0 <= t).
  { destruct (Rle_dec 0 t) as [|Hneg]; [assumption|].
    assert (sin t < 0) by (apply sin_lt_0_var; lra). lra. }
  assert (Hhigh : t <= PI / 2).
  { destruct (Rle_dec t (PI / 2)) as [|Hbig]; [assumption|].
    assert (cos t < 0) by (apply cos_lt_0; lra). lra. }
  rewrite <- (asin_sin t) by lra. f_equal. rewrite Hs. field.
Qed.

(** X29.  The distance of the frontend (haversine form with [atan2]) is
    the distance that the backend computes for its flight path (law of
    cosines), for all latitudes within [-90, 90]. *)
Theorem calculateDistance_agrees (lat1 lon1 lat2 lon2 : R) :
  -90 <= lat1 <= 90 -> -90 <= lat2 <= 90 ->
  App.calculateDistance lat1 lon1 lat2 lon2
    = Some (FlightPath.distanceKm (lat1, lon1) (lat2, lon2)).
Proof.
  intros H1 H2.
  rewrite (distanceKm_centralAngle (lat1, lon1) (lat2, lon2)) by exact H1 || exact H2.
  rewrite centralAngle_haversine. cbn [fst snd].
  unfold App.calculateDistance; cbv zeta.
  apply FlightPathFacts.radians_quarter_turn in H1, H2.
  assert (Hcos : 0 <= cos (lat1 * PI / 180) * cos (lat2 * PI / 180))
    by (apply Rmult_le_pos; apply cos_ge_0; lra).
  pose proof (haversine_range (lat1 * PI / 180) (lat2 * PI / 180)
                (lon2 * PI / 180 - lon1 * PI / 180) Hcos) as Hh.
  replace (sin ((lat2 - lat1) * PI / 180 / 2) * sin ((lat2 - lat1) * PI / 180 / 2) +
           cos (lat1 * PI / 180) * cos (lat2 * PI / 180) *
           sin ((lon2 - lon1) * PI / 180 / 2) * sin ((lon2 - lon1) * PI / 180 / 2))
    with (haversine (lat1 * PI / 180) (lat2 * PI / 180)
                    (lon2 * PI / 180 - lon1 * PI / 180)).
  2: { unfold haversine.
       replace ((lat2 * PI / 180 - lat1 * PI / 180) / 2)
         with ((lat2 - lat1) * PI / 180 / 2) by field.
       replace ((lon2 * PI / 180 - lon1 * PI / 180) / 2)
         with ((lon2 - lon1) * PI / 180 / 2) by field.
       ring. }
  set (h := haversine _ _ _) in *.
  destruct (Rle_dec 0 h); [|lra]. destruct (Rle_dec h 1); [|lra].
  rewrite (atan2_quarter (sqrt h) (sqrt (1 - h))).
  - reflexivity.
  - apply sqrt_pos.
  - apply sqrt_pos.
  - rewrite !sqrt_sqrt by lra. ring.
Qed.

(** From Delhi airport to Mount Everest. *)
Lemma calculateDistance_agrees_witness :
  App.calculateDistance 28.5562 77.1 27.9881 86.925
    = Some (FlightPath.distanceKm (28.5562, 77.1) (27.9881, 86.925)).
Proof. apply calculateDistance_agrees; lra. Defined.

(** *** The seat suggestion of the frontend *)

Lemma flightBearingOf_range (fromCoords toCoords : FlightPath.Coords) :
  0 <= App.flightBearingOf fromCoords toCoords < 360.
Proof.
  exact (calculateBearing_range (fst fromCoords) (snd fromCoords)
                                (fst toCoords) (snd toCoords)).
Qed.

(** The sun of a sunrise is visible from the left exactly on the bearings
    up to 180 degrees. *)
Lemma sunrise_left (bearing : R) :
  0 <= bearing < 360 ->
  let relative := App.relativeSunPosition 90 bearing in
  Rleb 270 relative || Rleb relative 90 = Rleb bearing 180 /\
  Rltb 90 relative && Rltb relative 270 = negb (Rleb bearing 180).
Proof.
  intros Hb. unfold App.relativeSunPosition. cbv zeta.
  destruct (Rle_dec bearing 90) as [Hle|Hgt].
  - rewrite rem_once by lra. unfold Rleb, Rltb. split; rdec; reflexivity.
  - rewrite rem_small by lra. unfold Rleb, Rltb. split; rdec; reflexivity.
Qed.

(** The sun of a sunset is visible from the left exactly when the flight
    goes due north or on a bearing of 180 degrees or more. *)
Lemma sunset_left (bearing : R) :
  0 <= bearing < 360 ->
  let relative := App.relativeSunPosition 270 bearing in
  Rleb 270 relative || Rleb relative 90 = Rleb bearing 0 || Rleb 180 bearing /\
  Rltb 90 relative && Rltb relative 270 = negb (Rleb bearing 0 || Rleb 180 bearing).
Proof.
  intros Hb. unfold App.relativeSunPosition. cbv zeta.
  destruct (Rle_dec bearing 270) as [Hle|Hgt].
  - rewrite rem_once by lra. unfold Rleb, Rltb. split; rdec; reflexivity.
  - rewrite rem_small by lra. unfold Rleb, Rltb. split; rdec; reflexivity.
Qed.

(** X30.  The seat suggestion of the frontend, by the flight bearing b in
    [0, 360): for a sunrise it is 'left' when b <= 180 and 'right'
    otherwise, whether a sunset occurs or not; for a sunset alone it is
    'left' when b = 0 or b >= 180; without either it is 'either'.  The seat
    cards agree with it: a sunrise or a sunset that occurs is shown on the
    suggested side and not on the other, and night is shown on both sides
    when it occurs or when both a sunrise and a sunset occur. *)
Theorem determineSeatSuggestion_by_bearing (fromAirport toAirport : string)
    (fromCoords toCoords : FlightPath.Coords) (analysis : App.Flags) :
  App.lookup fromAirport = Some fromCoords ->
  App.lookup toAirport = Some toCoords ->
  let bearing := App.flightBearingOf fromCoords toCoords in
  let sunriseLeft := Rleb bearing 180 in
  let sunsetLeft := Rleb bearing 0 || Rleb 180 bearing in
  let views side :=
    App.getSideSpecificViews fromAirport toAirport side (Some analysis) in
  0 <= bearing < 360 /\
  (forall willSeeSunset,
     App.determineSeatSuggestion fromAirport toAirport true willSeeSunset
       = if sunriseLeft then SideLeft else SideRight) /\
  App.determineSeatSuggestion fromAirport toAirport false true
    = (if sunsetLeft then SideLeft else SideRight) /\
  App.determineSeatSuggestion fromAirport toAirport false false = SideEither /\
  App.sunrise (views App.CardLeft) = App.willSeeSunrise analysis && sunriseLeft /\
  App.sunrise (views App.CardRight) = App.willSeeSunrise analysis && negb sunriseLeft /\
  App.sunset (views App.CardLeft) = App.willSeeSunset analysis && sunsetLeft /\
  App.sunset (views App.CardRight) = App.willSeeSunset analysis && negb sunsetLeft /\
  (forall side,
     App.night (views side)
       = App.willSeeNight analysis
         || (App.willSeeSunrise analysis && App.willSeeSunset analysis)).
Proof.
  intros Hfrom Hto bearing sunriseLeft sunsetLeft views.
  pose proof (flightBearingOf_range fromCoords toCoords) as Hrange. fold bearing in Hrange.
  destruct (sunrise_left bearing Hrange) as [HriseL HriseR].
  destruct (sunset_left bearing Hrange) as [HsetL HsetR].
  cbv zeta in HriseL, HriseR, HsetL, HsetR.
  unfold views, App.getSideSpecificViews, App.determineSeatSuggestion, App.visibleFrom.
  rewrite Hfrom, Hto. cbv zeta. fold bearing.
  rewrite HriseL, HriseR, HsetL, HsetR. fold sunriseLeft sunsetLeft.
  split; [exact Hrange|].
  do 7 (split; [reflexivity|]).
  intros side. destruct side; simpl;
    destruct (App.willSeeSunrise analysis), (App.willSeeSunset analysis),
             (App.willSeeNight analysis); reflexivity.
Qed.

(** From Jaipur to Delhi, with a sunrise, a sunset and no night sample. *)
Lemma determineSeatSuggestion_by_bearing_witness :
  let bearing := App.flightBearingOf (26.9124, 75.7873) (28.5562, 77.1000) in
  let sunriseLeft := Rleb bearing 180 in
  let sunsetLeft := Rleb bearing 0 || Rleb 180 bearing in
  let views side :=
    App.getSideSpecificViews "JAI" "DEL" side (Some (App.mkFlags true true false)) in
  0 <= bearing < 360 /\
  (forall willSeeSunset,
     App.determineSeatSuggestion "JAI" "DEL" true willSeeSunset
       = if sunriseLeft then SideLeft else SideRight) /\
  App.determineSeatSuggestion "JAI" "DEL" false true
    = (if sunsetLeft then SideLeft else SideRight) /\
  App.determineSeatSuggestion "JAI" "DEL" false false = SideEither /\
  App.sunrise (views App.CardLeft) = true && sunriseLeft /\
  App.sunrise (views App.CardRight) = true && negb sunriseLeft /\
  App.sunset (views App.CardLeft) = true && sunsetLeft /\
  App.sunset (views App.CardRight) = true && negb sunsetLeft /\
  (forall side, App.night (views side) = false || (true && true)).
Proof.
  exact (determineSeatSuggestion_by_bearing "JAI" "DEL"
           (26.9124, 75.7873) (28.5562, 77.1000) (App.mkFlags true true false)
           eq_refl eq_refl).
Defined.

End FrontendFacts.
